(** * A resumable batch runner over an Excel job store (src/main.py)

    Shallow embedding of the job engine of [src/main.py]: the worksheet
    that stores the cases, the load-time recovery
    ([reset_running_on_resume]), the case-id range filter, the executor
    ([process_batch]) and the bounded scheduler loop of [main].

    Conventions of the model.
    - A Python [str] is a Rocq [string] whose characters are the code
      points below 256 (Latin-1); [strip], [lower], [isdigit] and [int]
      are written out for that range.
    - A cell of the worksheet holds [None], a string or an integer.
    - What the operating system decides (exit status of the external
      program, the artifact file, the clock, which futures are done when
      [wait] returns) is an explicit input of the model.
    - A string on its way into a cell of an output column goes through
      the check the workbook library makes on every string
      ([check_string]); the statuses and the time stamps the program
      writes itself ([strftime]) pass that check unchanged and are
      written as they are.
    - The state of a run is the workbook in memory. Saving it
      ([wb.save], [safe_save]) and waiting for Excel to release the file
      ([wait_excel]) do not change it: they are modelled on their own,
      over the answers of the successive looks at the file.
    - The log lines of [main] are left out: the standard output is
      taken to write them. The one [print] inside the [try] of the loop
      body counts with [fut.result()]: when it raises, the completion is
      one that raised. The prints of [load_config] are modelled, over
      what the standard output does with each text. *)

From Stdlib Require Import ZArith String Ascii DecimalString DecimalPos.
From stdpp Require Import gmap strings list fin_maps.

Local Open Scope string_scope.
Local Open Scope nat_scope.

(** ** Python strings *)

Module PyStr.

Definition code (c : ascii) : N := N_of_ascii c.

(** [str.isspace] on one character, for code points below 256. *)
Definition isspace_char (c : ascii) : bool :=
  let n := code c in
  ((9 <=? n) && (n <=? 13))%N || ((28 <=? n) && (n <=? 32))%N
  || (n =? 133)%N || (n =? 160)%N.

(** Upper-case letters below 256: A-Z, and the Latin-1 letters
    U+00C0..U+00DE without the multiplication sign U+00D7. *)
Definition isupper_char (c : ascii) : bool :=
  let n := code c in
  ((65 <=? n) && (n <=? 90))%N
  || (((192 <=? n) && (n <=? 222))%N && negb (n =? 215)%N).

Definition lower_char (c : ascii) : ascii :=
  if isupper_char c then ascii_of_N (code c + 32) else c.

Fixpoint lower (s : string) : string :=
  match s with
  | EmptyString => EmptyString
  | String c s' => String (lower_char c) (lower s')
  end.

Fixpoint lstrip (s : string) : string :=
  match s with
  | EmptyString => EmptyString
  | String c s' => if isspace_char c then lstrip s' else s
  end.

(** [rstrip_by p s] removes the longest suffix of [s] made of characters
    satisfying [p]. *)
Fixpoint rstrip_by (p : ascii -> bool) (s : string) : string :=
  match s with
  | EmptyString => EmptyString
  | String c s' =>
      match rstrip_by p s' with
      | EmptyString => if p c then EmptyString else String c EmptyString
      | r => String c r
      end
  end.

Definition strip (s : string) : string := rstrip_by isspace_char (lstrip s).

(** [line.rstrip('\n\r')] *)
Definition is_newline (c : ascii) : bool :=
  ((code c =? 10) || (code c =? 13))%N.
Definition rstrip_newlines (s : string) : string := rstrip_by is_newline s.

(** Truth value of a string: non-empty. *)
Definition truthy (s : string) : bool :=
  match s with EmptyString => false | String _ _ => true end.

Definition is_ascii_digit (c : ascii) : bool :=
  ((48 <=? code c) && (code c <=? 57))%N.

(** [str.isdigit] on one character: below 256 the decimal digits and the
    superscripts U+00B2, U+00B3 and U+00B9. *)
Definition isdigit_char (c : ascii) : bool :=
  is_ascii_digit c
  || (code c =? 178)%N || (code c =? 179)%N || (code c =? 185)%N.

Fixpoint all_chars (p : ascii -> bool) (s : string) : bool :=
  match s with
  | EmptyString => true
  | String c s' => p c && all_chars p s'
  end.

Definition isdigit (s : string) : bool := truthy s && all_chars isdigit_char s.

Fixpoint digits_value (acc : Z) (s : string) : Z :=
  match s with
  | EmptyString => acc
  | String c s' => digits_value (10 * acc + (Z.of_N (code c) - 48)) s'
  end.

(** Default of [sys.get_int_max_str_digits()]. *)
Definition int_max_str_digits : nat := 4300.

(** [int(s)] for a string on which [isdigit] holds; [None] is
    [ValueError]: a superscript digit is no decimal digit, and a literal
    longer than the interpreter's limit is refused. *)
Definition py_int (s : string) : option Z :=
  if all_chars is_ascii_digit s && truthy s
     && (String.length s <=? int_max_str_digits)%nat
  then Some (digits_value 0 s) else None.

(** [str(n)] for integers. *)
Definition str_Z (z : Z) : string := NilZero.string_of_int (Z.to_int z).
Definition str_nat (n : nat) : string := NilZero.string_of_uint (Nat.to_uint n).

(** Split on the tab character, as [s.split('\t')]. *)
Definition tab : ascii := ascii_of_N 9.

Fixpoint split_tab (s : string) : list string :=
  match s with
  | EmptyString => [EmptyString]
  | String c s' =>
      if Ascii.eqb c tab then EmptyString :: split_tab s'
      else match split_tab s' with
           | f :: fs => String c f :: fs
           | [] => [String c EmptyString]
           end
  end.

(** [sep.join(fields)] *)
Fixpoint join_tab (fs : list string) : string :=
  match fs with
  | [] => EmptyString
  | [f] => f
  | f :: fs' => f +:+ String tab (join_tab fs')
  end.

End PyStr.

(** ** Exceptions *)

Inductive exn := TypeError | ValueError | IllegalCharacterError.

Inductive exc (A : Type) : Type :=
| Ok (a : A)
| Raise (e : exn).
Arguments Ok {A} a.
Arguments Raise {A} e.

#[global] Instance exc_ret : MRet exc := fun A a => Ok a.
#[global] Instance exc_bind : MBind exc := fun A B k m =>
  match m with
  | Ok a => k a
  | Raise e => Raise e
  end.

(** ** The worksheet *)

Inductive value :=
| VNone
| VStr (s : string)
| VInt (z : Z).

(** [str(v)] *)
Definition py_str (v : value) : string :=
  match v with
  | VNone => "None"
  | VStr s => s
  | VInt z => PyStr.str_Z z
  end.

(** Cells are addressed by 1-based (row, column); an absent cell reads
    [None]. [max_row] is the largest row that holds a cell, 1 for an
    empty sheet. *)
Record worksheet := Worksheet {
  cells : gmap (nat * nat) value;
  max_row : nat
}.

Definition cell_value (ws : worksheet) (r c : nat) : value :=
  default VNone (cells ws !! (r, c)).

(** [ws.cell(row=r, column=c).value = v] *)
Definition set_cell (ws : worksheet) (r c : nat) (v : value) : worksheet :=
  {| cells := <[(r, c) := v]> (cells ws); max_row := Nat.max r (max_row ws) |}.

(** What the workbook library does to a string that is assigned to a
    cell ([Cell.check_string] of openpyxl): the value is cut to its first
    32767 characters ([value = value[:32767]]), and
    [IllegalCharacterError] is raised when what is left holds a character
    of [[\000-\010]|[\013-\014]|[\016-\037]], that is a control
    character other than tab, line feed and carriage return. The kind
    the cell records for the string (text, formula, error code) is left
    out: the value it holds is the same. *)
Definition MAX_CELL_CHARS : nat := 32 * 1024 - 1.

(** [s[:n]] *)
Fixpoint take_chars (n : nat) (s : string) {struct s} : string :=
  match s with
  | EmptyString => EmptyString
  | String c s' =>
      match n with
      | 0 => EmptyString
      | S n' => String c (take_chars n' s')
      end
  end.

Definition illegal_char (c : ascii) : bool :=
  let n := PyStr.code c in
  ((n <=? 8) || ((11 <=? n) && (n <=? 12)) || ((14 <=? n) && (n <=? 31)))%N.

Fixpoint has_illegal_char (s : string) : bool :=
  match s with
  | EmptyString => false
  | String c s' => illegal_char c || has_illegal_char s'
  end.

Definition check_string (value : string) : exc string :=
  let value := take_chars MAX_CELL_CHARS value in
  if has_illegal_char value then Raise IllegalCharacterError else Ok value.

(** What a cell holds after a string has been assigned to it, and
    whether the assignment is accepted. *)
Definition stored (field : string) : string := take_chars MAX_CELL_CHARS field.

Definition accepted (field : string) : bool := negb (has_illegal_char (stored field)).

(** The rows visited by [ws.iter_rows(min_row=2)]. *)
Definition data_rows (ws : worksheet) : list nat := seq 2 (max_row ws - 1).

Definition STATUS_COL_HEADERS : list string :=
  ["Status"; "Start Time"; "End Time"; "Output"].

Record status_cols := StatusCols {
  sc_status : nat;
  sc_start_time : nat;
  sc_end_time : nat;
  sc_output : nat;
  sc_next_after_status : nat
}.

Fixpoint write_headers (ws : worksheet) (start_col i : nat) (hs : list string)
  : worksheet :=
  match hs with
  | [] => ws
  | h :: hs' => write_headers (set_cell ws 1 (start_col + i) (VStr h)) start_col (S i) hs'
  end.

Definition ensure_status_columns (ws : worksheet) (start_col : nat)
  : worksheet * status_cols :=
  (write_headers ws start_col 0 STATUS_COL_HEADERS,
   {| sc_status := start_col;
      sc_start_time := start_col + 1;
      sc_end_time := start_col + 2;
      sc_output := start_col + 3;
      sc_next_after_status := start_col + length STATUS_COL_HEADERS |}).

(** [str(v).strip().lower()] *)
Definition norm_status (v : value) : string := PyStr.lower (PyStr.strip (py_str v)).

Definition is_completed (v : value) : bool := String.eqb (norm_status v) "completed".
Definition is_pending (v : value) : bool := String.eqb (norm_status v) "pending".

Definition reset_row (status_col : nat) (ws : worksheet) (r : nat) : worksheet :=
  if is_completed (cell_value ws r status_col) then ws
  else set_cell ws r status_col (VStr "pending").

Definition reset_running_on_resume (ws : worksheet) (status_col : nat) : worksheet :=
  foldl (reset_row status_col) ws (data_rows ws).

(** What the recovery leaves in a status cell that held [v]. *)
Definition reset_status (v : value) : value :=
  if is_completed v then v else VStr "pending".

(** ** Configuration *)

(** The count of input columns is a natural number: with a negative
    count [ensure_status_columns] asks for a column below 1 and the
    workbook library raises before any row is read. *)
Record config := Config {
  input_col_count : nat;
  exe_name : string;
  case_id_range : option (string * string)
}.

Definition find_available_cores (total : Z) : Z := Z.max 1 (total - 2).

(** ** Case ids and the range filter *)

(** A batch is [(excel_row_num, batch_inputs)]. *)
Abbreviation batch := (nat * list string)%type.

(** [[str(row[j].value) if ... is not None else "" for j in range(input_col_count)]];
    [row[j]] is the cell of column [j + 1]. *)
Definition input_of_cell (v : value) : string :=
  match v with
  | VNone => ""
  | _ => py_str v
  end.

Definition batch_inputs_of (ws : worksheet) (n : nat) (r : nat) : list string :=
  (fun j => input_of_cell (cell_value ws r (j + 1))) <$> seq 0 n.

(** [batch_inputs[11] if len(batch_inputs) > 11 and batch_inputs[11]
     else f"UNKNOWN_{row}"] *)
Definition case_id_of (batch_inputs : list string) (row : nat) : string :=
  match batch_inputs !! 11 with
  | Some s => if PyStr.truthy s then s else "UNKNOWN_" +:+ PyStr.str_nat row
  | None => "UNKNOWN_" +:+ PyStr.str_nat row
  end.

(** The values compared by the filter: an [int] or a [str]. *)
Inductive pyval :=
| PInt (z : Z)
| PStr (s : string).

(** [a <= b]: defined on two integers and on two strings. *)
Definition py_le (a b : pyval) : exc bool :=
  match a, b with
  | PInt x, PInt y => Ok (x <=? y)%Z
  | PStr x, PStr y => Ok (String.leb x y)
  | _, _ => Raise TypeError
  end.

(** [a <= b <= c]: the second comparison is evaluated only when the first
    one holds. *)
Definition chained_le (a b c : pyval) : exc bool :=
  ab ← py_le a b; if ab : bool then py_le b c else Ok false.

(** [int(s) if s.isdigit() else s] *)
Definition int_if_digit (s : string) : exc pyval :=
  if PyStr.isdigit s then
    match PyStr.py_int s with
    | Some z => Ok (PInt z)
    | None => Raise ValueError
    end
  else Ok (PStr s).

(** The body of the [try]. *)
Definition range_try (rng : string * string) (case_id_str : string) : exc bool :=
  case_id ← int_if_digit case_id_str;
  start_id ← int_if_digit rng.1;
  end_id ← int_if_digit rng.2;
  chained_le start_id case_id end_id.

(** [except (ValueError, AttributeError)]: the strings are compared. *)
Definition range_fallback (rng : string * string) (case_id_str : string) : bool :=
  String.leb rng.1 case_id_str && String.leb case_id_str rng.2.

Definition include_batch (rng : option (string * string))
    (batch_inputs : list string) (excel_row_num : nat) : exc bool :=
  match rng with
  | None => Ok true
  | Some rg =>
      let case_id_str := case_id_of batch_inputs excel_row_num in
      match range_try rg case_id_str with
      | Raise ValueError => Ok (range_fallback rg case_id_str)
      | r => r
      end
  end.

(** The loop over [enumerate(rows)]; an exception leaves the loop. *)
Fixpoint build_batches (cfg : config) (ws : worksheet) (idx : list nat)
  : exc (list batch) :=
  match idx with
  | [] => Ok []
  | i :: idx' =>
      let excel_row_num := i + 2 in
      let batch_inputs := batch_inputs_of ws (input_col_count cfg) excel_row_num in
      inc ← include_batch (case_id_range cfg) batch_inputs excel_row_num;
      rest ← build_batches cfg ws idx';
      Ok (if inc : bool then (excel_row_num, batch_inputs) :: rest else rest)
  end.

Definition pending_of (ws : worksheet) (status_col : nat) (batches : list batch)
  : list batch :=
  List.filter (fun b : batch => is_pending (cell_value ws b.1 status_col)) batches.

(** ** The executor *)

(** How the external program ended. *)
Inductive exe_outcome :=
| ExitZero
| CalledProcessError (returncode : Z)
| OtherException (e : string).

Definition run_exe_on_batch (o : exe_outcome) : bool * string :=
  match o with
  | ExitZero => (true, "")
  | CalledProcessError rc => (false, "Process failed with exit code " +:+ PyStr.str_Z rc)
  | OtherException e => (false, "Unexpected error: " +:+ e)
  end.

(** What the worker finds under a file name of its base directory:
    nothing, a file that cannot be read, or the result of [readline()]. *)
Inductive file_obs :=
| NoFile
| Unreadable
| FirstLine (raw : string).

Definition output_filename (case_id : string) : string :=
  "Output" +:+ case_id +:+ ".txt".

Definition read_output_file (files : string -> file_obs) (case_id : string)
  : string * bool :=
  match files (output_filename case_id) with
  | NoFile => ("", false)
  | Unreadable => ("", false)
  | FirstLine raw => (PyStr.rstrip_newlines raw, true)
  end.

(** What one worker process observes. [w_start] and [w_end] are the two
    time stamps it takes with [strftime]. *)
Record worker_obs := WorkerObs {
  w_exe : exe_outcome;
  w_files : string -> file_obs;
  w_start : string;
  w_end : string
}.

Record batch_result := BatchResult {
  br_row : nat;
  br_status : string;
  br_start : string;
  br_end : string;
  br_output : string;
  br_error : string
}.

Definition process_batch (row_idx : nat) (batch_inputs : list string)
    (exe : string) (case_id : option string) (w : worker_obs) : batch_result :=
  let case_id := match case_id with
                 | Some c => c
                 | None => case_id_of batch_inputs row_idx
                 end in
  let start := w_start w in
  let '(success, error_msg) := run_exe_on_batch (w_exe w) in
  let end_ := w_end w in
  let '(output_line, file_exists) := read_output_file (w_files w) case_id in
  if success then
    if file_exists then BatchResult row_idx "completed" start end_ output_line ""
    else BatchResult row_idx "error" start end_ ""
           "No output file found after successful execution"
  else
    if file_exists then BatchResult row_idx "p-error" start end_ output_line error_msg
    else BatchResult row_idx "error" start end_ "" error_msg.

(** ** The scheduler *)

(** The work a future stands for: the arguments of
    [executor.submit(process_batch, row_idx, batch_inputs, exe_name, case_id)]. *)
Record call := Call {
  call_row : nat;
  call_inputs : list string;
  call_case_id : string
}.

(** The state of the run loop. A future is named by the index of its batch
    in [pending_batches]; [futures] is the dictionary of the source, the
    value being the row index together with the call the future carries.
    [launched] logs the calls handed to the executor, oldest first.
    [crashed] holds the exception that has left the loop, if one has:
    [main] is over then, and the other fields are what they were when it
    was raised. *)
Record sched := Sched {
  sheet : worksheet;
  futures : gmap nat call;
  next_to_submit : nat;
  submitted_indices : gset nat;
  launched : list call;
  crashed : option exn
}.

Definition init_sched (ws : worksheet) : sched :=
  {| sheet := ws; futures := ∅; next_to_submit := 0;
     submitted_indices := ∅; launched := []; crashed := None |}.

(** How the [try] of the loop body ends for a future: without an
    exception, [fut.result()] having returned what the worker computed
    and the line that follows it having been printed, or with an
    exception, raised by [fut.result()] or by that [print]. *)
Inductive completion :=
| Returned (w : worker_obs)
| Raised.

Section Scheduler.

Variable status_col : nat.
Variable exe : string.
(** [clock k]: the time read when batch [k] is submitted. *)
Variable clock : nat -> string.
Variable pending_batches : list batch.
Variable n_cores : nat.

(** Mark the next batch [running], stamp its start time and hand it to
    the executor. Both call sites test the cursor first. *)
Definition submit (st : sched) : sched :=
  match pending_batches !! next_to_submit st with
  | None => st
  | Some (row_idx, batch_inputs) =>
      let start_time := clock (next_to_submit st) in
      let ws1 := set_cell (sheet st) row_idx status_col (VStr "running") in
      let ws2 := set_cell ws1 row_idx (status_col + 1) (VStr start_time) in
      let case_id := case_id_of batch_inputs row_idx in
      let c := Call row_idx batch_inputs case_id in
      {| sheet := ws2;
         futures := <[next_to_submit st := c]> (futures st);
         next_to_submit := S (next_to_submit st);
         submitted_indices := {[next_to_submit st]} ∪ submitted_indices st;
         launched := launched st ++ [c];
         crashed := crashed st |}
  end.

(** [while next_to_submit < min(n_cores, len(pending_batches))] *)
Fixpoint initial_submissions (fuel : nat) (st : sched) : sched :=
  match fuel with
  | 0 => st
  | S fuel' =>
      if (next_to_submit st <? Nat.min n_cores (length pending_batches))%nat
      then initial_submissions fuel' (submit st)
      else st
  end.

(** [for field_idx, field in enumerate(output_fields):
      ws.cell(row=r_idx, column=col_idx).value = field], from
    [field_idx] on. A field the library refuses ends the loop with its
    exception; the fields before it have been written. *)
Fixpoint write_fields (ws : worksheet) (r_idx field_idx : nat)
    (output_fields : list string) : worksheet * option exn :=
  match output_fields with
  | [] => (ws, None)
  | field :: rest =>
      let col_idx := status_col + 3 + field_idx in
      match check_string field with
      | Raise e => (ws, Some e)
      | Ok stored =>
          write_fields (set_cell ws r_idx col_idx (VStr stored)) r_idx (S field_idx) rest
      end
  end.

Definition write_output (ws : worksheet) (r_idx : nat) (full_output : string)
  : worksheet * option exn :=
  if PyStr.truthy full_output
  then write_fields ws r_idx 0 (PyStr.split_tab full_output)
  else (set_cell ws r_idx (status_col + 3) (VStr ""), None).

(** The [except] branch: the row is marked and the future dropped. *)
Definition on_raised (st : sched) (fut row_idx : nat) : sched :=
  {| sheet := set_cell (sheet st) row_idx status_col (VStr "error");
     futures := delete fut (futures st);
     next_to_submit := next_to_submit st;
     submitted_indices := submitted_indices st;
     launched := launched st;
     crashed := crashed st |}.

(** The result is written back and the future dropped. The writes are
    not inside the [try]: when a field is refused, its exception leaves
    [main] with the status, the end time and the fields before it
    written, and the future still in the dictionary. *)
Definition on_returned (st : sched) (fut : nat) (res : batch_result) : sched :=
  let ws1 := set_cell (sheet st) (br_row res) status_col (VStr (br_status res)) in
  let ws2 := set_cell ws1 (br_row res) (status_col + 2) (VStr (br_end res)) in
  let '(ws3, refused) := write_output ws2 (br_row res) (br_output res) in
  match refused with
  | Some e =>
      {| sheet := ws3;
         futures := futures st;
         next_to_submit := next_to_submit st;
         submitted_indices := submitted_indices st;
         launched := launched st;
         crashed := Some e |}
  | None =>
      {| sheet := ws3;
         futures := delete fut (futures st);
         next_to_submit := next_to_submit st;
         submitted_indices := submitted_indices st;
         launched := launched st;
         crashed := crashed st |}
  end.

(** [if next_to_submit < len(pending_batches): ...] *)
Definition resubmit (st : sched) : sched :=
  if (next_to_submit st <? length pending_batches)%nat then submit st else st.

Definition fut_result (c : call) (w : worker_obs) : batch_result :=
  process_batch (call_row c) (call_inputs c) exe (Some (call_case_id c)) w.

(** The body of [for fut in done] for one future. [wait] only returns
    futures of the dictionary; another name is skipped. Nothing is
    handled once an exception has left the loop. *)
Definition handle_done (st : sched) (d : nat * completion) : sched :=
  match crashed st with
  | Some _ => st
  | None =>
      match futures st !! d.1 with
      | None => st
      | Some c =>
          match d.2 with
          | Raised => on_raised st d.1 (call_row c)
          | Returned w =>
              let st1 := on_returned st d.1 (fut_result c w) in
              match crashed st1 with
              | Some _ => st1
              | None => resubmit st1
              end
          end
      end
  end.

(** The states that body goes through: after [futures.pop(fut)] and, on
    the normal path, after the submission that follows; when a cell
    write raises, the state the exception leaves behind. *)
Definition handle_done_trace (st : sched) (d : nat * completion) : list sched :=
  match crashed st with
  | Some _ => []
  | None =>
      match futures st !! d.1 with
      | None => []
      | Some c =>
          match d.2 with
          | Raised => [on_raised st d.1 (call_row c)]
          | Returned w =>
              let st1 := on_returned st d.1 (fut_result c w) in
              match crashed st1 with
              | Some _ => [st1]
              | None => [st1; resubmit st1]
              end
          end
      end
  end.

(** One turn of [while futures:], [done] being what [wait] returned, in
    the order the [for] visits it. *)
Definition loop_iter (st : sched) (done : list (nat * completion)) : sched :=
  if (size (futures st) =? 0)%nat then st else foldl handle_done st done.

Definition main_loop (st : sched) (script : list (list (nat * completion)))
  : sched :=
  foldl loop_iter st script.

(** Every state the run goes through, in order. *)
Fixpoint initial_trace (fuel : nat) (st : sched) : list sched :=
  match fuel with
  | 0 => []
  | S fuel' =>
      if (next_to_submit st <? Nat.min n_cores (length pending_batches))%nat
      then submit st :: initial_trace fuel' (submit st)
      else []
  end.

Fixpoint done_trace (st : sched) (done : list (nat * completion)) : list sched :=
  match done with
  | [] => []
  | d :: done' => handle_done_trace st d ++ done_trace (handle_done st d) done'
  end.

Fixpoint loop_trace (st : sched) (script : list (list (nat * completion)))
  : list sched :=
  match script with
  | [] => []
  | done :: script' =>
      (if (size (futures st) =? 0)%nat then [] else done_trace st done)
      ++ loop_trace (loop_iter st done) script'
  end.

(** [wait(futures.keys(), return_when=FIRST_COMPLETED)] returns a
    non-empty set of futures of the dictionary. *)
Definition wait_ok (st : sched) (done : list (nat * completion)) : bool :=
  negb (length done =? 0)%nat
  && forallb (fun d : nat * completion => bool_decide (is_Some (futures st !! d.1))) done
  && bool_decide (NoDup done.*1).

End Scheduler.

(** ** The run *)

(** [raised]: the exception of the filter, when it ends [main];
    [pool_error]: the exception of [ProcessPoolExecutor(...)], when it
    ends [main]. *)
Record run := Run {
  raised : option exn;
  pool_error : option exn;
  state : sched;
  trace : list sched
}.

(** [ProcessPoolExecutor(max_workers=n)] raises [ValueError] on Windows
    when [n] is above 61 ([_MAX_WINDOWS_WORKERS]); [n] is at least 1
    here. *)
Definition MAX_WINDOWS_WORKERS : nat := 61.

Definition pool_refuses (win32 : bool) (max_workers : nat) : bool :=
  win32 && (MAX_WINDOWS_WORKERS <? max_workers).

Definition status_col_of (cfg : config) : nat := input_col_count cfg + 1.

(** The sheet after the set-up phase of [main]. *)
Definition loaded (cfg : config) (ws : worksheet) : worksheet :=
  let '(ws1, cols) := ensure_status_columns ws (input_col_count cfg + 1) in
  reset_running_on_resume ws1 (sc_status cols).

Definition batches_of (cfg : config) (ws : worksheet) : exc (list batch) :=
  build_batches cfg (loaded cfg ws) (seq 0 (max_row (loaded cfg ws) - 1)).

Definition pending_batches_of (cfg : config) (ws : worksheet) : exc (list batch) :=
  batches ← batches_of cfg ws;
  Ok (pending_of (loaded cfg ws) (status_col_of cfg) batches).

(** [main]: [win32] tells whether [sys.platform] is ["win32"],
    [cpu_count] is [multiprocessing.cpu_count()], [script] lists what
    each [wait] returned. An exception of the filter, or of the creation
    of the pool, leaves [main] before anything is submitted. *)
Definition main (cfg : config) (win32 : bool) (cpu_count : Z) (clock : nat -> string)
    (ws : worksheet) (script : list (list (nat * completion))) : run :=
  let n_cores := Z.to_nat (find_available_cores cpu_count) in
  let status_col := status_col_of cfg in
  let ws2 := loaded cfg ws in
  match pending_batches_of cfg ws with
  | Raise e =>
      {| raised := Some e; pool_error := None; state := init_sched ws2; trace := [] |}
  | Ok pending_batches =>
      if pool_refuses win32 n_cores
      then {| raised := None; pool_error := Some ValueError;
              state := init_sched ws2; trace := [] |}
      else
        let st0 := initial_submissions status_col clock pending_batches n_cores
                     (length pending_batches) (init_sched ws2) in
        {| raised := None; pool_error := None;
           state := main_loop status_col (exe_name cfg) clock pending_batches st0 script;
           trace := initial_trace status_col clock pending_batches n_cores
                      (length pending_batches) (init_sched ws2)
                    ++ loop_trace status_col (exe_name cfg) clock pending_batches st0 script |}
  end.

(** ** What holds of every state of a run *)

(** The call submitted for a batch. *)
Definition mk_call (b : batch) : call :=
  {| call_row := b.1; call_inputs := b.2; call_case_id := case_id_of b.2 b.1 |}.

(** Every tracked future stands for the batch of its index, below the
    cursor; the calls launched so far are those of the batches below the
    cursor, in order; rows outside the pending batches read as in [ws0]. *)
Record sched_inv (pb : list batch) (ws0 : worksheet) (st : sched) : Prop := {
  inv_tracked : ∀ f c, futures st !! f = Some c →
                  f < next_to_submit st ∧ mk_call <$> pb !! f = Some c;
  inv_cursor : next_to_submit st ≤ length pb;
  inv_launched : launched st = mk_call <$> take (next_to_submit st) pb;
  inv_frame : ∀ r c, r ∉ pb.*1 → cell_value (sheet st) r c = cell_value ws0 r c
}.

(** Every case of the sheet reads [completed]. *)
Definition all_completed (cfg : config) (ws : worksheet) : bool :=
  forallb (fun r => is_completed (cell_value ws r (status_col_of cfg))) (data_rows ws).

(** No completion of the script raises. *)
Definition returns_only (script : list (list (nat * completion))) : bool :=
  forallb (forallb (fun d : nat * completion =>
                      match d.2 with Returned _ => true | Raised => false end))
    script.

(** Every future in flight was submitted before the cursor. *)
Definition keys_below (st : sched) : Prop :=
  ∀ f, is_Some (futures st !! f) → f < next_to_submit st.

(** The pool is full, or no pending batch is left to submit. *)
Definition full_or_drained (n : nat) (pb : list batch) (st : sched) : Prop :=
  size (futures st) = n ∨ length pb ≤ next_to_submit st.

(** ** The configuration file *)

(** [s.split(c)] for a one-character separator. *)
Fixpoint split_on (c : ascii) (s : string) : list string :=
  match s with
  | EmptyString => [EmptyString]
  | String x s' =>
      if Ascii.eqb x c then EmptyString :: split_on c s'
      else match split_on c s' with
           | f :: fs => String x f :: fs
           | [] => [String x EmptyString]
           end
  end.

(** [c in s] *)
Fixpoint contains_char (c : ascii) (s : string) : bool :=
  match s with
  | EmptyString => false
  | String x s' => Ascii.eqb x c || contains_char c s'
  end.

Fixpoint count_char (c : ascii) (s : string) : nat :=
  match s with
  | EmptyString => 0
  | String x s' => (if Ascii.eqb x c then 1 else 0) + count_char c s'
  end.

(** The digits of an integer literal, with single underscores allowed
    between digits: the value read so far and the number of digits, or
    [None] when the literal is malformed. [prev_digit] tells whether the
    previous character was a digit. *)
Fixpoint literal_digits (prev_digit : bool) (acc : Z) (count : nat) (s : string)
  : option (Z * nat) :=
  match s with
  | EmptyString => if prev_digit then Some (acc, count) else None
  | String c s' =>
      if PyStr.is_ascii_digit c
      then literal_digits true (10 * acc + (Z.of_N (PyStr.code c) - 48)) (S count) s'
      else if Ascii.eqb c "_"
           then if prev_digit then literal_digits false acc count s' else None
           else None
  end.

Definition unsigned_literal (s : string) : option Z :=
  match literal_digits false 0 0 s with
  | Some (z, count) => if count <=? PyStr.int_max_str_digits then Some z else None
  | None => None
  end.

(** [int(s)] on any string: surrounding white space is dropped, one sign
    may come first; [None] is [ValueError]. *)
Definition py_int_literal (s : string) : option Z :=
  match PyStr.strip s with
  | String "+" r => unsigned_literal r
  | String "-" r => Z.opp <$> unsigned_literal r
  | t => unsigned_literal t
  end.

(** The third line of the configuration: [start, end = line.split(':')]
    needs exactly two parts; otherwise a warning is printed and no range
    is configured. This is the value [case_id_range] has when
    [load_config] returns. *)
Definition parse_range (line : string) : option (string * string) :=
  if contains_char ":" line then
    match split_on ":" line with
    | [start; end_] => Some (PyStr.strip start, PyStr.strip end_)
    | _ => None
    end
  else None.

(** What a [print] does with a text: it is written, or a [ValueError] is
    raised (the encoding of the standard output cannot encode the text,
    which is the [ValueError] named UnicodeEncodeError; or the standard
    output is closed), or another exception is raised (the write fails
    with [OSError]). *)
Inductive print_outcome :=
| Printed
| ValueErrorRaised
| OtherErrorRaised.

Definition info_range_message (start end_ : string) : string :=
  "[INFO] Processing case IDs from " +:+ start +:+ " to " +:+ end_.

Definition warning_range_message (line : string) : string :=
  "[WARNING] Invalid case ID range format in config. Expected 'start_id:end_id', got '"
  +:+ line +:+ "'".

(** The [if len(lines) >= 3 and ':' in lines[2]] block on the third
    line. The range is assigned before the [print] of the inner [try];
    the [except ValueError] of that [try] catches the unpacking error
    and the encoding error of that [print], and prints the warning. The
    outer [None] is an exception that reaches the [except Exception] of
    [load_config]. *)
Definition read_range (stdout : string -> print_outcome) (line : string)
  : option (option (string * string)) :=
  if contains_char ":" line then
    match split_on ":" line with
    | [start; end_] =>
        let case_id_range := Some (PyStr.strip start, PyStr.strip end_) in
        match stdout (info_range_message start end_) with
        | Printed => Some case_id_range
        | ValueErrorRaised =>
            match stdout (warning_range_message line) with
            | Printed => Some case_id_range
            | _ => None
            end
        | OtherErrorRaised => None
        end
    | _ =>
        match stdout (warning_range_message line) with
        | Printed => Some None
        | _ => None
        end
    end
  else Some None.

(** [load_config] on the lines of the file as they are read, [stdout]
    telling what a [print] of a text does. [None] is [sys.exit(1)]. The
    result is [(num_columns, exe_name, case_id_range)]. *)
Definition load_config (stdout : string -> print_outcome) (raw_lines : list string)
  : option (Z * string * option (string * string)) :=
  let lines := List.filter PyStr.truthy (PyStr.strip <$> raw_lines) in
  match lines with
  | l0 :: l1 :: rest =>
      match py_int_literal l0 with
      | None => None
      | Some num_columns =>
          match rest with
          | l2 :: _ =>
              match read_range stdout l2 with
              | Some case_id_range => Some (num_columns, l1, case_id_range)
              | None => None
              end
          | [] => Some (num_columns, l1, None)
          end
      end
  | _ => None
  end.

(** A standard output that writes every text. *)
Definition console (text : string) : print_outcome := Printed.

(** ** Waiting for the workbook to be free *)

(** What the arbiter has done so far: the number of times it looked at
    the file ([is_excel_file_open]), the message boxes shown, the kills of
    Excel scheduled, the seconds slept and the saves made. *)
Record arbiter := Arbiter {
  probes : nat;
  popups : nat;
  kills_scheduled : nat;
  slept : nat;
  saves : nat
}.

Section Contention.

(** [locked k]: whether probe number [k] finds the file held by another
    process. *)
Variable locked : nat -> bool.

Definition probe (a : arbiter) : bool * arbiter :=
  (locked (probes a),
   {| probes := S (probes a); popups := popups a;
      kills_scheduled := kills_scheduled a; slept := slept a; saves := saves a |}).

(** [while is_excel_file_open(filepath): time.sleep(1)]; [None] when the
    fuel runs out with the file still held. *)
Fixpoint poll_until_free (fuel : nat) (a : arbiter) : option arbiter :=
  match fuel with
  | 0 => None
  | S fuel' =>
      let '(held, a1) := probe a in
      if held
      then poll_until_free fuel'
             {| probes := probes a1; popups := popups a1;
                kills_scheduled := kills_scheduled a1;
                slept := S (slept a1); saves := saves a1 |}
      else Some a1
  end.

Definition wait_excel (fuel : nat) (a : arbiter) : option arbiter :=
  let '(held, a1) := probe a in
  if negb held then Some a1
  else poll_until_free fuel
         {| probes := probes a1; popups := S (popups a1);
            kills_scheduled := S (kills_scheduled a1);
            slept := slept a1; saves := saves a1 |}.

(** [wait_excel(excel_path, timeout=60); wb.save(excel_path)] *)
Definition safe_save (fuel : nat) (a : arbiter) : option arbiter :=
  a1 ← wait_excel fuel a;
  Some {| probes := probes a1; popups := popups a1;
          kills_scheduled := kills_scheduled a1; slept := slept a1;
          saves := S (saves a1) |}.

End Contention.

(** ** More of what holds of every state of a run *)

(** One of the three statuses a handled case ends with. *)
Definition finished_status (v : value) : Prop :=
  v = VStr "completed" ∨ v = VStr "error" ∨ v = VStr "p-error".

(** The status cell of a pending batch follows its future: [pending]
    until it is submitted, [running] while the future is in flight, one
    of the final statuses afterwards. *)
Definition status_inv (sc : nat) (pb : list batch) (st : sched) : Prop :=
  ∀ i b, pb !! i = Some b →
    (next_to_submit st ≤ i → cell_value (sheet st) b.1 sc = VStr "pending")
    ∧ (is_Some (futures st !! i) → cell_value (sheet st) b.1 sc = VStr "running")
    ∧ (i < next_to_submit st → futures st !! i = None →
       finished_status (cell_value (sheet st) b.1 sc)).

(** The same once a cell write may have ended the run: the future whose
    result was being written is still in the dictionary, and its status
    is final already. *)
Definition status_inv_crashed (sc : nat) (pb : list batch) (st : sched) : Prop :=
  ∀ i b, pb !! i = Some b →
    (next_to_submit st ≤ i → cell_value (sheet st) b.1 sc = VStr "pending")
    ∧ (is_Some (futures st !! i) →
       cell_value (sheet st) b.1 sc = VStr "running"
       ∨ finished_status (cell_value (sheet st) b.1 sc))
    ∧ (i < next_to_submit st → futures st !! i = None →
       finished_status (cell_value (sheet st) b.1 sc)).

(** What a state of a run satisfies: [status_inv] while the loop runs,
    [status_inv_crashed] once an exception has left it. *)
Definition status_ok (sc : nat) (pb : list batch) (st : sched) : Prop :=
  match crashed st with
  | None => status_inv sc pb st
  | Some _ => status_inv_crashed sc pb st
  end.

(** What the states of a run are shown to satisfy. *)
Definition good (sc : nat) (pb : list batch) (ws0 : worksheet) (st : sched) : Prop :=
  sched_inv pb ws0 st ∧ status_ok sc pb st.

(** The work left: futures in flight and batches still to submit. *)
Definition work_left (pb : list batch) (st : sched) : nat :=
  size (futures st) + (length pb - next_to_submit st).

(** ** Concrete sheets and runs *)

Fixpoint put_row (ws : worksheet) (r c : nat) (vs : list value) : worksheet :=
  match vs with
  | [] => ws
  | v :: vs' => put_row (set_cell ws r c v) r (S c) vs'
  end.

Fixpoint put_rows (ws : worksheet) (r : nat) (g : list (list value)) : worksheet :=
  match g with
  | [] => ws
  | vs :: g' => put_rows (put_row ws r 1 vs) (S r) g'
  end.

(** The sheet whose rows 1, 2, ... hold the given values from column 1 on. *)
Definition grid (g : list (list value)) : worksheet :=
  put_rows {| cells := ∅; max_row := 1 |} 1 g.

Definition demo_clock (k : nat) : string := "T" +:+ PyStr.str_nat k.

(** A worker whose program exits with 0 and leaves [line] as artifact. *)
Definition worker_ok (line : string) : worker_obs :=
  {| w_exe := ExitZero; w_files := fun _ => FirstLine line;
     w_start := "s"; w_end := "e" |}.

(** A worker whose program exits with 0 and leaves no artifact. *)
Definition worker_silent : worker_obs :=
  {| w_exe := ExitZero; w_files := fun _ => NoFile; w_start := "s"; w_end := "e" |}.


(** Row 2 ran to completion earlier, row 3 ended in [error], row 4 was
    interrupted while [running]; one input column. *)
Definition sheet_resume : worksheet :=
  grid [[VStr "in"; VStr "Status"; VStr "Start Time"; VStr "End Time"; VStr "Output"];
        [VStr "a"; VStr "completed"; VStr "t0"; VStr "t1"; VStr "out"];
        [VStr "b"; VStr "error"; VStr "t0"; VStr "t1"];
        [VStr "c"; VStr "running"; VStr "t2"]].

Definition cfg_one : config :=
  {| input_col_count := 1; exe_name := "prog.exe"; case_id_range := None |}.

(** The artifact line "a<TAB>b<TAB>c". *)
Definition line_abc : string :=
  String "a" (String PyStr.tab (String "b" (String PyStr.tab (String "c" EmptyString)))).

Fixpoint repeat_char (c : ascii) (n : nat) : string :=
  match n with
  | 0 => EmptyString
  | S n' => String c (repeat_char c n')
  end.

(** An artifact line of one field, one character longer than a cell
    holds. *)
Definition line_long : string := repeat_char "a" (S MAX_CELL_CHARS).

(** The artifact line "ok<TAB>x<BEL>y<TAB>z": its second field holds the
    control character 7. *)
Definition line_bel : string :=
  "ok" +:+ String PyStr.tab ("x" +:+ String (ascii_of_N 7) ("y" +:+ String PyStr.tab "z")).

(** The run over [sheet_resume] with one worker slot, before any
    completion: the future of row 3 is in flight, row 4 waits. *)
Definition st_one_slot : sched := state (main cfg_one true 3 demo_clock sheet_resume []).

Definition pb_resume : list batch := [(3, ["b"]); (4, ["c"])].

(** The workbook is held by another process at the first three probes
    and free from then on. *)
Definition held_three_probes (k : nat) : bool := k <? 3.

Definition arbiter0 : arbiter :=
  {| probes := 0; popups := 0; kills_scheduled := 0; slept := 0; saves := 0 |}.

(** A fresh sheet: one input column, two cases, no status yet. *)
Definition sheet_two : worksheet := grid [[VStr "in"]; [VStr "a"]; [VStr "b"]].

(** Twelve input columns, the case id in the twelfth; the range 1:5 is
    configured. Row 2 has case id 3, row 3 has case id 9. *)
Definition sheet_ids : worksheet :=
  grid [(replicate 11 VNone ++ [VStr "CaseID"])%list;
        (replicate 11 VNone ++ [VInt 3])%list;
        (replicate 11 VNone ++ [VInt 9])%list].

Definition cfg_range : config :=
  {| input_col_count := 12; exe_name := "prog.exe"; case_id_range := Some ("1", "5") |}.

(** Every case of the sheet is completed. *)
Definition sheet_done : worksheet :=
  grid [[VStr "in"; VStr "Status"; VStr "Start Time"; VStr "End Time"; VStr "Output"];
        [VStr "a"; VStr "completed"; VStr "t0"; VStr "t1"; VStr "out"];
        [VStr "b"; VStr " Completed"; VStr "t2"; VStr "t3"; VStr "x"; VStr "y"]].

(** * Properties *)

(** ** The string functions on small inputs *)

Example norm_status_examples :
  norm_status (VStr "  Completed ") = "completed"
  ∧ norm_status VNone = "none"
  ∧ norm_status (VInt 7) = "7"
  ∧ is_completed (VStr "COMPLETED") = true
  ∧ is_completed (VStr "p-error") = false.
Proof. repeat split. Qed.

Example isdigit_examples :
  PyStr.isdigit "2024" = true
  ∧ PyStr.isdigit "" = false
  ∧ PyStr.isdigit "-5" = false
  ∧ PyStr.isdigit (String (ascii_of_N 178) "") = true
  ∧ PyStr.py_int (String (ascii_of_N 178) "") = None
  ∧ PyStr.py_int "007" = Some 7%Z.
Proof. repeat split. Qed.

Example split_tab_examples :
  PyStr.split_tab "abc" = ["abc"]
  ∧ PyStr.split_tab (String PyStr.tab "") = [""; ""]
  ∧ PyStr.rstrip_newlines (String "x" (String (ascii_of_N 13) (String (ascii_of_N 10) "")))
    = "x".
Proof. repeat split. Qed.

Example case_id_examples :
  case_id_of ["a"; "b"] 7 = "UNKNOWN_7"
  ∧ case_id_of (replicate 11 "" ++ ["42"])%list 7 = "42"
  ∧ case_id_of (replicate 12 "") 7 = "UNKNOWN_7"
  ∧ output_filename "42" = "Output42.txt".
Proof. repeat split. Qed.

(** ** The worksheet *)

(** Two cell addresses differ. *)
Ltac cell_ne :=
  let H := fresh in intros H; injection H; intros; (lia || congruence).

Lemma cell_value_set_eq ws r c v : cell_value (set_cell ws r c v) r c = v.
Proof. unfold cell_value, set_cell; simpl. by rewrite lookup_insert_eq. Qed.

Lemma cell_value_set_ne ws r c v r' c' :
  (r, c) ≠ (r', c') →
  cell_value (set_cell ws r c v) r' c' = cell_value ws r' c'.
Proof.
  intros Hne. unfold cell_value, set_cell; simpl. by rewrite lookup_insert_ne.
Qed.

Lemma cell_value_set ws r c v r' c' :
  cell_value (set_cell ws r c v) r' c' =
  if decide ((r, c) = (r', c')) then v else cell_value ws r' c'.
Proof.
  case_decide as H.
  - injection H as -> ->. apply cell_value_set_eq.
  - by apply cell_value_set_ne.
Qed.

Lemma max_row_set_cell ws r c v :
  r ≤ max_row ws → max_row (set_cell ws r c v) = max_row ws.
Proof. simpl. lia. Qed.

(** ** The executor *)

Lemma append_nonempty (a b : string) : a ≠ "" → a +:+ b ≠ "".
Proof. destruct a; [done | discriminate]. Qed.

Lemma run_exe_on_batch_message (o : exe_outcome) :
  (run_exe_on_batch o).2 = "" ↔ (run_exe_on_batch o).1 = true.
Proof.
  destruct o; simpl; split; try done; intros H; exfalso;
    revert H; by apply append_nonempty.
Qed.

(** C3, as amended. The outcome of an executed case is classified by
    (program succeeded, artifact present): success with artifact gives
    [completed]; success without artifact gives [error] with the message
    "No output file found after successful execution"; failure with
    artifact gives the partial error, stored as [p-error]; failure without
    artifact gives [error]; and the error message is empty exactly when
    the status is [completed]. *)
Theorem process_batch_classification
    (row_idx : nat) (batch_inputs : list string) (exe : string)
    (case_id : option string) (w : worker_obs) :
  let cid := default (case_id_of batch_inputs row_idx) case_id in
  let success := (run_exe_on_batch (w_exe w)).1 in
  let present := (read_output_file (w_files w) cid).2 in
  let res := process_batch row_idx batch_inputs exe case_id w in
  br_status res =
    match success, present with
    | true, true => "completed"
    | true, false => "error"
    | false, true => "p-error"
    | false, false => "error"
    end
  ∧ (success = true → present = false →
     br_error res = "No output file found after successful execution")
  ∧ (br_error res = "" ↔ br_status res = "completed").
Proof.
  intros cid success present res. subst success present res.
  unfold process_batch.
  assert (Hcid : match case_id with
                 | Some c => c
                 | None => case_id_of batch_inputs row_idx
                 end = cid) by (by destruct case_id).
  rewrite Hcid. clear Hcid.
  pose proof (run_exe_on_batch_message (w_exe w)) as Hm.
  destruct (run_exe_on_batch (w_exe w)) as [success msg].
  destruct (read_output_file (w_files w) cid) as [line present].
  simpl in *.
  destruct success, present; simpl; repeat split; try done.
  - intros H. apply Hm in H. discriminate.
  - intros H. apply Hm in H. discriminate.
Qed.

(** C3, as stated, fails on the message: a program that succeeds without
    leaving an artifact is reported with another text. *)
Lemma process_batch_message_differs :
  let res := process_batch 2 ["x"] "prog.exe" (Some "UNKNOWN_2") worker_silent in
  br_status res = "error"
  ∧ br_error res = "No output file found after successful execution"
  ∧ br_error res ≠ "no output produced despite success".
Proof. vm_compute. repeat split; discriminate. Qed.

(** ** Loading: headers and recovery *)

Lemma write_headers_cell ws sc i hs r c :
  r ≠ 1 → cell_value (write_headers ws sc i hs) r c = cell_value ws r c.
Proof.
  revert ws i. induction hs as [|h hs IH]; intros ws i Hr; simpl; [done|].
  rewrite IH by done. apply cell_value_set_ne. congruence.
Qed.

Lemma write_headers_data_rows ws sc i hs :
  data_rows (write_headers ws sc i hs) = data_rows ws.
Proof.
  revert ws i. induction hs as [|h hs IH]; intros ws i; simpl; [done|].
  rewrite IH. unfold data_rows. simpl. f_equal. lia.
Qed.

Lemma reset_status_idem v : reset_status (reset_status v) = reset_status v.
Proof. unfold reset_status. destruct (is_completed v) eqn:E; by rewrite ?E. Qed.

Lemma reset_row_cell sc ws a r c :
  cell_value (reset_row sc ws a) r c =
  if decide (c = sc ∧ r = a) then reset_status (cell_value ws r sc)
  else cell_value ws r c.
Proof.
  unfold reset_row, reset_status.
  case_decide as H.
  - destruct H as [-> ->].
    destruct (is_completed (cell_value ws a sc)); [done|].
    apply cell_value_set_eq.
  - destruct (is_completed (cell_value ws a sc)); [done|].
    apply cell_value_set_ne. intros [= -> ->]. by apply H.
Qed.

Lemma reset_fold_cell sc l ws r c :
  cell_value (foldl (reset_row sc) ws l) r c =
  if decide (c = sc ∧ r ∈ l) then reset_status (cell_value ws r sc)
  else cell_value ws r c.
Proof.
  revert ws. induction l as [|a l IH]; intros ws; simpl.
  - case_decide as H; [|done]. destruct H as [_ H]. by apply elem_of_nil in H.
  - rewrite IH. rewrite !reset_row_cell.
    destruct (decide (c = sc)) as [->|Hc].
    + destruct (decide (r = a)) as [->|Hra].
      * rewrite !(decide_True (P := _ ∧ a = a)) by done.
        rewrite (decide_True (P := _ ∧ a ∈ a :: l)) by (split; [done | by left]).
        case_decide; [apply reset_status_idem | done].
      * rewrite !(decide_False (P := _ ∧ r = a)) by (by intros [_ ?]).
        destruct (decide (r ∈ l)) as [Hin|Hin].
        -- rewrite (decide_True (P := _ ∧ r ∈ l)) by done.
           by rewrite (decide_True (P := _ ∧ r ∈ a :: l)) by (split; [done | by right]).
        -- rewrite (decide_False (P := _ ∧ r ∈ l)) by (by intros [_ ?]).
           rewrite (decide_False (P := _ ∧ r ∈ a :: l)); [done|].
           intros [_ [?|?]%elem_of_cons]; done.
    + rewrite !decide_False by (by intros [? _]). done.
Qed.

Lemma reset_row_max_row sc ws a :
  a ≤ max_row ws → max_row (reset_row sc ws a) = max_row ws.
Proof.
  intros Ha. unfold reset_row.
  destruct (is_completed _); [done|]. by apply max_row_set_cell.
Qed.

Lemma reset_fold_max_row sc l ws :
  (∀ a, a ∈ l → a ≤ max_row ws) → max_row (foldl (reset_row sc) ws l) = max_row ws.
Proof.
  revert ws. induction l as [|a l IH]; intros ws Hl; simpl; [done|].
  rewrite IH.
  - apply reset_row_max_row. apply Hl. set_solver.
  - intros b Hb. rewrite reset_row_max_row; apply Hl; set_solver.
Qed.

Lemma elem_of_data_rows ws r : r ∈ data_rows ws ↔ 2 ≤ r ≤ max_row ws.
Proof. unfold data_rows. rewrite elem_of_seq. lia. Qed.

Lemma loaded_cell cfg ws r c :
  2 ≤ r →
  cell_value (loaded cfg ws) r c =
  if decide (c = status_col_of cfg ∧ r ≤ max_row ws)
  then reset_status (cell_value ws r (status_col_of cfg))
  else cell_value ws r c.
Proof.
  intros Hr. unfold loaded, ensure_status_columns, reset_running_on_resume.
  cbn [sc_status].
  rewrite reset_fold_cell, write_headers_data_rows.
  rewrite !write_headers_cell by lia.
  unfold status_col_of.
  repeat case_decide; try done; exfalso;
    rewrite elem_of_data_rows in *; intuition lia.
Qed.

Lemma loaded_max_row cfg ws : max_row (loaded cfg ws) = Nat.max 1 (max_row ws).
Proof.
  unfold loaded, ensure_status_columns, reset_running_on_resume.
  cbn [sc_status].
  rewrite reset_fold_max_row; [simpl; lia|].
  intros a Ha. apply elem_of_data_rows in Ha. lia.
Qed.

Lemma batch_inputs_of_loaded cfg ws r :
  2 ≤ r →
  batch_inputs_of (loaded cfg ws) (input_col_count cfg) r
  = batch_inputs_of ws (input_col_count cfg) r.
Proof.
  intros Hr. unfold batch_inputs_of.
  apply list_fmap_ext. intros i j Hj.
  apply lookup_seq in Hj as [-> Hlt].
  rewrite loaded_cell by done.
  case_decide as H; [|done]. unfold status_col_of in H. lia.
Qed.

(** ** Building the batches *)

Lemma build_batches_elem cfg ws idx bs b :
  build_batches cfg ws idx = Ok bs →
  b ∈ bs ↔
  ∃ i, i ∈ idx
       ∧ b = (i + 2, batch_inputs_of ws (input_col_count cfg) (i + 2))
       ∧ include_batch (case_id_range cfg)
           (batch_inputs_of ws (input_col_count cfg) (i + 2)) (i + 2) = Ok true.
Proof.
  revert bs. induction idx as [|i idx IH]; intros bs; simpl.
  - intros [= <-]. split; [by intros ?%elem_of_nil|]. intros (i & Hi & _). by apply elem_of_nil in Hi.
  - destruct (include_batch _ _ _) as [inc|e] eqn:Hinc; [|done]. simpl.
    destruct (build_batches cfg ws idx) as [rest|e] eqn:Hrest; [|done]. simpl.
    intros [= <-]. specialize (IH rest eq_refl).
    destruct inc.
    + rewrite elem_of_cons, IH. split.
      * intros [-> | (j & Hj & Hb & Hi)]; [exists i | exists j];
          (split; [by constructor | done]).
      * intros (j & Hj & Hb & Hi). apply elem_of_cons in Hj as [-> | Hj]; [by left|].
        right. by exists j.
    + rewrite IH. split.
      * intros (j & Hj & Hb & Hi). exists j. split; [by constructor | done].
      * intros (j & Hj & Hb & Hi). apply elem_of_cons in Hj as [-> | Hj]; [congruence|].
        by exists j.
Qed.

Lemma build_batches_sublist cfg ws idx bs :
  build_batches cfg ws idx = Ok bs → bs.*1 `sublist_of` (λ i, i + 2) <$> idx.
Proof.
  revert bs. induction idx as [|i idx IH]; intros bs; simpl.
  - by intros [= <-].
  - destruct (include_batch _ _ _) as [inc|e]; [|done]. simpl.
    destruct (build_batches cfg ws idx) as [rest|e]; [|done]. simpl.
    intros [= <-]. specialize (IH rest eq_refl).
    destruct inc; simpl; by constructor.
Qed.

Lemma pending_of_sublist ws sc bs : pending_of ws sc bs `sublist_of` bs.
Proof.
  unfold pending_of. induction bs as [|b bs IH]; simpl; [done|].
  destruct (is_pending _); by constructor.
Qed.

Lemma elem_of_pending_of ws sc bs b :
  b ∈ pending_of ws sc bs ↔ b ∈ bs ∧ is_pending (cell_value ws b.1 sc) = true.
Proof.
  unfold pending_of. rewrite !list_elem_of_In, filter_In. done.
Qed.

Lemma pending_batches_NoDup cfg ws pb :
  pending_batches_of cfg ws = Ok pb → NoDup pb.*1.
Proof.
  unfold pending_batches_of, batches_of.
  destruct (build_batches _ _ _) as [bs|e] eqn:Hbs; [|done]. simpl.
  intros [= <-].
  apply (sublist_NoDup _ (bs.*1)); [|apply fmap_sublist, pending_of_sublist].
  eapply sublist_NoDup; [|by eapply build_batches_sublist].
  apply NoDup_fmap_2; [intros x y; lia | apply NoDup_seq].
Qed.

Lemma is_pending_reset_status v :
  is_pending (reset_status v) = negb (is_completed v).
Proof.
  unfold reset_status. destruct (is_completed v) eqn:E; [|done].
  unfold is_completed, is_pending in *.
  apply String.eqb_eq in E. by rewrite E.
Qed.

Lemma elem_of_pending_batches cfg ws pb b :
  pending_batches_of cfg ws = Ok pb →
  b ∈ pb ↔
  2 ≤ b.1 ≤ max_row ws
  ∧ b.2 = batch_inputs_of ws (input_col_count cfg) b.1
  ∧ include_batch (case_id_range cfg) b.2 b.1 = Ok true
  ∧ is_completed (cell_value ws b.1 (status_col_of cfg)) = false.
Proof.
  unfold pending_batches_of, batches_of.
  destruct (build_batches _ _ _) as [bs|e] eqn:Hbs; [|done]. simpl.
  intros [= <-].
  rewrite elem_of_pending_of, (build_batches_elem _ _ _ _ _ Hbs).
  rewrite loaded_max_row.
  split.
  - intros [(i & Hi & -> & Hinc) Hp]. simpl in *.
    apply elem_of_seq in Hi.
    rewrite batch_inputs_of_loaded in * by lia.
    rewrite loaded_cell in Hp by lia.
    rewrite decide_True in Hp by (split; [done | lia]).
    rewrite is_pending_reset_status in Hp.
    repeat split; try done; try lia.
    by destruct (is_completed _).
  - destruct b as [r inp]. simpl. intros (Hr & -> & Hinc & Hc).
    split.
    + exists (r - 2). replace (r - 2 + 2) with r by lia.
      rewrite batch_inputs_of_loaded by lia.
      split; [apply elem_of_seq; lia | done].
    + rewrite loaded_cell by lia.
      rewrite decide_True by (split; [done | lia]).
      by rewrite is_pending_reset_status, Hc.
Qed.

(** C1, as amended. On load every case whose status is not [completed]
    is reset to [pending]: a [running] case, and an [error] or [p-error]
    case as well. A completed case keeps its status. A case reset that
    way belongs to the pending batches of the new run whenever the range
    filter admits it, so a failed case is retried. *)
Theorem load_resets_every_non_completed (cfg : config) (ws : worksheet) (r : nat) :
  2 ≤ r ≤ max_row ws →
  let sc := status_col_of cfg in
  let v := cell_value ws r sc in
  cell_value (loaded cfg ws) r sc = (if is_completed v then v else VStr "pending")
  ∧ (norm_status v = "running" ∨ norm_status v = "error" ∨ norm_status v = "p-error" →
     cell_value (loaded cfg ws) r sc = VStr "pending")
  ∧ (∀ pb,
       pending_batches_of cfg ws = Ok pb →
       is_completed v = false →
       include_batch (case_id_range cfg)
         (batch_inputs_of ws (input_col_count cfg) r) r = Ok true →
       (r, batch_inputs_of ws (input_col_count cfg) r) ∈ pb).
Proof.
  intros Hr sc v.
  assert (Hload : cell_value (loaded cfg ws) r sc
                  = if is_completed v then v else VStr "pending").
  { rewrite loaded_cell by lia. by rewrite decide_True by (split; [done | lia]). }
  split; [done|]. split.
  - intros Hs. rewrite Hload. unfold is_completed.
    destruct Hs as [-> | [-> | ->]]; done.
  - intros pb Hpb Hc Hinc.
    apply (elem_of_pending_batches _ _ _ _ Hpb). simpl. done.
Qed.

Lemma load_resets_every_non_completed_witness :
  2 ≤ 3 ≤ max_row sheet_resume
  ∧ cell_value sheet_resume 3 (status_col_of cfg_one) = VStr "error"
  ∧ cell_value (loaded cfg_one sheet_resume) 3 (status_col_of cfg_one) = VStr "pending".
Proof.
  assert (H : 2 ≤ 3 ≤ max_row sheet_resume) by (vm_compute; lia).
  split; [exact H|]. split; [reflexivity|].
  destruct (load_resets_every_non_completed cfg_one sheet_resume 3 H) as (_ & Hreset & _).
  apply Hreset. right; left. reflexivity.
Defined.

(** C1, as stated, fails: a case that ended in [error] does not keep its
    status on load; it is reset to [pending] and launched again. *)
Lemma error_case_is_reset_and_retried :
  let run := main cfg_one true 4 demo_clock sheet_resume [] in
  cell_value sheet_resume 3 (status_col_of cfg_one) = VStr "error"
  ∧ cell_value (loaded cfg_one sheet_resume) 3 (status_col_of cfg_one) = VStr "pending"
  ∧ cell_value (loaded cfg_one sheet_resume) 3 (status_col_of cfg_one)
    ≠ cell_value sheet_resume 3 (status_col_of cfg_one)
  ∧ call_row <$> launched (state run) = [3; 4].
Proof. vm_compute. repeat split; discriminate. Qed.

(** ** Writing the output fields *)

Lemma check_string_cases f :
  (accepted f = true ∧ check_string f = Ok (stored f))
  ∨ (accepted f = false ∧ check_string f = Raise IllegalCharacterError).
Proof.
  unfold accepted, check_string, stored.
  destruct (has_illegal_char (take_chars MAX_CELL_CHARS f)); [by right | by left].
Qed.

Lemma check_string_accepted f : accepted f = true → check_string f = Ok (stored f).
Proof. intros H. destruct (check_string_cases f) as [[_ ?]|[? _]]; congruence. Qed.

Lemma check_string_refused f :
  accepted f = false → check_string f = Raise IllegalCharacterError.
Proof. intros H. destruct (check_string_cases f) as [[? _]|[_ ?]]; congruence. Qed.

Lemma take_chars_short n s : String.length s ≤ n → take_chars n s = s.
Proof.
  revert n. induction s as [|c s IH]; intros n H; [done|].
  destruct n as [|n]; simpl in *; [lia|]. f_equal. apply IH. lia.
Qed.

Lemma take_chars_length n s : String.length (take_chars n s) = Nat.min n (String.length s).
Proof.
  revert n. induction s as [|c s IH]; intros n; [by destruct n|].
  destruct n as [|n]; simpl; [done|]. by rewrite IH.
Qed.

(** A string within the limit is stored as it is. *)
Lemma stored_short f : String.length f ≤ MAX_CELL_CHARS → stored f = f.
Proof. apply take_chars_short. Qed.

Lemma stored_length f : String.length (stored f) = Nat.min MAX_CELL_CHARS (String.length f).
Proof. apply take_chars_length. Qed.

Lemma write_fields_other sc ws r i fs r' c' :
  r' ≠ r ∨ c' < sc + 3 + i ∨ sc + 3 + i + length fs ≤ c' →
  cell_value (write_fields sc ws r i fs).1 r' c' = cell_value ws r' c'.
Proof.
  revert ws i. induction fs as [|f fs IH]; intros ws i H; [done|].
  cbn [write_fields length] in *. destruct (check_string f) as [v|e]; [|done].
  rewrite IH by lia. apply cell_value_set_ne. cell_ne.
Qed.

(** The fields up to the first refused one are written, each to its
    column, as the cell stores it. *)
Lemma write_fields_lookup sc ws r i fs k f :
  fs !! k = Some f →
  forallb accepted (take (S k) fs) = true →
  cell_value (write_fields sc ws r i fs).1 r (sc + 3 + i + k) = VStr (stored f).
Proof.
  revert ws i k. induction fs as [|f0 fs IH]; intros ws i k Hk Hacc; [done|].
  cbn [take forallb] in Hacc. apply andb_true_iff in Hacc as [Hf0 Hacc].
  cbn [write_fields]. rewrite (check_string_accepted _ Hf0).
  destruct k as [|k].
  - injection Hk as ->. rewrite write_fields_other by lia.
    replace (sc + 3 + i + 0) with (sc + 3 + i) by lia. apply cell_value_set_eq.
  - replace (sc + 3 + i + S k) with (sc + 3 + S i + k) by lia. by apply IH.
Qed.

(** The loop raises exactly when a field is refused. *)
Lemma write_fields_raises sc ws r i fs :
  (write_fields sc ws r i fs).2
  = if forallb accepted fs then None else Some IllegalCharacterError.
Proof.
  revert ws i. induction fs as [|f fs IH]; intros ws i; [done|].
  cbn [write_fields forallb].
  destruct (check_string_cases f) as [[-> ->]|[-> ->]]; [apply IH | done].
Qed.

Lemma write_output_other sc ws r out r' c' :
  r' ≠ r ∨ c' < sc + 3 →
  cell_value (write_output sc ws r out).1 r' c' = cell_value ws r' c'.
Proof.
  intros H. unfold write_output. destruct (PyStr.truthy out).
  - apply write_fields_other. lia.
  - apply cell_value_set_ne. cell_ne.
Qed.

Lemma write_output_raises sc ws r out :
  (write_output sc ws r out).2
  = if PyStr.truthy out && negb (forallb accepted (PyStr.split_tab out))
    then Some IllegalCharacterError else None.
Proof.
  unfold write_output. destruct (PyStr.truthy out); [|done].
  rewrite write_fields_raises. by destruct (forallb accepted _).
Qed.

Lemma truthy_false s : PyStr.truthy s = false ↔ s = "".
Proof. destruct s; split; done. Qed.

Lemma split_tab_nonempty s : PyStr.split_tab s ≠ [].
Proof.
  destruct s as [|c s]; simpl; [done|].
  destruct (Ascii.eqb c PyStr.tab); [done|]. by destruct (PyStr.split_tab s).
Qed.

(** Joining the fields with tabs gives the line back. *)
Lemma join_split_tab s : PyStr.join_tab (PyStr.split_tab s) = s.
Proof.
  induction s as [|c s IH]; simpl; [done|].
  destruct (Ascii.eqb c PyStr.tab) eqn:E.
  - apply Ascii.eqb_eq in E as ->.
    pose proof (split_tab_nonempty s) as Hne.
    simpl. destruct (PyStr.split_tab s); [done|]. simpl in *. by rewrite IH.
  - pose proof (split_tab_nonempty s) as Hne.
    destruct (PyStr.split_tab s) as [|f fs]; [done|].
    simpl in *. destruct fs; simpl in *; by rewrite <- IH.
Qed.

(** ** The write-back of a result *)

Lemma on_returned_sheet sc st fut res :
  sheet (on_returned sc st fut res)
  = (write_output sc
       (set_cell (set_cell (sheet st) (br_row res) sc (VStr (br_status res)))
          (br_row res) (sc + 2) (VStr (br_end res)))
       (br_row res) (br_output res)).1.
Proof. unfold on_returned. by destruct (write_output _ _ _ _) as [ws3 [e|]]. Qed.

Lemma on_returned_cursor sc st fut res :
  next_to_submit (on_returned sc st fut res) = next_to_submit st
  ∧ launched (on_returned sc st fut res) = launched st
  ∧ submitted_indices (on_returned sc st fut res) = submitted_indices st.
Proof. unfold on_returned. by destruct (write_output _ _ _ _) as [ws3 [e|]]. Qed.

(** Either every field was accepted and the future is dropped, or the
    write raised and the future stays. *)
Lemma on_returned_cases sc st fut res :
  crashed st = None →
  (PyStr.truthy (br_output res)
   && negb (forallb accepted (PyStr.split_tab (br_output res))) = false
   ∧ crashed (on_returned sc st fut res) = None
   ∧ futures (on_returned sc st fut res) = delete fut (futures st))
  ∨ (PyStr.truthy (br_output res)
     && negb (forallb accepted (PyStr.split_tab (br_output res))) = true
     ∧ crashed (on_returned sc st fut res) = Some IllegalCharacterError
     ∧ futures (on_returned sc st fut res) = futures st).
Proof.
  intros Hc. unfold on_returned.
  pose proof (write_output_raises sc
    (set_cell (set_cell (sheet st) (br_row res) sc (VStr (br_status res)))
       (br_row res) (sc + 2) (VStr (br_end res))) (br_row res) (br_output res)) as Hr.
  destruct (write_output _ _ _ _) as [ws3 refused]. simpl in Hr. subst refused.
  destruct (PyStr.truthy _ && negb _); [by right | by left].
Qed.

(** The status and the end time are written before the fields. *)
Lemma on_returned_status_cell sc st fut res :
  cell_value (sheet (on_returned sc st fut res)) (br_row res) sc = VStr (br_status res).
Proof.
  rewrite on_returned_sheet, write_output_other by (right; lia).
  rewrite cell_value_set_ne by cell_ne. apply cell_value_set_eq.
Qed.

Lemma on_returned_end_cell sc st fut res :
  cell_value (sheet (on_returned sc st fut res)) (br_row res) (sc + 2) = VStr (br_end res).
Proof.
  rewrite on_returned_sheet, write_output_other by (right; lia).
  apply cell_value_set_eq.
Qed.

Lemma on_returned_cell_other sc st fut res r col :
  r ≠ br_row res ∨ (col < sc + 3 ∧ col ≠ sc ∧ col ≠ sc + 2) →
  cell_value (sheet (on_returned sc st fut res)) r col = cell_value (sheet st) r col.
Proof.
  intros H. rewrite on_returned_sheet, write_output_other by lia.
  rewrite !cell_value_set_ne; [done | cell_ne | cell_ne].
Qed.

(** ** Invariants of the run loop *)

Section SchedulerInvariants.

Variable sc : nat.
Variable exe : string.
Variable clock : nat → string.
Variable pb : list batch.
Variable n : nat.
Variable ws0 : worksheet.

Lemma inv_init : sched_inv pb ws0 (init_sched ws0).
Proof.
  split; simpl; [intros f c Hf; by rewrite lookup_empty in Hf | lia | done | done].
Qed.

Lemma row_of_pending i b : pb !! i = Some b → b.1 ∈ pb.*1.
Proof.
  intros Hb. apply list_elem_of_fmap. exists b. split; [done|].
  apply list_elem_of_lookup. by exists i.
Qed.

Lemma inv_submit st : sched_inv pb ws0 st → sched_inv pb ws0 (submit sc clock pb st).
Proof.
  intros [Ht Hc Hl Hf]. unfold submit.
  destruct (pb !! next_to_submit st) as [[row inputs]|] eqn:Hb; [|done].
  split; simpl.
  - intros f c. rewrite lookup_insert. case_decide as Hk.
    + intros [= <-]. subst f. split; [lia|]. by rewrite Hb.
    + intros Hfc. destruct (Ht _ _ Hfc). split; [lia | done].
  - apply lookup_lt_Some in Hb. lia.
  - rewrite Hl. by rewrite (take_S_r _ _ _ Hb), fmap_app.
  - intros r c Hr.
    assert (r ≠ row).
    { intros ->. apply Hr. by apply (row_of_pending _ _ Hb). }
    rewrite !cell_value_set_ne by congruence. by apply Hf.
Qed.

Lemma inv_initial_submissions fuel st :
  sched_inv pb ws0 st → sched_inv pb ws0 (initial_submissions sc clock pb n fuel st).
Proof.
  revert st. induction fuel as [|fuel IH]; intros st Hst; simpl; [done|].
  destruct (_ <? _)%nat; [|done]. by apply IH, inv_submit.
Qed.

Lemma tracked_row st f c :
  sched_inv pb ws0 st → futures st !! f = Some c → call_row c ∈ pb.*1.
Proof.
  intros [Ht _ _ _] Hf. destruct (Ht _ _ Hf) as [_ Hb].
  destruct (pb !! f) as [b|] eqn:Hpf; [|done].
  injection Hb as <-. by apply (row_of_pending f).
Qed.

Lemma inv_on_raised st f c :
  sched_inv pb ws0 st → futures st !! f = Some c →
  sched_inv pb ws0 (on_raised sc st f (call_row c)).
Proof.
  intros Hst Hf. pose proof (tracked_row _ _ _ Hst Hf) as Hrow.
  destruct Hst as [Ht Hc Hl Hfr]. split; simpl; try done.
  - intros g d Hg. apply lookup_delete_Some in Hg as [_ Hg]. by apply Ht.
  - intros r c' Hr. rewrite cell_value_set_ne; [by apply Hfr|].
    intros [= <- _]. done.
Qed.

Lemma fut_result_row c w : br_row (fut_result exe c w) = call_row c.
Proof.
  unfold fut_result, process_batch.
  destruct (run_exe_on_batch _) as [[] ?], (read_output_file _ _) as [? []]; done.
Qed.

Lemma inv_on_returned st f c w :
  sched_inv pb ws0 st → futures st !! f = Some c →
  sched_inv pb ws0 (on_returned sc st f (fut_result exe c w)).
Proof.
  intros Hst Hf. pose proof (tracked_row _ _ _ Hst Hf) as Hrow.
  destruct Hst as [Ht Hc Hl Hfr].
  destruct (on_returned_cursor sc st f (fut_result exe c w)) as (Hn & Hla & _).
  split; rewrite ?Hn, ?Hla; try done.
  - intros g d Hg. apply Ht.
    unfold on_returned in Hg. destruct (write_output _ _ _ _) as [ws3 [e|]]; simpl in Hg.
    + done.
    + by apply lookup_delete_Some in Hg as [_ Hg].
  - intros r c' Hr.
    assert (r ≠ call_row c) by (by intros ->).
    rewrite on_returned_cell_other by (left; by rewrite fut_result_row).
    by apply Hfr.
Qed.

Lemma inv_resubmit st : sched_inv pb ws0 st → sched_inv pb ws0 (resubmit sc clock pb st).
Proof.
  intros Hst. unfold resubmit. destruct (_ <? _)%nat; [|done]. by apply inv_submit.
Qed.

Lemma inv_handle_done st d :
  sched_inv pb ws0 st → sched_inv pb ws0 (handle_done sc exe clock pb st d).
Proof.
  intros Hst. unfold handle_done.
  destruct (crashed st); [done|].
  destruct (futures st !! d.1) as [c|] eqn:Hf; [|done].
  destruct d.2 as [w|]; simpl.
  - pose proof (inv_on_returned st d.1 c w Hst Hf) as H1.
    destruct (crashed (on_returned _ _ _ _)); [done | by apply inv_resubmit].
  - by apply inv_on_raised.
Qed.

Lemma inv_foldl_handle_done st dn :
  sched_inv pb ws0 st → sched_inv pb ws0 (foldl (handle_done sc exe clock pb) st dn).
Proof.
  revert st. induction dn as [|d dn IH]; intros st Hst; simpl; [done|].
  by apply IH, inv_handle_done.
Qed.

Lemma inv_loop_iter st dn :
  sched_inv pb ws0 st → sched_inv pb ws0 (loop_iter sc exe clock pb st dn).
Proof.
  intros Hst. unfold loop_iter. destruct (_ =? _)%nat; [done|].
  by apply inv_foldl_handle_done.
Qed.

Lemma inv_main_loop st script :
  sched_inv pb ws0 st → sched_inv pb ws0 (main_loop sc exe clock pb st script).
Proof.
  revert st. unfold main_loop.
  induction script as [|dn script IH]; intros st Hst; simpl; [done|].
  by apply IH, inv_loop_iter.
Qed.

End SchedulerInvariants.

(** The run when the filter returns and the pool is created. *)
Lemma main_state cfg win32 cpu_count clock ws script pb :
  pending_batches_of cfg ws = Ok pb →
  pool_refuses win32 (Z.to_nat (find_available_cores cpu_count)) = false →
  main cfg win32 cpu_count clock ws script =
  let n_cores := Z.to_nat (find_available_cores cpu_count) in
  let st0 := initial_submissions (status_col_of cfg) clock pb n_cores
               (length pb) (init_sched (loaded cfg ws)) in
  {| raised := None; pool_error := None;
     state := main_loop (status_col_of cfg) (exe_name cfg) clock pb st0 script;
     trace := initial_trace (status_col_of cfg) clock pb n_cores
                (length pb) (init_sched (loaded cfg ws))
              ++ loop_trace (status_col_of cfg) (exe_name cfg) clock pb st0 script |}.
Proof. intros Hpb Hpool. unfold main. by rewrite Hpb, Hpool. Qed.

(** The run when the pool is refused: nothing is submitted. *)
Lemma main_refused cfg win32 cpu_count clock ws script pb :
  pending_batches_of cfg ws = Ok pb →
  pool_refuses win32 (Z.to_nat (find_available_cores cpu_count)) = true →
  main cfg win32 cpu_count clock ws script
  = {| raised := None; pool_error := Some ValueError;
       state := init_sched (loaded cfg ws); trace := [] |}.
Proof. intros Hpb Hpool. unfold main. by rewrite Hpb, Hpool. Qed.

(** The pool is created on every host but Windows with more than 61
    worker slots. *)
Lemma pool_accepted win32 n :
  win32 = false ∨ n ≤ MAX_WINDOWS_WORKERS → pool_refuses win32 n = false.
Proof.
  unfold pool_refuses. intros [->|H]; [done|].
  apply andb_false_iff. right. apply Nat.ltb_ge. lia.
Qed.

Lemma main_inv cfg win32 cpu_count clock ws script pb :
  pending_batches_of cfg ws = Ok pb →
  sched_inv pb (loaded cfg ws) (state (main cfg win32 cpu_count clock ws script)).
Proof.
  intros Hpb.
  destruct (pool_refuses win32 (Z.to_nat (find_available_cores cpu_count))) eqn:Hpool.
  - rewrite (main_refused _ _ _ _ _ _ _ Hpb Hpool). apply inv_init.
  - rewrite (main_state _ _ _ _ _ _ _ Hpb Hpool). simpl.
    apply inv_main_loop, inv_initial_submissions, inv_init.
Qed.

(** ** Reconciling one completion *)

Section Reconcile.

Variable sc : nat.
Variable exe : string.
Variable clock : nat → string.
Variable pb : list batch.

Lemma handle_done_returned st fut c w :
  crashed st = None →
  futures st !! fut = Some c →
  handle_done sc exe clock pb st (fut, Returned w)
  = let st1 := on_returned sc st fut (fut_result exe c w) in
    match crashed st1 with
    | Some _ => st1
    | None => resubmit sc clock pb st1
    end.
Proof. intros Hc Hf. unfold handle_done. simpl. by rewrite Hc, Hf. Qed.

Lemma handle_done_raised st fut c :
  crashed st = None →
  futures st !! fut = Some c →
  handle_done sc exe clock pb st (fut, Raised) = on_raised sc st fut (call_row c).
Proof. intros Hc Hf. unfold handle_done. simpl. by rewrite Hc, Hf. Qed.

Lemma handle_done_crashed st d :
  crashed st ≠ None → handle_done sc exe clock pb st d = st.
Proof. intros Hc. unfold handle_done. by destruct (crashed st). Qed.

Lemma crashed_submit st : crashed (submit sc clock pb st) = crashed st.
Proof. unfold submit. by destruct (pb !! next_to_submit st) as [[??]|]. Qed.

Lemma crashed_resubmit st : crashed (resubmit sc clock pb st) = crashed st.
Proof. unfold resubmit. destruct (_ <? _)%nat; [apply crashed_submit | done]. Qed.

Lemma submit_sheet st row inputs :
  pb !! next_to_submit st = Some (row, inputs) →
  sheet (submit sc clock pb st)
  = set_cell (set_cell (sheet st) row sc (VStr "running")) row (sc + 1)
      (VStr (clock (next_to_submit st))).
Proof. intros Hb. unfold submit. by rewrite Hb. Qed.

Lemma submit_cell_other st r col :
  (sc + 2 ≤ col ∨ ∀ b, pb !! next_to_submit st = Some b → b.1 ≠ r) →
  cell_value (sheet (submit sc clock pb st)) r col = cell_value (sheet st) r col.
Proof.
  intros H. unfold submit.
  destruct (pb !! next_to_submit st) as [[row inputs]|] eqn:Hb; [|done]. simpl.
  rewrite !cell_value_set_ne; [done | |].
  - intros [= -> <-]. destruct H as [H|H]; [lia|]. by apply (H _ eq_refl).
  - intros [= -> <-]. destruct H as [H|H]; [lia|]. by apply (H _ eq_refl).
Qed.

Lemma resubmit_cell_other st r col :
  (sc + 2 ≤ col ∨ ∀ b, pb !! next_to_submit st = Some b → b.1 ≠ r) →
  cell_value (sheet (resubmit sc clock pb st)) r col = cell_value (sheet st) r col.
Proof.
  intros H. unfold resubmit. destruct (_ <? _)%nat; [|done].
  by apply submit_cell_other.
Qed.

Lemma fut_result_output c w :
  br_output (fut_result exe c w)
  = (read_output_file (w_files w) (call_case_id c)).1.
Proof.
  unfold fut_result, process_batch, read_output_file.
  destruct (run_exe_on_batch _) as [[] ?];
    destruct (w_files w _); done.
Qed.

Lemma fut_result_end c w : br_end (fut_result exe c w) = w_end w.
Proof.
  unfold fut_result, process_batch.
  destruct (run_exe_on_batch _) as [[] ?], (read_output_file _ _) as [? []]; done.
Qed.

(** From the end-time column on, the cells of a row after a returned
    completion has been handled are those the write-back leaves. *)
Lemma handle_done_cell st fut c w r col :
  crashed st = None →
  futures st !! fut = Some c →
  sc + 2 ≤ col ∨ (∀ b, pb !! next_to_submit st = Some b → b.1 ≠ r) →
  cell_value (sheet (handle_done sc exe clock pb st (fut, Returned w))) r col
  = cell_value (sheet (on_returned sc st fut (fut_result exe c w))) r col.
Proof.
  intros Hc Hf H. rewrite (handle_done_returned _ _ _ _ Hc Hf). cbn zeta.
  destruct (crashed (on_returned _ _ _ _)); [done|].
  apply resubmit_cell_other.
  by destruct (on_returned_cursor sc st fut (fut_result exe c w)) as (-> & _).
Qed.

(** Whether the run goes on after a returned completion. *)
Lemma handle_done_crash st fut c w :
  crashed st = None →
  futures st !! fut = Some c →
  let line := (read_output_file (w_files w) (call_case_id c)).1 in
  crashed (handle_done sc exe clock pb st (fut, Returned w))
  = if PyStr.truthy line && negb (forallb accepted (PyStr.split_tab line))
    then Some IllegalCharacterError else None.
Proof.
  intros Hc Hf line. rewrite (handle_done_returned _ _ _ _ Hc Hf). cbn zeta.
  destruct (on_returned_cases sc st fut (fut_result exe c w) Hc)
    as [(Hb & Hcr & _)|(Hb & Hcr & _)];
    rewrite fut_result_output in Hb; fold line in Hb; rewrite Hb, Hcr; [|done].
  by rewrite crashed_resubmit.
Qed.

(** The cells of the completed row from the [Output] column on: the
    fields up to the first refused one are written, each as the cell
    stores it. *)
Lemma handle_done_output_cells st fut c w :
  crashed st = None →
  futures st !! fut = Some c →
  let st' := handle_done sc exe clock pb st (fut, Returned w) in
  let line := (read_output_file (w_files w) (call_case_id c)).1 in
  let r := call_row c in
  (line ≠ "" →
     (∀ i f, PyStr.split_tab line !! i = Some f →
             forallb accepted (take (S i) (PyStr.split_tab line)) = true →
             cell_value (sheet st') r (sc + 3 + i) = VStr (stored f))
     ∧ (∀ col, sc + 3 + length (PyStr.split_tab line) ≤ col →
               cell_value (sheet st') r col = cell_value (sheet st) r col))
  ∧ (line = "" →
     cell_value (sheet st') r (sc + 3) = VStr ""
     ∧ (∀ col, sc + 3 < col →
               cell_value (sheet st') r col = cell_value (sheet st) r col)).
Proof.
  intros Hc Hf st' line r. subst st'.
  assert (Hcell : ∀ col, sc + 3 ≤ col →
    cell_value (sheet (handle_done sc exe clock pb st (fut, Returned w))) r col
    = cell_value (write_output sc
        (set_cell (set_cell (sheet st) r sc (VStr (br_status (fut_result exe c w))))
           r (sc + 2) (VStr (w_end w))) r line).1 r col).
  { intros col Hcol. rewrite (handle_done_cell _ _ _ _ _ _ Hc Hf) by (left; lia).
    rewrite on_returned_sheet.
    by rewrite fut_result_row, fut_result_end, fut_result_output. }
  split.
  - intros Hline.
    assert (Ht : PyStr.truthy line = true).
    { destruct (PyStr.truthy line) eqn:E; [done|]. by apply truthy_false in E. }
    split.
    + intros i f Hi Hacc. rewrite Hcell by lia. unfold write_output. rewrite Ht.
      replace (sc + 3 + i) with (sc + 3 + 0 + i) by lia.
      by apply write_fields_lookup.
    + intros col Hcol. rewrite Hcell by lia. unfold write_output. rewrite Ht.
      rewrite write_fields_other by lia.
      rewrite !cell_value_set_ne; [done | |]; cell_ne.
  - intros Hline. rewrite !Hline in *. split.
    + rewrite Hcell by lia. unfold write_output. simpl. apply cell_value_set_eq.
    + intros col Hcol. rewrite Hcell by lia. unfold write_output. simpl.
      rewrite !cell_value_set_ne; [done | | |]; cell_ne.
Qed.

Lemma forallb_take {A} (p : A → bool) (l : list A) k :
  forallb p l = true → forallb p (take k l) = true.
Proof.
  revert k. induction l as [|a l IH]; intros k H; [by destruct k|].
  destruct k as [|k]; [done|]. simpl in *.
  apply andb_true_iff in H as [-> H]. by apply IH.
Qed.

End Reconcile.

Lemma split_tab_abc : PyStr.split_tab line_abc = ["a"; "b"; "c"].
Proof. reflexivity. Qed.

(** C4, as amended. For a completion, handled while the run goes on,
    with a non-empty artifact line whose fields the workbook accepts (no
    field holds, within the 32767 characters a cell keeps, a control
    character other than tab, line feed and carriage return), the line is
    split on the tab and field [i] is written to output column [i] of the
    row, in order, cut to its first 32767 characters, so as it is when it
    is no longer than that; the columns after the last field keep their
    content and the run goes on. When the artifact is absent or its line
    empty, the first output column is written with the empty string and
    the later columns keep their content. The line "a<TAB>b<TAB>c" has
    the three fields a, b, c. The output columns are the columns from
    [status_col + 3] on. *)
Theorem output_fields_written
    (sc : nat) (exe : string) (clock : nat → string) (pb : list batch)
    (st : sched) (fut : nat) (c : call) (w : worker_obs) :
  crashed st = None →
  futures st !! fut = Some c →
  let st' := handle_done sc exe clock pb st (fut, Returned w) in
  let line := (read_output_file (w_files w) (call_case_id c)).1 in
  let r := call_row c in
  (line ≠ "" → forallb accepted (PyStr.split_tab line) = true →
     (∀ i f, PyStr.split_tab line !! i = Some f →
             cell_value (sheet st') r (sc + 3 + i) = VStr (stored f)
             ∧ stored f = take_chars MAX_CELL_CHARS f
             ∧ (String.length f ≤ MAX_CELL_CHARS → stored f = f))
     ∧ (∀ col, sc + 3 + length (PyStr.split_tab line) ≤ col →
               cell_value (sheet st') r col = cell_value (sheet st) r col)
     ∧ crashed st' = None)
  ∧ (line = "" →
     cell_value (sheet st') r (sc + 3) = VStr ""
     ∧ (∀ col, sc + 3 < col →
               cell_value (sheet st') r col = cell_value (sheet st) r col)
     ∧ crashed st' = None)
  ∧ PyStr.split_tab line_abc = ["a"; "b"; "c"]
  ∧ N.of_nat MAX_CELL_CHARS = 32767%N.
Proof.
  intros Hc Hf st' line r.
  destruct (handle_done_output_cells sc exe clock pb st fut c w Hc Hf) as [H1 H2].
  pose proof (handle_done_crash sc exe clock pb st fut c w Hc Hf) as Hcr.
  cbn zeta in Hcr. fold line st' in Hcr.
  split; [|split; [|split; [apply split_tab_abc | by vm_compute]]].
  - intros Hline Hacc. destruct (H1 Hline) as [Hcells Hrest].
    split; [|split; [exact Hrest|]].
    + intros i f Hi. split; [|split].
      * apply Hcells; [done|]. by apply forallb_take.
      * reflexivity.
      * apply stored_short.
    + rewrite Hcr, Hacc. by rewrite andb_false_r.
  - intros Hline. destruct (H2 Hline) as [Hfirst Hrest].
    split; [exact Hfirst|]. split; [exact Hrest|].
    rewrite Hcr. fold line. by rewrite Hline.
Qed.

Lemma output_fields_written_witness :
  crashed st_one_slot = None
  ∧ futures st_one_slot !! 0 = Some (mk_call (3, ["b"]))
  ∧ let st' := handle_done 2 "prog.exe" demo_clock pb_resume st_one_slot
                 (0, Returned (worker_ok line_abc)) in
    cell_value (sheet st') 3 5 = VStr "a"
    ∧ cell_value (sheet st') 3 6 = VStr "b"
    ∧ cell_value (sheet st') 3 7 = VStr "c".
Proof.
  assert (Hc : crashed st_one_slot = None) by reflexivity.
  assert (Hf : futures st_one_slot !! 0 = Some (mk_call (3, ["b"]))) by reflexivity.
  split; [exact Hc|]. split; [exact Hf|].
  destruct (output_fields_written 2 "prog.exe" demo_clock pb_resume st_one_slot 0 _
              (worker_ok line_abc) Hc Hf) as [Hfields _].
  destruct Hfields as [Hfields _]; [discriminate | reflexivity |].
  split; [|split];
    [destruct (Hfields 0 "a" eq_refl) as [H _]
    |destruct (Hfields 1 "b" eq_refl) as [H _]
    |destruct (Hfields 2 "c" eq_refl) as [H _]]; exact H.
Defined.

(** C4, as stated, fails: an artifact line of 32768 characters and no
    tab is one field, and the cell of the first output column holds its
    first 32767 characters only. *)
Lemma long_field_is_cut :
  let st' := handle_done 2 "prog.exe" demo_clock pb_resume st_one_slot
               (0, Returned (worker_ok line_long)) in
  length (PyStr.split_tab line_long) = 1
  ∧ N.of_nat (String.length line_long) = 32768%N
  ∧ N.of_nat (String.length (py_str (cell_value (sheet st') 3 5))) = 32767%N
  ∧ cell_value (sheet st') 3 5 ≠ VStr line_long.
Proof.
  intros st'. set (v := cell_value (sheet st') 3 5).
  assert (H : N.of_nat (String.length (py_str v)) = 32767%N).
  { subst v st'. vm_compute. reflexivity. }
  assert (Hl : N.of_nat (String.length line_long) = 32768%N).
  { vm_compute. reflexivity. }
  clearbody v. clear st'.
  split; [vm_compute; reflexivity|]. split; [exact Hl|]. split; [exact H|].
  intros ->. change (py_str (VStr line_long)) with line_long in H.
  rewrite Hl in H. discriminate.
Qed.

(** A field that the workbook refuses ends the run: with the line
    "ok<TAB>x<BEL>y<TAB>z" the status, the end time and the first field
    are written, the second field raises [IllegalCharacterError] out of
    [main], the third is not written, the future is not dropped and the
    case that waits is not submitted. *)
Lemma refused_field_ends_run :
  let st' := handle_done 2 "prog.exe" demo_clock pb_resume st_one_slot
               (0, Returned (worker_ok line_bel)) in
  crashed st' = Some IllegalCharacterError
  ∧ cell_value (sheet st') 3 2 = VStr "completed"
  ∧ cell_value (sheet st') 3 4 = VStr "e"
  ∧ cell_value (sheet st') 3 5 = VStr "ok"
  ∧ cell_value (sheet st') 3 6 = VNone
  ∧ cell_value (sheet st') 3 7 = VNone
  ∧ is_Some (futures st' !! 0)
  ∧ next_to_submit st' = 1
  ∧ cell_value (sheet st') 4 2 = VStr "pending"
  ∧ handle_done 2 "prog.exe" demo_clock pb_resume st' (0, Raised) = st'.
Proof. vm_compute. repeat split. by eexists. Qed.

Lemma ensure_status_columns_headers ws start_col :
  let '(ws1, cols) := ensure_status_columns ws start_col in
  cell_value ws1 1 (sc_status cols) = VStr "Status"
  ∧ cell_value ws1 1 (sc_start_time cols) = VStr "Start Time"
  ∧ cell_value ws1 1 (sc_end_time cols) = VStr "End Time"
  ∧ cell_value ws1 1 (sc_output cols) = VStr "Output"
  ∧ sc_output cols = sc_status cols + 3
  ∧ sc_next_after_status cols = sc_output cols + 1.
Proof.
  unfold ensure_status_columns, STATUS_COL_HEADERS. cbn.
  rewrite Nat.add_0_r.
  repeat split; try lia;
    repeat first [ rewrite cell_value_set_eq | rewrite cell_value_set_ne by cell_ne ];
    reflexivity.
Qed.

(** C5, as amended. The parsed output fields are written from the fourth
    fixed column on, the one headed [Output]: for a completion, handled
    while the run goes on, with k output fields, field 0 is written into
    the [Output] column itself and the fields occupy the k contiguous
    columns starting there, each field that the workbook accepts together
    with the fields before it being written as the cell stores it (its
    first 32767 characters). The column after the status columns,
    [next_after_status], is where field 1 goes. *)
Theorem output_fields_start_at_output_column
    (cfg : config) (ws : worksheet) (clock : nat → string) (pb : list batch)
    (st : sched) (fut : nat) (c : call) (w : worker_obs) :
  crashed st = None →
  futures st !! fut = Some c →
  let sc := status_col_of cfg in
  let ws1 := (ensure_status_columns ws sc).1 in
  let cols := (ensure_status_columns ws sc).2 in
  let st' := handle_done sc (exe_name cfg) clock pb st (fut, Returned w) in
  let line := (read_output_file (w_files w) (call_case_id c)).1 in
  cell_value ws1 1 (sc_output cols) = VStr "Output"
  ∧ sc_output cols = sc_status cols + 3
  ∧ sc_next_after_status cols = sc_output cols + 1
  ∧ (line ≠ "" →
     ∀ i f, PyStr.split_tab line !! i = Some f →
            forallb accepted (take (S i) (PyStr.split_tab line)) = true →
            cell_value (sheet st') (call_row c) (sc_output cols + i) = VStr (stored f)).
Proof.
  intros Hc Hf sc ws1 cols st' line.
  pose proof (ensure_status_columns_headers ws sc) as Hh.
  subst ws1 cols. destruct (ensure_status_columns ws sc) as [ws1 cols] eqn:He.
  destruct Hh as (_ & _ & _ & Hout & Hcol & Hnext).
  assert (Hsc : sc_status cols = sc).
  { unfold ensure_status_columns in He. by injection He as _ <-. }
  simpl. repeat split; try done.
  intros Hline i f Hi Hacc.
  destruct (handle_done_output_cells sc (exe_name cfg) clock pb st fut c w Hc Hf)
    as [Hfields _].
  destruct (Hfields Hline) as [Hcells _].
  rewrite Hcol, Hsc. by apply Hcells.
Qed.

Lemma output_fields_start_at_output_column_witness :
  crashed st_one_slot = None
  ∧ futures st_one_slot !! 0 = Some (mk_call (3, ["b"]))
  ∧ let st' := handle_done 2 "prog.exe" demo_clock pb_resume st_one_slot
                 (0, Returned (worker_ok line_abc)) in
    cell_value (sheet st') 3 5 = VStr "a".
Proof.
  assert (Hc : crashed st_one_slot = None) by reflexivity.
  assert (Hf : futures st_one_slot !! 0 = Some (mk_call (3, ["b"]))) by reflexivity.
  split; [exact Hc|]. split; [exact Hf|].
  destruct (output_fields_start_at_output_column cfg_one sheet_resume demo_clock
              pb_resume st_one_slot 0 _ (worker_ok line_abc) Hc Hf)
    as (_ & _ & _ & Hfields).
  apply (Hfields ltac:(discriminate) 0 "a"); reflexivity.
Defined.

(** C5, as stated, fails: with the single output field "x" the field is
    found under the [Output] header (column 5 here), and the column right
    after it (column 6, [next_after_status]) is left empty. *)
Lemma first_field_is_not_after_output_column :
  let run := main cfg_one true 3 demo_clock sheet_two [[(0, Returned (worker_ok "x"))]] in
  let cols := (ensure_status_columns sheet_two 2).2 in
  cell_value (sheet (state run)) 1 5 = VStr "Output"
  ∧ sc_output cols = 5
  ∧ sc_next_after_status cols = 6
  ∧ cell_value (sheet (state run)) 2 5 = VStr "x"
  ∧ cell_value (sheet (state run)) 2 6 = VNone
  ∧ cell_value (sheet (state run)) 2 (sc_output cols + 1) ≠ VStr "x".
Proof. vm_compute. repeat split; discriminate. Qed.

(** ** Which cells a completion writes *)

Lemma next_row_fresh pb ws0 st f c b :
  NoDup pb.*1 → sched_inv pb ws0 st →
  futures st !! f = Some c → pb !! next_to_submit st = Some b → b.1 ≠ call_row c.
Proof.
  intros Hnd [Ht _ _ _] Hf Hb Heq.
  destruct (Ht _ _ Hf) as [Hlt Hc].
  destruct (pb !! f) as [b0|] eqn:Hb0; [|done]. injection Hc as <-. simpl in Heq.
  assert (f = next_to_submit st); [|lia].
  apply (NoDup_lookup (pb.*1) _ _ b0.1 Hnd).
  - by rewrite list_lookup_fmap, Hb0.
  - rewrite list_lookup_fmap, Hb. simpl. by rewrite Heq.
Qed.

(** C9, as amended. While the run goes on, a completion for which no
    exception leaves the [try] of the loop body ([fut.result()] returns
    and the line after it is printed) writes the status and the end time
    of its row, whatever the status is. A completion for which an
    exception leaves that [try] (raised by [fut.result()] or by that
    [print]) writes the status [error] and leaves the end time as it was.
    In both cases the start-time cell of the completed row keeps its
    content, and so does the start-time cell of every row but the one
    submitted next. The start time is written at submission. *)
Theorem completion_writes
    (cfg : config) (win32 : bool) (cpu_count : Z) (clock : nat → string) (ws : worksheet)
    (script : list (list (nat * completion))) (pb : list batch)
    (fut : nat) (c : call) (compl : completion) :
  pending_batches_of cfg ws = Ok pb →
  crashed (state (main cfg win32 cpu_count clock ws script)) = None →
  futures (state (main cfg win32 cpu_count clock ws script)) !! fut = Some c →
  let st := state (main cfg win32 cpu_count clock ws script) in
  let sc := status_col_of cfg in
  let st' := handle_done sc (exe_name cfg) clock pb st (fut, compl) in
  let r := call_row c in
  match compl with
  | Returned w =>
      cell_value (sheet st') r sc = VStr (br_status (fut_result (exe_name cfg) c w))
      ∧ cell_value (sheet st') r (sc + 2) = VStr (w_end w)
  | Raised =>
      cell_value (sheet st') r sc = VStr "error"
      ∧ cell_value (sheet st') r (sc + 2) = cell_value (sheet st) r (sc + 2)
  end
  ∧ cell_value (sheet st') r (sc + 1) = cell_value (sheet st) r (sc + 1)
  ∧ (∀ r', (∀ b, pb !! next_to_submit st = Some b → b.1 ≠ r') →
           cell_value (sheet st') r' (sc + 1) = cell_value (sheet st) r' (sc + 1))
  ∧ (∀ st1 row inputs, pb !! next_to_submit st1 = Some (row, inputs) →
       cell_value (sheet (submit sc clock pb st1)) row (sc + 1)
       = VStr (clock (next_to_submit st1))).
Proof.
  intros Hpb Hc Hf st sc st' r.
  pose proof (main_inv cfg win32 cpu_count clock ws script pb Hpb) as Hinv.
  pose proof (pending_batches_NoDup _ _ _ Hpb) as Hnd.
  assert (Hfresh : ∀ b, pb !! next_to_submit st = Some b → b.1 ≠ r).
  { intros b Hb. by eapply next_row_fresh. }
  assert (Hstart : ∀ r', (∀ b, pb !! next_to_submit st = Some b → b.1 ≠ r') →
            cell_value (sheet st') r' (sc + 1) = cell_value (sheet st) r' (sc + 1)).
  { intros r' Hr'. subst st'. destruct compl as [w|].
    - rewrite (handle_done_cell _ _ _ _ _ _ _ w r' _ Hc Hf) by (by right).
      rewrite on_returned_sheet, write_output_other by (right; lia).
      rewrite !cell_value_set_ne; [done | |]; cell_ne.
    - rewrite (handle_done_raised _ _ _ _ _ _ _ Hc Hf). simpl.
      rewrite cell_value_set_ne; [done|]. cell_ne. }
  split; [|split; [by apply Hstart | split; [exact Hstart|]]].
  - subst st'. destruct compl as [w|].
    + rewrite !(handle_done_cell _ _ _ _ _ _ _ w r _ Hc Hf) by (by right).
      pose proof (fut_result_row (exe_name cfg) c w) as Hrow. fold r in Hrow.
      rewrite <- (fut_result_end (exe_name cfg) c w). clearbody r. subst r. split.
      * apply on_returned_status_cell.
      * apply on_returned_end_cell.
    + rewrite (handle_done_raised _ _ _ _ _ _ _ Hc Hf). simpl. fold r. split.
      * apply cell_value_set_eq.
      * apply cell_value_set_ne. cell_ne.
  - intros st1 row inputs Hb. rewrite (submit_sheet _ _ _ _ _ _ Hb).
    apply cell_value_set_eq.
Qed.

Lemma completion_writes_witness :
  pending_batches_of cfg_one sheet_resume = Ok pb_resume
  ∧ crashed (state (main cfg_one true 3 demo_clock sheet_resume [])) = None
  ∧ futures (state (main cfg_one true 3 demo_clock sheet_resume [])) !! 0
    = Some (mk_call (3, ["b"]))
  ∧ let st := state (main cfg_one true 3 demo_clock sheet_resume []) in
    let st' := handle_done 2 "prog.exe" demo_clock pb_resume st
                 (0, Returned (worker_ok "x")) in
    cell_value (sheet st') 3 4 = VStr "e"
    ∧ cell_value (sheet st') 3 3 = cell_value (sheet st) 3 3.
Proof.
  assert (Hpb : pending_batches_of cfg_one sheet_resume = Ok pb_resume) by reflexivity.
  assert (Hf : futures (state (main cfg_one true 3 demo_clock sheet_resume [])) !! 0
               = Some (mk_call (3, ["b"]))) by reflexivity.
  assert (Hc : crashed (state (main cfg_one true 3 demo_clock sheet_resume [])) = None)
    by reflexivity.
  split; [exact Hpb|]. split; [exact Hc|]. split; [exact Hf|].
  destruct (completion_writes cfg_one true 3 demo_clock sheet_resume [] pb_resume 0 _
              (Returned (worker_ok "x")) Hpb Hc Hf) as ([_ Hend] & Hstart & _).
  split; [exact Hend | exact Hstart].
Defined.

(** C9, as stated, fails on the end time: when the completion of a case
    raises, the row is marked [error] and its end-time cell stays empty. *)
Lemma raised_completion_leaves_end_time :
  let run := main cfg_one true 3 demo_clock sheet_two [[(0, Raised)]] in
  wait_ok (state (main cfg_one true 3 demo_clock sheet_two [])) [(0, Raised)] = true
  ∧ cell_value (sheet (state run)) 2 2 = VStr "error"
  ∧ cell_value (sheet (state run)) 2 3 = VStr "T0"
  ∧ cell_value (sheet (state run)) 2 4 = VNone.
Proof. vm_compute. repeat split. Qed.

(** ** Rows the run does not touch *)

Lemma launched_rows pb ws0 st cl :
  sched_inv pb ws0 st → cl ∈ launched st → ∃ b, b ∈ pb ∧ cl = mk_call b.
Proof.
  intros [_ _ Hl _]. rewrite Hl. intros (b & -> & Hb)%list_elem_of_fmap.
  exists b. split; [|done]. eapply elem_of_sublist; [done|].
  apply sublist_take.
Qed.

Lemma main_loop_no_futures sc exe clock pb st script :
  futures st = ∅ → main_loop sc exe clock pb st script = st.
Proof.
  intros He. unfold main_loop. induction script as [|dn script IH]; simpl; [done|].
  unfold loop_iter at 2. rewrite He, map_size_empty. simpl. apply IH.
Qed.

Lemma loop_trace_no_futures sc exe clock pb st script :
  futures st = ∅ → loop_trace sc exe clock pb st script = [].
Proof.
  intros He. induction script as [|dn script IH]; simpl; [done|].
  unfold loop_iter. rewrite He, map_size_empty. simpl. exact IH.
Qed.

Lemma main_raised cfg win32 cpu_count clock ws script e :
  pending_batches_of cfg ws = Raise e →
  main cfg win32 cpu_count clock ws script
  = {| raised := Some e; pool_error := None;
       state := init_sched (loaded cfg ws); trace := [] |}.
Proof. intros H. unfold main. by rewrite H. Qed.

Lemma main_untouched_row cfg win32 cpu_count clock ws script r :
  (∀ pb, pending_batches_of cfg ws = Ok pb → r ∉ pb.*1) →
  (r ∉ (call_row <$> launched (state (main cfg win32 cpu_count clock ws script))))
  ∧ ∀ col, cell_value (sheet (state (main cfg win32 cpu_count clock ws script))) r col
           = cell_value (loaded cfg ws) r col.
Proof.
  intros Hr. destruct (pending_batches_of cfg ws) as [pb|e] eqn:Hpb.
  - pose proof (main_inv cfg win32 cpu_count clock ws script pb Hpb) as Hinv.
    specialize (Hr pb eq_refl). split.
    + intros (cl & -> & Hcl)%list_elem_of_fmap.
      destruct (launched_rows _ _ _ _ Hinv Hcl) as (b & Hb & ->).
      apply Hr. simpl. apply list_elem_of_fmap. by exists b.
    + intros col. by apply (inv_frame _ _ _ Hinv).
  - rewrite (main_raised _ _ _ _ _ _ _ Hpb). simpl. split; [|done].
    by intros ?%elem_of_nil.
Qed.

(** ** The range filter *)

Lemma include_batch_numeric rg inputs row zc zs ze :
  int_if_digit (case_id_of inputs row) = Ok (PInt zc) →
  int_if_digit rg.1 = Ok (PInt zs) →
  int_if_digit rg.2 = Ok (PInt ze) →
  include_batch (Some rg) inputs row = Ok ((zs <=? zc)%Z && (zc <=? ze)%Z).
Proof.
  intros Hc Hs He. unfold include_batch, range_try.
  rewrite Hc, Hs, He. simpl. unfold chained_le. simpl.
  by destruct (zs <=? zc)%Z.
Qed.

(** A string converts to an integer when it is a digit string that [int]
    accepts. *)
Lemma int_if_digit_int s z :
  int_if_digit s = Ok (PInt z) ↔ PyStr.isdigit s = true ∧ PyStr.py_int s = Some z.
Proof.
  unfold int_if_digit. destruct (PyStr.isdigit s).
  - destruct (PyStr.py_int s) as [z'|]; split.
    + intros [= ->]. done.
    + intros [_ [= ->]]. done.
    + done.
    + intros [_ ?]. done.
  - split; [done | by intros [? _]].
Qed.

Lemma int_if_digit_str s : PyStr.isdigit s = false → int_if_digit s = Ok (PStr s).
Proof. intros H. unfold int_if_digit. by rewrite H. Qed.

Lemma include_batch_strings rg inputs row :
  PyStr.isdigit (case_id_of inputs row) = false →
  PyStr.isdigit rg.1 = false →
  PyStr.isdigit rg.2 = false →
  include_batch (Some rg) inputs row
  = Ok (String.leb rg.1 (case_id_of inputs row)
        && String.leb (case_id_of inputs row) rg.2).
Proof.
  intros Hc Hs He. unfold include_batch, range_try.
  rewrite !int_if_digit_str by done. simpl. unfold chained_le. simpl.
  by destruct (String.leb _ _).
Qed.

Lemma int_if_digit_cases s :
  (∃ v, int_if_digit s = Ok v) ∨ int_if_digit s = Raise ValueError.
Proof.
  unfold int_if_digit. destruct (PyStr.isdigit s); [|by left; eexists].
  destruct (PyStr.py_int s); [by left; eexists | by right].
Qed.

(** A digit string that [int] refuses sends the filter to the comparison
    of the strings. *)
Lemma include_batch_value_error rg inputs row :
  int_if_digit (case_id_of inputs row) = Raise ValueError
  ∨ int_if_digit rg.1 = Raise ValueError
  ∨ int_if_digit rg.2 = Raise ValueError →
  include_batch (Some rg) inputs row
  = Ok (String.leb rg.1 (case_id_of inputs row)
        && String.leb (case_id_of inputs row) rg.2).
Proof.
  intros H. unfold include_batch, range_try, range_fallback.
  destruct (int_if_digit_cases (case_id_of inputs row)) as [[vc Hc]|Hc];
    rewrite Hc; simpl; [|done].
  destruct (int_if_digit_cases rg.1) as [[vs Hs]|Hs]; rewrite Hs; simpl; [|done].
  destruct (int_if_digit_cases rg.2) as [[ve He]|He]; rewrite He; simpl; [|done].
  destruct H as [H | [H | H]]; congruence.
Qed.

(** C6, as amended. With a case-id range (s, e) configured, a case is
    included iff its id lies in the inclusive range, compared as integers
    when the case id and both bounds all convert to integers, and as
    strings when none of the three is a digit string or when a digit
    string does not convert. A case the filter excludes is never submitted
    and keeps, in every column, what the load left there: the run writes
    nothing to its row after the load-time reset of its status. *)
Theorem range_filter
    (cfg : config) (win32 : bool) (cpu_count : Z) (clock : nat → string) (ws : worksheet)
    (script : list (list (nat * completion))) (s e : string) :
  case_id_range cfg = Some (s, e) →
  (∀ inputs row zc zs ze,
     int_if_digit (case_id_of inputs row) = Ok (PInt zc) →
     int_if_digit s = Ok (PInt zs) →
     int_if_digit e = Ok (PInt ze) →
     include_batch (Some (s, e)) inputs row = Ok ((zs <=? zc)%Z && (zc <=? ze)%Z))
  ∧ (∀ inputs row,
     (PyStr.isdigit (case_id_of inputs row) = false
      ∧ PyStr.isdigit s = false ∧ PyStr.isdigit e = false)
     ∨ int_if_digit (case_id_of inputs row) = Raise ValueError
     ∨ int_if_digit s = Raise ValueError
     ∨ int_if_digit e = Raise ValueError →
     include_batch (Some (s, e)) inputs row
     = Ok (String.leb s (case_id_of inputs row)
           && String.leb (case_id_of inputs row) e))
  ∧ (∀ r,
     2 ≤ r ≤ max_row ws →
     include_batch (Some (s, e)) (batch_inputs_of ws (input_col_count cfg) r) r
       = Ok false →
     (r ∉ (call_row <$> launched (state (main cfg win32 cpu_count clock ws script))))
     ∧ ∀ col, cell_value (sheet (state (main cfg win32 cpu_count clock ws script))) r col
              = cell_value (loaded cfg ws) r col).
Proof.
  intros Hrg. split; [|split].
  - intros inputs row zc zs ze. apply (include_batch_numeric (s, e)).
  - intros inputs row [(Hc & Hs & He) | H].
    + by apply (include_batch_strings (s, e)).
    + by apply (include_batch_value_error (s, e)).
  - intros r Hr Hinc. apply main_untouched_row.
    intros pb Hpb (b & -> & Hb)%list_elem_of_fmap.
    apply (elem_of_pending_batches _ _ _ _ Hpb) in Hb as (_ & Hin & Hb & _).
    rewrite Hrg, Hin in Hb. congruence.
Qed.

Lemma range_filter_witness :
  case_id_range cfg_range = Some ("1", "5")
  ∧ include_batch (Some ("1", "5")) (batch_inputs_of sheet_ids 12 2) 2 = Ok true
  ∧ 3 ∉ (call_row <$> launched (state (main cfg_range true 4 demo_clock sheet_ids []))).
Proof.
  destruct (range_filter cfg_range true 4 demo_clock sheet_ids [] "1" "5" eq_refl)
    as (Hnum & _ & Hout).
  split; [reflexivity|]. split.
  - apply (Hnum _ 2 3%Z 1%Z 5%Z); reflexivity.
  - apply (Hout 3); [vm_compute; lia | reflexivity].
Defined.

(** C6, as stated, fails on the last part: a case outside the range does
    receive a status write. The load resets every status that is not
    [completed], before the range is looked at. Row 3 (case id 9, range
    1:5) is never launched and yet its empty status becomes [pending]. *)
Lemma excluded_case_status_is_written :
  let run := main cfg_range true 4 demo_clock sheet_ids [] in
  include_batch (case_id_range cfg_range) (batch_inputs_of sheet_ids 12 3) 3 = Ok false
  ∧ call_row <$> launched (state run) = [2]
  ∧ cell_value sheet_ids 3 (status_col_of cfg_range) = VNone
  ∧ cell_value (sheet (state run)) 3 (status_col_of cfg_range) = VStr "pending".
Proof. vm_compute. repeat split. Qed.

(** ** Resuming a finished store *)

Lemma all_completed_spec cfg ws :
  all_completed cfg ws = true ↔
  ∀ r, 2 ≤ r ≤ max_row ws → is_completed (cell_value ws r (status_col_of cfg)) = true.
Proof.
  unfold all_completed. rewrite forallb_forall. split.
  - intros H r Hr. apply H, list_elem_of_In, elem_of_data_rows, Hr.
  - intros H r Hr. apply H, elem_of_data_rows, list_elem_of_In, Hr.
Qed.

Lemma reset_fold_completed sc l ws :
  (∀ r, r ∈ l → is_completed (cell_value ws r sc) = true) →
  foldl (reset_row sc) ws l = ws.
Proof.
  induction l as [|a l IH]; intros Hl; simpl; [done|].
  unfold reset_row at 2. rewrite Hl by (by left).
  apply IH. intros r Hr. apply Hl. by right.
Qed.

Lemma loaded_all_completed cfg ws :
  all_completed cfg ws = true →
  loaded cfg ws = (ensure_status_columns ws (status_col_of cfg)).1.
Proof.
  intros Hall. unfold loaded, ensure_status_columns, reset_running_on_resume.
  cbn [sc_status fst]. apply reset_fold_completed.
  intros r Hr. rewrite write_headers_data_rows in Hr.
  apply elem_of_data_rows in Hr.
  rewrite write_headers_cell by lia.
  by apply (all_completed_spec cfg ws).
Qed.

Lemma no_pending_when_all_completed cfg ws pb :
  all_completed cfg ws = true → pending_batches_of cfg ws = Ok pb → pb = [].
Proof.
  intros Hall Hpb. destruct pb as [|b pb]; [done|]. exfalso.
  assert (Hb : b ∈ b :: pb) by (by left).
  apply (elem_of_pending_batches _ _ _ _ Hpb) in Hb as (Hr & _ & _ & Hc).
  rewrite (proj1 (all_completed_spec cfg ws) Hall _ Hr) in Hc. done.
Qed.

(** C8. On a store in which every case is already [completed] the run
    launches nothing, goes through no scheduler state, and ends with the
    sheet it loaded: the given sheet with the four status headers written
    in row 1. Every cell below the header (statuses, timestamps, output
    fields) is as it was. *)
Theorem resume_of_completed_store
    (cfg : config) (win32 : bool) (cpu_count : Z) (clock : nat → string) (ws : worksheet)
    (script : list (list (nat * completion))) :
  all_completed cfg ws = true →
  let run := main cfg win32 cpu_count clock ws script in
  launched (state run) = []
  ∧ futures (state run) = ∅
  ∧ trace run = []
  ∧ sheet (state run) = (ensure_status_columns ws (status_col_of cfg)).1
  ∧ (∀ r col, 2 ≤ r → cell_value (sheet (state run)) r col = cell_value ws r col)
  ∧ max_row (sheet (state run)) = Nat.max 1 (max_row ws).
Proof.
  intros Hall run.
  assert (Hst : state run = init_sched (loaded cfg ws) ∧ trace run = []).
  { subst run. destruct (pending_batches_of cfg ws) as [pb|e] eqn:Hpb.
    - pose proof (no_pending_when_all_completed _ _ _ Hall Hpb) as ->.
      destruct (pool_refuses win32 (Z.to_nat (find_available_cores cpu_count))) eqn:Hpool.
      + by rewrite (main_refused _ _ _ _ _ _ _ Hpb Hpool).
      + rewrite (main_state _ _ _ _ _ _ _ Hpb Hpool). simpl.
        by rewrite main_loop_no_futures, loop_trace_no_futures.
    - by rewrite (main_raised _ _ _ _ _ _ _ Hpb). }
  destruct Hst as [-> ->].
  rewrite <- (loaded_all_completed cfg ws Hall).
  unfold init_sched. cbn [launched futures sheet].
  repeat split; try done.
  - intros r col Hr. rewrite loaded_cell by done.
    case_decide as H; [|done]. destruct H as [-> Hle].
    unfold reset_status.
    by rewrite (proj1 (all_completed_spec cfg ws) Hall r) by lia.
  - apply loaded_max_row.
Qed.

Lemma resume_of_completed_store_witness :
  all_completed cfg_one sheet_done = true
  ∧ launched (state (main cfg_one true 4 demo_clock sheet_done [])) = []
  ∧ cell_value (sheet (state (main cfg_one true 4 demo_clock sheet_done []))) 3 2
    = VStr " Completed".
Proof.
  assert (Hall : all_completed cfg_one sheet_done = true) by reflexivity.
  destruct (resume_of_completed_store cfg_one true 4 demo_clock sheet_done [] Hall)
    as (Hl & _ & _ & _ & Hcells & _).
  split; [exact Hall|]. split; [exact Hl|].
  rewrite Hcells by lia. reflexivity.
Defined.

(** ** The case id *)

Lemma batch_inputs_lookup ws n r j :
  batch_inputs_of ws n r !! j
  = if decide (j < n) then Some (input_of_cell (cell_value ws r (j + 1))) else None.
Proof.
  unfold batch_inputs_of. rewrite list_lookup_fmap.
  case_decide as H.
  - by rewrite lookup_seq_lt.
  - by rewrite lookup_seq_ge by lia.
Qed.

Lemma case_id_of_batch_inputs ws n r :
  case_id_of (batch_inputs_of ws n r) r
  = if decide (11 < n ∧ input_of_cell (cell_value ws r 12) ≠ "")
    then input_of_cell (cell_value ws r 12)
    else "UNKNOWN_" +:+ PyStr.str_nat r.
Proof.
  unfold case_id_of. rewrite batch_inputs_lookup. simpl.
  destruct (decide (11 < n)) as [Hn|Hn].
  - destruct (input_of_cell (cell_value ws r 12)) eqn:E; simpl.
    + by rewrite decide_False by (by intros [_ ?]).
    + by rewrite decide_True.
  - by rewrite decide_False by (by intros [? _]).
Qed.

(** C10. The case id of a row is the twelfth input (index 11) when the
    configured input-column count exceeds 11 and that cell is not empty,
    and otherwise the placeholder "UNKNOWN_" followed by the Excel row
    number. The range filter compares that id; every call handed to the
    executor carries the inputs of its row and that id; and the worker
    reads the artifact from the file "Output<case id>.txt", so under the
    placeholder name when the id is the placeholder. *)
Theorem case_id_is_twelfth_input
    (cfg : config) (win32 : bool) (cpu_count : Z) (clock : nat → string) (ws : worksheet)
    (script : list (list (nat * completion))) (pb : list batch) :
  pending_batches_of cfg ws = Ok pb →
  let n := input_col_count cfg in
  (∀ r, case_id_of (batch_inputs_of ws n r) r
        = if decide (11 < n ∧ input_of_cell (cell_value ws r 12) ≠ "")
          then input_of_cell (cell_value ws r 12)
          else "UNKNOWN_" +:+ PyStr.str_nat r)
  ∧ (∀ r, n ≤ 11 ∨ cell_value ws r 12 = VNone ∨ cell_value ws r 12 = VStr "" →
          case_id_of (batch_inputs_of ws n r) r = "UNKNOWN_" +:+ PyStr.str_nat r
          ∧ output_filename (case_id_of (batch_inputs_of ws n r) r)
            = "OutputUNKNOWN_" +:+ PyStr.str_nat r +:+ ".txt")
  ∧ (∀ rg inputs r,
       include_batch (Some rg) inputs r
       = match range_try rg (case_id_of inputs r) with
         | Raise ValueError => Ok (range_fallback rg (case_id_of inputs r))
         | res => res
         end)
  ∧ (∀ cl, cl ∈ launched (state (main cfg win32 cpu_count clock ws script)) →
       2 ≤ call_row cl ≤ max_row ws
       ∧ call_inputs cl = batch_inputs_of ws n (call_row cl)
       ∧ call_case_id cl = case_id_of (call_inputs cl) (call_row cl))
  ∧ (∀ cl w,
       br_output (fut_result (exe_name cfg) cl w)
       = match w_files w ("Output" +:+ call_case_id cl +:+ ".txt") with
         | FirstLine raw => PyStr.rstrip_newlines raw
         | _ => ""
         end).
Proof.
  intros Hpb n. split; [|split; [|split; [|split]]].
  - intros r. apply case_id_of_batch_inputs.
  - intros r Hr.
    assert (Hid : case_id_of (batch_inputs_of ws n r) r = "UNKNOWN_" +:+ PyStr.str_nat r).
    { rewrite case_id_of_batch_inputs. case_decide as H; [|done].
      destruct H as [Hn Hcell]. destruct Hr as [Hr | [Hr | Hr]];
        [lia | by rewrite Hr in Hcell | by rewrite Hr in Hcell]. }
    split; [done|]. by rewrite Hid.
  - done.
  - intros cl Hcl.
    pose proof (main_inv cfg win32 cpu_count clock ws script pb Hpb) as Hinv.
    destruct (launched_rows _ _ _ _ Hinv Hcl) as (b & Hb & ->).
    apply (elem_of_pending_batches _ _ _ _ Hpb) in Hb as (Hr & Hin & _ & _).
    simpl. done.
  - intros cl w. rewrite fut_result_output. unfold read_output_file, output_filename.
    by destruct (w_files w _).
Qed.

Lemma case_id_is_twelfth_input_witness :
  pending_batches_of cfg_range sheet_ids = Ok [(2, batch_inputs_of sheet_ids 12 2)]
  ∧ case_id_of (batch_inputs_of sheet_ids 12 2) 2 = "3"
  ∧ case_id_of (batch_inputs_of sheet_two 1 2) 2 = "UNKNOWN_2".
Proof.
  assert (Hpb : pending_batches_of cfg_range sheet_ids
                = Ok [(2, batch_inputs_of sheet_ids 12 2)]) by reflexivity.
  assert (Hpb1 : pending_batches_of cfg_one sheet_two
                 = Ok [(2, ["a"]); (3, ["b"])]) by reflexivity.
  split; [exact Hpb|]. split.
  - destruct (case_id_is_twelfth_input cfg_range true 4 demo_clock sheet_ids [] _ Hpb)
      as (Hid & _).
    rewrite Hid. reflexivity.
  - destruct (case_id_is_twelfth_input cfg_one true 4 demo_clock sheet_two [] _ Hpb1)
      as (_ & Hunk & _).
    apply (Hunk 2). left. simpl. lia.
Defined.

(** ** The number of futures in flight *)

Section InFlight.

Variable sc : nat.
Variable exe : string.
Variable clock : nat → string.
Variable pb : list batch.
Variable n : nat.

Lemma size_submit st :
  size (futures (submit sc clock pb st)) ≤ S (size (futures st))
  ∧ next_to_submit (submit sc clock pb st) ≤ S (next_to_submit st).
Proof.
  unfold submit.
  destruct (pb !! next_to_submit st) as [[row inputs]|]; simpl; [|lia].
  rewrite map_size_insert. destruct (futures st !! next_to_submit st); simpl; lia.
Qed.

(** While the first submissions are made. *)
Lemma initial_trace_bound fuel st :
  size (futures st) ≤ next_to_submit st →
  Forall (λ s, size (futures s) ≤ n) (initial_trace sc clock pb n fuel st)
  ∧ (size (futures st) ≤ n →
     size (futures (initial_submissions sc clock pb n fuel st)) ≤ n).
Proof.
  revert st. induction fuel as [|fuel IH]; intros st Hst; simpl; [by split|].
  destruct (next_to_submit st <? Nat.min n (length pb))%nat eqn:Hlt; [|by split].
  apply Nat.ltb_lt in Hlt.
  destruct (size_submit st) as [Hs Hn].
  destruct (IH (submit sc clock pb st)) as [IH1 IH2].
  - unfold submit in *. destruct (pb !! next_to_submit st) as [[row inputs]|]; simpl in *.
    + simpl in *. lia.
    + lia.
  - assert (Hle : size (futures (submit sc clock pb st)) ≤ n) by lia.
    split; [apply Forall_cons_2; [done | apply IH1] | intros _; by apply IH2].
Qed.

Lemma size_on_raised st fut row :
  size (futures (on_raised sc st fut row)) ≤ size (futures st).
Proof.
  simpl. rewrite map_size_delete.
  destruct (futures st !! fut); simpl; lia.
Qed.

Lemma size_on_returned st fut c res :
  futures st !! fut = Some c →
  size (futures (on_returned sc st fut res)) ≤ size (futures st)
  ∧ (crashed (on_returned sc st fut res) = None →
     S (size (futures (on_returned sc st fut res))) = size (futures st)).
Proof.
  intros Hf.
  assert (size (futures st) ≠ 0) by (by eapply map_size_ne_0_lookup_2).
  unfold on_returned. destruct (write_output _ _ _ _) as [ws3 [e|]]; simpl.
  - split; [lia | done].
  - rewrite map_size_delete, Hf. simpl. lia.
Qed.

Lemma size_resubmit st :
  size (futures (resubmit sc clock pb st)) ≤ S (size (futures st)).
Proof.
  unfold resubmit. destruct (_ <? _)%nat; [apply size_submit | lia].
Qed.

Lemma handle_done_bound st d :
  size (futures st) ≤ n →
  Forall (λ s, size (futures s) ≤ n) (handle_done_trace sc exe clock pb st d)
  ∧ size (futures (handle_done sc exe clock pb st d)) ≤ n.
Proof.
  intros Hst. unfold handle_done, handle_done_trace.
  destruct (crashed st); [by split|].
  destruct (futures st !! d.1) as [c|] eqn:Hf; [|by split].
  destruct d.2 as [w|]; cbn [List.last].
  - destruct (size_on_returned st d.1 c (fut_result exe c w) Hf) as [H0 H1].
    pose proof (size_resubmit (on_returned sc st d.1 (fut_result exe c w))) as H2.
    cbn zeta. destruct (crashed (on_returned _ _ _ _)).
    + split; [|lia]. apply Forall_cons_2; [lia | apply Forall_nil_2].
    + specialize (H1 eq_refl). split; [|lia].
      apply Forall_cons_2; [lia|]. apply Forall_cons_2; [lia | apply Forall_nil_2].
  - pose proof (size_on_raised st d.1 (call_row c)) as H1.
    split; [|lia]. apply Forall_cons_2; [lia | apply Forall_nil_2].
Qed.

Lemma done_trace_bound st dn :
  size (futures st) ≤ n →
  Forall (λ s, size (futures s) ≤ n) (done_trace sc exe clock pb st dn)
  ∧ size (futures (foldl (handle_done sc exe clock pb) st dn)) ≤ n.
Proof.
  revert st. induction dn as [|d dn IH]; intros st Hst; simpl; [by split|].
  destruct (handle_done_bound st d Hst) as [H1 H2].
  destruct (IH _ H2) as [H3 H4].
  split; [by apply Forall_app | done].
Qed.

Lemma loop_trace_bound st script :
  size (futures st) ≤ n →
  Forall (λ s, size (futures s) ≤ n) (loop_trace sc exe clock pb st script)
  ∧ size (futures (main_loop sc exe clock pb st script)) ≤ n.
Proof.
  revert st. unfold main_loop.
  induction script as [|dn script IH]; intros st Hst; simpl; [by split|].
  destruct (done_trace_bound st dn Hst) as [H1 H2].
  assert (Hit : size (futures (loop_iter sc exe clock pb st dn)) ≤ n).
  { unfold loop_iter. by destruct (_ =? _)%nat. }
  destruct (IH _ Hit) as [H3 H4].
  split; [|done]. apply Forall_app. split; [|done].
  by destruct (_ =? _)%nat.
Qed.

End InFlight.

(** At every state of a run at most [n_cores] futures are in flight. *)
Lemma in_flight_bound cfg win32 cpu_count clock ws script :
  let n_cores := Z.to_nat (find_available_cores cpu_count) in
  let run := main cfg win32 cpu_count clock ws script in
  1 ≤ n_cores
  ∧ Forall (λ st, size (futures st) ≤ n_cores) (trace run)
  ∧ size (futures (state run)) ≤ n_cores.
Proof.
  intros n_cores run.
  split; [subst n_cores; unfold find_available_cores; lia|].
  subst run. destruct (pending_batches_of cfg ws) as [pb|e] eqn:Hpb.
  - destruct (pool_refuses win32 n_cores) eqn:Hpool.
    { rewrite (main_refused _ _ _ _ _ _ _ Hpb Hpool). simpl.
      split; [constructor | rewrite map_size_empty; lia]. }
    rewrite (main_state _ _ _ _ _ _ _ Hpb Hpool). simpl.
    destruct (initial_trace_bound (status_col_of cfg) clock pb n_cores (length pb)
                (init_sched (loaded cfg ws))) as [H1 H2].
    { simpl. by rewrite map_size_empty. }
    destruct (loop_trace_bound (status_col_of cfg) (exe_name cfg) clock pb n_cores
                (initial_submissions (status_col_of cfg) clock pb n_cores (length pb)
                   (init_sched (loaded cfg ws))) script) as [H3 H4].
    { apply H2. simpl. rewrite map_size_empty. lia. }
    split; [by apply Forall_app | done].
  - rewrite (main_raised _ _ _ _ _ _ _ Hpb). simpl.
    split; [constructor | rewrite map_size_empty; lia].
Qed.

(** ** Keeping the pool full *)

Section WorkConserving.

Variable sc : nat.
Variable exe : string.
Variable clock : nat → string.
Variable pb : list batch.
Variable n : nat.

Lemma submit_fresh st b :
  keys_below st → pb !! next_to_submit st = Some b →
  size (futures (submit sc clock pb st)) = S (size (futures st))
  ∧ next_to_submit (submit sc clock pb st) = S (next_to_submit st)
  ∧ keys_below (submit sc clock pb st).
Proof.
  intros Hk Hb. unfold submit. rewrite Hb. destruct b as [row inputs]. simpl.
  assert (Hnone : futures st !! next_to_submit st = None).
  { destruct (futures st !! next_to_submit st) eqn:E; [|done].
    assert (next_to_submit st < next_to_submit st) by (by apply Hk). lia. }
  split; [by apply map_size_insert_None|]. split; [done|].
  intros f. unfold keys_below in Hk. simpl. rewrite lookup_insert.
  case_decide as Hf; [lia|]. intros H. specialize (Hk f H). lia.
Qed.

Lemma initial_submissions_count fuel st :
  keys_below st →
  size (futures st) = next_to_submit st →
  next_to_submit st ≤ Nat.min n (length pb) →
  Nat.min n (length pb) - next_to_submit st ≤ fuel →
  let st' := initial_submissions sc clock pb n fuel st in
  next_to_submit st' = Nat.min n (length pb)
  ∧ size (futures st') = Nat.min n (length pb)
  ∧ keys_below st'.
Proof.
  revert st. induction fuel as [|fuel IH]; intros st Hk Hs Hle Hfuel; simpl.
  - repeat split; [lia | lia | done].
  - destruct (next_to_submit st <? Nat.min n (length pb))%nat eqn:Hlt.
    + apply Nat.ltb_lt in Hlt.
      destruct (lookup_lt_is_Some_2 pb (next_to_submit st)) as [b Hb]; [lia|].
      destruct (submit_fresh st b Hk Hb) as (H1 & H2 & H3).
      apply IH; [done | lia | lia | lia].
    + apply Nat.ltb_ge in Hlt. repeat split; [lia | lia | done].
Qed.

Lemma keys_below_delete st st' fut :
  keys_below st → futures st' = delete fut (futures st) →
  next_to_submit st' = next_to_submit st → keys_below st'.
Proof.
  intros Hk Hf Hn f. rewrite Hf, Hn. intros [c Hc].
  apply lookup_delete_Some in Hc as [_ Hc]. apply Hk. by exists c.
Qed.

(** A completion whose result is obtained hands its slot to the next
    pending batch. *)
Lemma handle_done_returned_full st fut w :
  keys_below st → full_or_drained n pb st →
  keys_below (handle_done sc exe clock pb st (fut, Returned w))
  ∧ full_or_drained n pb (handle_done sc exe clock pb st (fut, Returned w)).
Proof.
  intros Hk Hfull.
  destruct (crashed st) as [e|] eqn:Hc.
  { rewrite handle_done_crashed by (by rewrite Hc). by split. }
  destruct (futures st !! fut) as [c|] eqn:Hf.
  - rewrite (handle_done_returned _ _ _ _ _ _ _ w Hc Hf). cbn zeta.
    set (st1 := on_returned sc st fut (fut_result exe c w)).
    destruct (size_on_returned sc st fut c (fut_result exe c w) Hf) as [_ Hsz].
    destruct (on_returned_cursor sc st fut (fut_result exe c w)) as (Hn1 & _).
    fold st1 in Hsz, Hn1.
    destruct (on_returned_cases sc st fut (fut_result exe c w) Hc)
      as [(_ & Hcr & Hfut)|(_ & Hcr & Hfut)]; fold st1 in Hcr, Hfut; rewrite Hcr.
    + specialize (Hsz Hcr).
      assert (Hk1 : keys_below st1) by (by apply (keys_below_delete st _ fut)).
      unfold resubmit.
      destruct (next_to_submit st1 <? length pb)%nat eqn:Hlt.
      * apply Nat.ltb_lt in Hlt.
        destruct (lookup_lt_is_Some_2 pb (next_to_submit st1)) as [b Hb]; [lia|].
        destruct (submit_fresh st1 b Hk1 Hb) as (H1 & H2 & H3).
        split; [done|]. left. rewrite H1.
        destruct Hfull as [Hn | Hd]; [lia|]. lia.
      * apply Nat.ltb_ge in Hlt. split; [done|]. by right.
    + split.
      * intros f. rewrite Hfut, Hn1. apply Hk.
      * unfold full_or_drained. by rewrite Hfut, Hn1.
  - unfold handle_done. simpl. rewrite Hc, Hf. by split.
Qed.

Lemma done_returned_full st dn :
  forallb (fun d : nat * completion =>
             match d.2 with Returned _ => true | Raised => false end) dn = true →
  keys_below st → full_or_drained n pb st →
  keys_below (foldl (handle_done sc exe clock pb) st dn)
  ∧ full_or_drained n pb (foldl (handle_done sc exe clock pb) st dn).
Proof.
  revert st. induction dn as [|[fut c] dn IH]; intros st Hr Hk Hfull; simpl; [by split|].
  simpl in Hr. apply andb_true_iff in Hr as [Hc Hr].
  destruct c as [w|]; [|done].
  destruct (handle_done_returned_full st fut w Hk Hfull) as [Hk' Hfull'].
  by apply IH.
Qed.

Lemma main_loop_returned_full st script :
  returns_only script = true →
  keys_below st → full_or_drained n pb st →
  full_or_drained n pb (main_loop sc exe clock pb st script).
Proof.
  revert st. unfold main_loop, returns_only.
  induction script as [|dn script IH]; intros st Hr Hk Hfull; simpl; [done|].
  simpl in Hr. apply andb_true_iff in Hr as [Hdn Hr].
  unfold loop_iter at 2. destruct (_ =? _)%nat; [by apply IH|].
  destruct (done_returned_full st dn Hdn Hk Hfull) as [Hk' Hfull'].
  by apply IH.
Qed.

End WorkConserving.

Lemma keys_below_init ws : keys_below (init_sched ws).
Proof. intros f [c Hc]. simpl in Hc. by rewrite lookup_empty in Hc. Qed.

(** Once the pool is created, the run starts by submitting min(N, number
    of pending cases). *)
Lemma initial_submission_count cfg win32 cpu_count clock ws pb :
  pending_batches_of cfg ws = Ok pb →
  pool_refuses win32 (Z.to_nat (find_available_cores cpu_count)) = false →
  let n_cores := Z.to_nat (find_available_cores cpu_count) in
  let st := state (main cfg win32 cpu_count clock ws []) in
  next_to_submit st = Nat.min n_cores (length pb)
  ∧ size (futures st) = Nat.min n_cores (length pb)
  ∧ launched st = mk_call <$> take (Nat.min n_cores (length pb)) pb.
Proof.
  intros Hpb Hpool n_cores st. subst st.
  pose proof (main_inv cfg win32 cpu_count clock ws [] pb Hpb) as Hinv.
  rewrite (main_state _ _ _ _ _ _ _ Hpb Hpool) in *. simpl in *.
  destruct (initial_submissions_count (status_col_of cfg) clock pb n_cores
              (length pb) (init_sched (loaded cfg ws)))
    as (H1 & H2 & _); [apply keys_below_init | apply map_size_empty | simpl; lia
                      | simpl; lia |].
  split; [done|]. split; [done|].
  rewrite (inv_launched _ _ _ Hinv). fold n_cores. by rewrite H1.
Qed.

(** As long as no completion raises, after every turn of the loop the
    number of futures in flight is min(N, in flight + still to submit):
    the pool is full until the pending batches run out. *)
Lemma work_conserving cfg win32 cpu_count clock ws script pb :
  pending_batches_of cfg ws = Ok pb →
  pool_refuses win32 (Z.to_nat (find_available_cores cpu_count)) = false →
  returns_only script = true →
  let n_cores := Z.to_nat (find_available_cores cpu_count) in
  let st := state (main cfg win32 cpu_count clock ws script) in
  size (futures st)
  = Nat.min n_cores (size (futures st) + (length pb - next_to_submit st)).
Proof.
  intros Hpb Hpool Hr n_cores st.
  destruct (in_flight_bound cfg win32 cpu_count clock ws script) as (_ & _ & Hle).
  fold n_cores st in Hle.
  assert (Hfull : full_or_drained n_cores pb st); [|destruct Hfull; lia].
  subst st. rewrite (main_state _ _ _ _ _ _ _ Hpb Hpool). simpl.
  destruct (initial_submissions_count (status_col_of cfg) clock pb n_cores
              (length pb) (init_sched (loaded cfg ws)))
    as (H1 & H2 & H3); [apply keys_below_init | apply map_size_empty | simpl; lia
                       | simpl; lia |].
  apply main_loop_returned_full; [done | done |].
  unfold full_or_drained. fold n_cores. lia.
Qed.

(** ** A completion that raises *)

Lemma main_app cfg win32 cpu_count clock ws pb s1 s2 :
  pending_batches_of cfg ws = Ok pb →
  pool_refuses win32 (Z.to_nat (find_available_cores cpu_count)) = false →
  state (main cfg win32 cpu_count clock ws (s1 ++ s2))
  = main_loop (status_col_of cfg) (exe_name cfg) clock pb
      (state (main cfg win32 cpu_count clock ws s1)) s2.
Proof.
  intros Hpb Hpool. rewrite !(main_state _ _ _ _ _ _ _ Hpb Hpool). simpl.
  unfold main_loop. by rewrite foldl_app.
Qed.

(** Once no future is in flight the loop has ended, whatever is still
    pending. *)
Lemma run_ends_without_futures cfg win32 cpu_count clock ws pb s1 s2 :
  pending_batches_of cfg ws = Ok pb →
  size (futures (state (main cfg win32 cpu_count clock ws s1))) = 0 →
  state (main cfg win32 cpu_count clock ws (s1 ++ s2))
  = state (main cfg win32 cpu_count clock ws s1).
Proof.
  intros Hpb Hsz.
  destruct (pool_refuses win32 (Z.to_nat (find_available_cores cpu_count))) eqn:Hpool.
  - by rewrite !(main_refused _ _ _ _ _ _ _ Hpb Hpool).
  - rewrite (main_app _ _ _ _ _ _ _ _ Hpb Hpool).
    apply main_loop_no_futures. by apply map_size_empty_inv.
Qed.

(** C2 at its failing input: one worker slot (3 cores), two pending
    cases, and the completion of the first one raises. The future is
    dropped and nothing is submitted in its place: no future is in flight
    while one pending case is still to submit, so the count is not
    min(N, remaining pending) = 1, and the loop ends there. *)
Theorem raised_completion_leaves_slot_idle :
  let n_cores := Z.to_nat (find_available_cores 3) in
  let run := main cfg_one true 3 demo_clock sheet_two [[(0, Raised)]] in
  n_cores = 1
  ∧ pending_batches_of cfg_one sheet_two = Ok [(2, ["a"]); (3, ["b"])]
  ∧ wait_ok (state (main cfg_one true 3 demo_clock sheet_two [])) [(0, Raised)] = true
  ∧ (λ st, size (futures st)) <$> trace run = [1; 0]
  ∧ size (futures (state run)) = 0
  ∧ next_to_submit (state run) = 1
  ∧ size (futures (state run)) ≠ Nat.min n_cores (2 - next_to_submit (state run)).
Proof. vm_compute. repeat split. lia. Qed.

(** C7 at its failing input: one worker slot, two pending cases, the
    completion of the first one raises. The row is marked [error] and the
    run is not aborted, but the second case is never submitted: it stays
    [pending], and the run is over whatever follows. Had the first
    completion returned a result, the second case would have been
    submitted. *)
Theorem raised_completion_ends_submission :
  let run := main cfg_one true 3 demo_clock sheet_two [[(0, Raised)]] in
  raised run = None
  ∧ cell_value (sheet (state run)) 2 2 = VStr "error"
  ∧ call_row <$> launched (state run) = [2]
  ∧ cell_value (sheet (state run)) 3 2 = VStr "pending"
  ∧ size (futures (state run)) = 0
  ∧ (∀ rest, state (main cfg_one true 3 demo_clock sheet_two ([[(0, Raised)]] ++ rest))
             = state run)
  ∧ call_row <$> launched
      (state (main cfg_one true 3 demo_clock sheet_two [[(0, Returned worker_silent)]]))
    = [2; 3].
Proof.
  intros run.
  assert (Hpb : pending_batches_of cfg_one sheet_two = Ok [(2, ["a"]); (3, ["b"])])
    by reflexivity.
  assert (Hsz : size (futures (state run)) = 0) by reflexivity.
  split; [reflexivity|]. split; [reflexivity|]. split; [reflexivity|].
  split; [reflexivity|]. split; [exact Hsz|]. split; [|reflexivity].
  intros rest. by apply (run_ends_without_futures _ _ _ _ _ _ _ _ Hpb).
Qed.

(** ** A range whose bounds and case id are not all of one kind *)

(** When some of the three values are digit strings and others are not,
    the filter compares an integer with a string. Python refuses that
    with [TypeError], which the [except] clause of the filter does not
    catch: [main] ends before anything is submitted. When the first
    comparison already fails, the second one is not evaluated and the
    case is left out. *)
Lemma mixed_range_raises :
  include_batch (Some ("10", "B")) (replicate 11 "" ++ ["25"])%list 2 = Raise TypeError
  ∧ include_batch (Some ("10", "B")) (replicate 11 "" ++ ["5"])%list 2 = Ok false
  ∧ String.leb "10" "5" && String.leb "5" "B" = true
  ∧ raised (main {| input_col_count := 12; exe_name := "prog.exe";
                    case_id_range := Some ("1", "z") |} true 4 demo_clock sheet_ids [])
    = Some TypeError.
Proof. vm_compute. repeat split. Qed.

(** ** The trace ends in the state of the run *)

Lemma last_nonempty_default {A} (l : list A) (b d d' : A) :
  List.last (b :: l) d = List.last (b :: l) d'.
Proof.
  revert b. induction l as [|a l IH]; intros b; [done|].
  change (List.last (a :: l) d = List.last (a :: l) d'). apply IH.
Qed.

Lemma last_cons_default {A} (l : list A) (a d : A) :
  List.last (a :: l) d = List.last l a.
Proof. destruct l as [|b l]; [done|]. apply (last_nonempty_default (b :: l)). Qed.

Lemma last_app_default {A} (l1 l2 : list A) (d : A) :
  List.last (l1 ++ l2) d = List.last l2 (List.last l1 d).
Proof.
  revert d. induction l1 as [|a l1 IH]; intros d; [done|].
  rewrite <- app_comm_cons, !last_cons_default. apply IH.
Qed.

Section Trace.

Variable sc : nat.
Variable exe : string.
Variable clock : nat → string.
Variable pb : list batch.
Variable n : nat.

Lemma initial_trace_last fuel st :
  List.last (initial_trace sc clock pb n fuel st) st
  = initial_submissions sc clock pb n fuel st.
Proof.
  revert st. induction fuel as [|fuel IH]; intros st; simpl; [done|].
  destruct (_ <? _)%nat; [|done].
  by rewrite last_cons_default, IH.
Qed.

Lemma handle_done_trace_last st d :
  List.last (handle_done_trace sc exe clock pb st d) st
  = handle_done sc exe clock pb st d.
Proof.
  unfold handle_done, handle_done_trace.
  destruct (crashed st); [done|].
  destruct (futures st !! d.1); [|done]. destruct d.2; [|done].
  cbn zeta. by destruct (crashed (on_returned _ _ _ _)).
Qed.

Lemma done_trace_last st dn :
  List.last (done_trace sc exe clock pb st dn) st
  = foldl (handle_done sc exe clock pb) st dn.
Proof.
  revert st. induction dn as [|d dn IH]; intros st; simpl; [done|].
  by rewrite last_app_default, handle_done_trace_last, IH.
Qed.

Lemma loop_trace_last st script :
  List.last (loop_trace sc exe clock pb st script) st
  = main_loop sc exe clock pb st script.
Proof.
  revert st. unfold main_loop.
  induction script as [|dn script IH]; intros st; simpl; [done|].
  rewrite last_app_default, <- IH. f_equal.
  unfold loop_iter. destruct (_ =? _)%nat; [done | apply done_trace_last].
Qed.

End Trace.

Lemma trace_ends_in_state cfg win32 cpu_count clock ws script :
  List.last (trace (main cfg win32 cpu_count clock ws script)) (init_sched (loaded cfg ws))
  = state (main cfg win32 cpu_count clock ws script).
Proof.
  destruct (pending_batches_of cfg ws) as [pb|e] eqn:Hpb.
  - destruct (pool_refuses win32 (Z.to_nat (find_available_cores cpu_count))) eqn:Hpool.
    + by rewrite (main_refused _ _ _ _ _ _ _ Hpb Hpool).
    + rewrite (main_state _ _ _ _ _ _ _ Hpb Hpool). simpl.
      by rewrite last_app_default, initial_trace_last, loop_trace_last.
  - by rewrite (main_raised _ _ _ _ _ _ _ Hpb).
Qed.

(** * Further properties of the engine *)

(** ** The status cell follows the future *)

Lemma pending_row_index (pb : list batch) i j b b' :
  NoDup pb.*1 → pb !! i = Some b → pb !! j = Some b' → b.1 = b'.1 → i = j.
Proof.
  intros Hnd Hi Hj Heq. apply (NoDup_lookup (pb.*1) _ _ b.1 Hnd).
  - by rewrite list_lookup_fmap, Hi.
  - rewrite list_lookup_fmap, Hj. simpl. by rewrite Heq.
Qed.

Lemma tracked_batch pb ws0 st f c :
  sched_inv pb ws0 st → futures st !! f = Some c →
  f < next_to_submit st ∧ ∃ b, pb !! f = Some b ∧ call_row c = b.1.
Proof.
  intros [Ht _ _ _] Hf. destruct (Ht _ _ Hf) as [Hlt Hc]. split; [done|].
  destruct (pb !! f) as [b|]; [|done]. injection Hc as <-. by exists b.
Qed.

Lemma fut_result_status exe c w : finished_status (VStr (br_status (fut_result exe c w))).
Proof.
  unfold finished_status, fut_result, process_batch.
  destruct (run_exe_on_batch _) as [[] ?], (read_output_file _ _) as [? []]; simpl; auto.
Qed.

Section StatusInvariant.

Variable sc : nat.
Variable exe : string.
Variable clock : nat → string.
Variable pb : list batch.
Variable n : nat.
Variable ws0 : worksheet.
Hypothesis pb_rows : NoDup pb.*1.

Lemma status_inv_weaken st : status_inv sc pb st → status_inv_crashed sc pb st.
Proof.
  intros Hs i b Hi. destruct (Hs i b Hi) as (H1 & H2 & H3).
  split; [done|]. split; [|done]. intros H. left. by apply H2.
Qed.

Lemma status_ok_weaken st : status_ok sc pb st → status_inv_crashed sc pb st.
Proof. unfold status_ok. destruct (crashed st); [done | apply status_inv_weaken]. Qed.

Lemma status_ok_running st : crashed st = None → status_inv sc pb st → status_ok sc pb st.
Proof. intros Hc Hs. unfold status_ok. by rewrite Hc. Qed.

Lemma status_inv_submit st : status_inv sc pb st → status_inv sc pb (submit sc clock pb st).
Proof.
  intros Hs. unfold submit.
  destruct (pb !! next_to_submit st) as [[row inputs]|] eqn:Hb; [|done].
  intros i b Hi. simpl.
  destruct (decide (i = next_to_submit st)) as [->|Hne].
  - rewrite Hb in Hi. injection Hi as <-. simpl.
    rewrite cell_value_set_ne by cell_ne. rewrite cell_value_set_eq.
    split; [lia|]. split; [done|]. intros _. by rewrite lookup_insert_eq.
  - assert (Hrow : b.1 ≠ row).
    { intros Heq. apply Hne. by apply (pending_row_index pb i _ b (row, inputs)). }
    rewrite !cell_value_set_ne by congruence.
    rewrite lookup_insert_ne by done.
    destruct (Hs i b Hi) as (H1 & H2 & H3).
    split; [intros ?; apply H1; lia|]. split; [done|]. intros ?; apply H3; lia.
Qed.

Lemma good_submit st :
  crashed st = None → good sc pb ws0 st → good sc pb ws0 (submit sc clock pb st).
Proof.
  intros Hc [Hinv Hs]. split; [by apply inv_submit|].
  apply status_ok_running; [by rewrite crashed_submit|].
  apply status_inv_submit. unfold status_ok in Hs. by rewrite Hc in Hs.
Qed.

Lemma good_resubmit st :
  crashed st = None → good sc pb ws0 st → good sc pb ws0 (resubmit sc clock pb st).
Proof.
  intros Hc Hg. unfold resubmit. destruct (_ <? _)%nat; [by apply good_submit | done].
Qed.

Lemma good_initial fuel st :
  crashed st = None → good sc pb ws0 st →
  Forall (good sc pb ws0) (initial_trace sc clock pb n fuel st)
  ∧ good sc pb ws0 (initial_submissions sc clock pb n fuel st).
Proof.
  revert st. induction fuel as [|fuel IH]; intros st Hc Hg; simpl; [by split|].
  destruct (_ <? _)%nat; [|by split].
  pose proof (good_submit st Hc Hg) as Hg1.
  destruct (IH (submit sc clock pb st)) as [H1 H2]; [by rewrite crashed_submit | done |].
  split; [by apply Forall_cons_2 | done].
Qed.

Lemma good_on_raised st f c :
  crashed st = None → good sc pb ws0 st → futures st !! f = Some c →
  good sc pb ws0 (on_raised sc st f (call_row c)).
Proof.
  intros Hc [Hinv Hs] Hf. split; [by apply inv_on_raised|].
  unfold status_ok in *. cbn [on_raised crashed]. rewrite Hc in *.
  destruct (tracked_batch _ _ _ _ _ Hinv Hf) as (Hlt & b0 & Hb0 & Hrow).
  intros i b Hi. simpl.
  destruct (decide (i = f)) as [->|Hne].
  - rewrite Hb0 in Hi. injection Hi as <-. rewrite Hrow, cell_value_set_eq.
    rewrite lookup_delete_eq.
    split; [lia|]. split; [by intros [? ?] | intros _ _; right; by left].
  - assert (Hr : b.1 ≠ call_row c).
    { rewrite Hrow. intros Heq. apply Hne. by apply (pending_row_index pb i f b b0). }
    rewrite cell_value_set_ne by congruence.
    rewrite lookup_delete_ne by done. apply (Hs i b Hi).
Qed.

Lemma good_on_returned st f c w :
  crashed st = None → good sc pb ws0 st → futures st !! f = Some c →
  good sc pb ws0 (on_returned sc st f (fut_result exe c w)).
Proof.
  intros Hc [Hinv Hs] Hf. split; [by apply inv_on_returned|].
  unfold status_ok in Hs. rewrite Hc in Hs.
  destruct (tracked_batch _ _ _ _ _ Hinv Hf) as (Hlt & b0 & Hb0 & Hrow).
  set (res := fut_result exe c w).
  assert (Hres : br_row res = b0.1) by (subst res; by rewrite fut_result_row).
  destruct (on_returned_cursor sc st f res) as (Hn & _ & _).
  assert (Hfin : finished_status (cell_value (sheet (on_returned sc st f res)) b0.1 sc)).
  { rewrite <- Hres, on_returned_status_cell. apply fut_result_status. }
  assert (Hother : ∀ i b, pb !! i = Some b → i ≠ f →
            cell_value (sheet (on_returned sc st f res)) b.1 sc
            = cell_value (sheet st) b.1 sc).
  { intros i b Hi Hne. apply on_returned_cell_other. left. rewrite Hres.
    intros Heq. apply Hne. by apply (pending_row_index pb i f b b0). }
  unfold status_ok.
  destruct (on_returned_cases sc st f res Hc) as [(_ & Hcr & Hfut)|(_ & Hcr & Hfut)];
    rewrite Hcr; intros i b Hi; rewrite Hn, Hfut.
  - destruct (decide (i = f)) as [->|Hne].
    + rewrite Hb0 in Hi. injection Hi as <-. rewrite lookup_delete_eq.
      split; [lia|]. split; [by intros [? ?] | by intros _ _].
    + rewrite (Hother i b Hi Hne), lookup_delete_ne by done. apply (Hs i b Hi).
  - destruct (decide (i = f)) as [->|Hne].
    + rewrite Hb0 in Hi. injection Hi as <-. rewrite Hf.
      split; [lia|]. split; [intros _; by right | done].
    + rewrite (Hother i b Hi Hne). by apply status_inv_weaken.
Qed.

Lemma good_handle_done st d :
  good sc pb ws0 st →
  Forall (good sc pb ws0) (handle_done_trace sc exe clock pb st d)
  ∧ good sc pb ws0 (handle_done sc exe clock pb st d).
Proof.
  intros Hg. unfold handle_done, handle_done_trace.
  destruct (crashed st) eqn:Hc; [by split|].
  destruct (futures st !! d.1) as [c|] eqn:Hf; [|by split].
  destruct d.2 as [w|]; cbn zeta.
  - pose proof (good_on_returned st d.1 c w Hc Hg Hf) as H1.
    destruct (crashed (on_returned _ _ _ _)) eqn:Hc1.
    + split; [|done]. apply Forall_cons_2; [done | apply Forall_nil_2].
    + pose proof (good_resubmit _ Hc1 H1) as H2. split; [|done].
      apply Forall_cons_2; [done|]. apply Forall_cons_2; [done | apply Forall_nil_2].
  - pose proof (good_on_raised st d.1 c Hc Hg Hf) as H1. split; [|done].
    apply Forall_cons_2; [done | apply Forall_nil_2].
Qed.

Lemma good_done st dn :
  good sc pb ws0 st →
  Forall (good sc pb ws0) (done_trace sc exe clock pb st dn)
  ∧ good sc pb ws0 (foldl (handle_done sc exe clock pb) st dn).
Proof.
  revert st. induction dn as [|d dn IH]; intros st Hg; simpl; [by split|].
  destruct (good_handle_done st d Hg) as [H1 H2].
  destruct (IH _ H2) as [H3 H4].
  split; [by apply Forall_app | done].
Qed.

Lemma good_loop st script :
  good sc pb ws0 st →
  Forall (good sc pb ws0) (loop_trace sc exe clock pb st script)
  ∧ good sc pb ws0 (main_loop sc exe clock pb st script).
Proof.
  revert st. unfold main_loop.
  induction script as [|dn script IH]; intros st Hg; simpl; [by split|].
  destruct (good_done st dn Hg) as [H1 H2].
  assert (Hit : good sc pb ws0 (loop_iter sc exe clock pb st dn)).
  { unfold loop_iter. by destruct (_ =? _)%nat. }
  destruct (IH _ Hit) as [H3 H4].
  split; [|done]. apply Forall_app. split; [|done].
  by destruct (_ =? _)%nat.
Qed.

End StatusInvariant.

Lemma pending_row_loaded cfg ws pb b :
  pending_batches_of cfg ws = Ok pb → b ∈ pb →
  cell_value (loaded cfg ws) b.1 (status_col_of cfg) = VStr "pending".
Proof.
  intros Hpb Hb.
  apply (elem_of_pending_batches _ _ _ _ Hpb) in Hb as (Hr & _ & _ & Hc).
  rewrite loaded_cell by lia. rewrite decide_True by (split; [done | lia]).
  unfold reset_status. by rewrite Hc.
Qed.

(** Every state a run goes through, and its final state, is [status_ok]. *)
Lemma main_status_ok cfg win32 cpu_count clock ws script pb :
  pending_batches_of cfg ws = Ok pb →
  Forall (status_ok (status_col_of cfg) pb) (trace (main cfg win32 cpu_count clock ws script))
  ∧ status_ok (status_col_of cfg) pb (state (main cfg win32 cpu_count clock ws script)).
Proof.
  intros Hpb. set (sc := status_col_of cfg).
  pose proof (pending_batches_NoDup _ _ _ Hpb) as Hnd.
  assert (Hinit : good sc pb (loaded cfg ws) (init_sched (loaded cfg ws))).
  { split; [apply inv_init|]. apply status_ok_running; [done|].
    intros i b Hi. simpl. split; [|split].
    - intros _. apply (pending_row_loaded _ _ _ _ Hpb).
      apply list_elem_of_lookup. by exists i.
    - rewrite lookup_empty. by intros [? ?].
    - lia. }
  destruct (pool_refuses win32 (Z.to_nat (find_available_cores cpu_count))) eqn:Hpool.
  { rewrite (main_refused _ _ _ _ _ _ _ Hpb Hpool). simpl.
    split; [constructor | apply Hinit]. }
  rewrite (main_state _ _ _ _ _ _ _ Hpb Hpool). simpl.
  destruct (good_initial sc clock pb (Z.to_nat (find_available_cores cpu_count))
              (loaded cfg ws) Hnd (length pb) (init_sched (loaded cfg ws)) eq_refl Hinit)
    as [H1 H2].
  destruct (good_loop sc (exe_name cfg) clock pb (loaded cfg ws) Hnd _ script H2)
    as [H3 H4].
  split; [|apply H4].
  apply Forall_app. split; [eapply Forall_impl; [exact H1|] | eapply Forall_impl; [exact H3|]];
    by intros st [_ ?].
Qed.

(** X1. At every point of a run where a submission has just been made or
    a handled future has just been dropped from the dictionary, and at
    its end, the status cell of a pending case follows its future: it
    reads [pending] as long as the case is not submitted, [running] while
    its future is in the dictionary, and [completed], [error] or
    [p-error] once its future has been dropped. The one exception is the
    state a refused cell write leaves behind when it ends the run: the
    future whose result was being written is still in the dictionary
    then, and its status is one of the three final ones already. *)
Theorem status_follows_future
    (cfg : config) (win32 : bool) (cpu_count : Z) (clock : nat → string) (ws : worksheet)
    (script : list (list (nat * completion))) (pb : list batch) (st : sched) :
  pending_batches_of cfg ws = Ok pb →
  st ∈ trace (main cfg win32 cpu_count clock ws script)
  ∨ st = state (main cfg win32 cpu_count clock ws script) →
  let sc := status_col_of cfg in
  ∀ i b, pb !! i = Some b →
    (next_to_submit st ≤ i → cell_value (sheet st) b.1 sc = VStr "pending")
    ∧ (is_Some (futures st !! i) →
       cell_value (sheet st) b.1 sc = VStr "running"
       ∨ (crashed st ≠ None
          ∧ (cell_value (sheet st) b.1 sc = VStr "completed"
             ∨ cell_value (sheet st) b.1 sc = VStr "error"
             ∨ cell_value (sheet st) b.1 sc = VStr "p-error")))
    ∧ (i < next_to_submit st → futures st !! i = None →
       cell_value (sheet st) b.1 sc = VStr "completed"
       ∨ cell_value (sheet st) b.1 sc = VStr "error"
       ∨ cell_value (sheet st) b.1 sc = VStr "p-error").
Proof.
  intros Hpb Hst sc.
  destruct (main_status_ok cfg win32 cpu_count clock ws script pb Hpb) as [Htr Hfin].
  assert (Hok : status_ok sc pb st).
  { destruct Hst as [Hin | ->]; [|exact Hfin].
    by apply (proj1 (Forall_forall _ _) Htr). }
  clear Htr Hfin Hst. unfold status_ok in Hok. intros i b Hi.
  destruct (crashed st) as [e|] eqn:Hc.
  - destruct (Hok i b Hi) as (H1 & H2 & H3). split; [exact H1|]. split; [|exact H3].
    intros Hsome. destruct (H2 Hsome) as [Hrun | Hfin]; [by left | right].
    split; [done | exact Hfin].
  - destruct (Hok i b Hi) as (H1 & H2 & H3). split; [exact H1|]. split; [|exact H3].
    intros Hsome. left. by apply H2.
Qed.

Lemma status_follows_future_witness :
  pending_batches_of cfg_one sheet_resume = Ok pb_resume
  ∧ cell_value (sheet st_one_slot) 3 2 = VStr "running"
  ∧ cell_value (sheet st_one_slot) 4 2 = VStr "pending".
Proof.
  assert (Hpb : pending_batches_of cfg_one sheet_resume = Ok pb_resume) by reflexivity.
  split; [exact Hpb|].
  pose proof (status_follows_future cfg_one true 3 demo_clock sheet_resume [] pb_resume
                st_one_slot Hpb (or_intror eq_refl)) as H.
  split.
  - destruct (H 0 (3, ["b"]) eq_refl) as (_ & Hrun & _).
    destruct Hrun as [Hrun | [Hcr _]]; [by eexists | exact Hrun |].
    exfalso. apply Hcr. reflexivity.
  - destruct (H 1 (4, ["c"]) eq_refl) as (Hpend & _ & _). apply Hpend.
    vm_compute. lia.
Defined.

(** X2. When the dictionary of futures is empty, so that [while futures]
    ends the loop, no case of the sheet is left marked [running]:
    whatever the completions were, whether they returned or raised, the
    status of every data row is then something else. *)
Theorem no_row_left_running
    (cfg : config) (win32 : bool) (cpu_count : Z) (clock : nat → string) (ws : worksheet)
    (script : list (list (nat * completion))) (r : nat) :
  size (futures (state (main cfg win32 cpu_count clock ws script))) = 0 →
  2 ≤ r ≤ max_row ws →
  norm_status (cell_value (sheet (state (main cfg win32 cpu_count clock ws script))) r
                 (status_col_of cfg)) ≠ "running".
Proof.
  intros Hsz Hr.
  assert (Hload : norm_status (cell_value (loaded cfg ws) r (status_col_of cfg))
                  ≠ "running").
  { rewrite loaded_cell by lia. rewrite decide_True by (split; [done | lia]).
    unfold reset_status.
    destruct (is_completed (cell_value ws r (status_col_of cfg))) eqn:Hc; [|done].
    unfold is_completed in Hc. apply String.eqb_eq in Hc. by rewrite Hc. }
  destruct (pending_batches_of cfg ws) as [pb|e] eqn:Hpb.
  - pose proof (main_inv cfg win32 cpu_count clock ws script pb Hpb) as Hinv.
    destruct (main_status_ok cfg win32 cpu_count clock ws script pb Hpb) as [_ Hs].
    apply status_ok_weaken in Hs.
    unfold status_inv_crashed, finished_status in Hs. apply map_size_empty_inv in Hsz.
    destruct (decide (r ∈ pb.*1)) as [Hin|Hout].
    + apply list_elem_of_fmap in Hin as (b & -> & Hb).
      apply list_elem_of_lookup in Hb as [i Hi].
      destruct (Hs i b Hi) as (Hpend & _ & Hfin).
      destruct (decide (next_to_submit (state (main cfg win32 cpu_count clock ws script)) ≤ i))
        as [Hle|Hgt].
      * by rewrite (Hpend Hle).
      * destruct Hfin as [-> | [-> | ->]]; [lia | by rewrite Hsz, lookup_empty | | |];
          done.
    + by rewrite (inv_frame _ _ _ Hinv).
  - by rewrite (main_raised _ _ _ _ _ _ _ Hpb).
Qed.

Lemma no_row_left_running_witness :
  size (futures (state (main cfg_one true 3 demo_clock sheet_two [[(0, Raised)]]))) = 0
  ∧ norm_status
      (cell_value (sheet (state (main cfg_one true 3 demo_clock sheet_two [[(0, Raised)]])))
         2 (status_col_of cfg_one)) ≠ "running".
Proof.
  assert (Hsz : size (futures (state (main cfg_one true 3 demo_clock sheet_two
                                        [[(0, Raised)]]))) = 0) by reflexivity.
  split; [exact Hsz|].
  apply (no_row_left_running cfg_one true 3 demo_clock sheet_two [[(0, Raised)]] 2 Hsz).
  vm_compute. lia.
Defined.

(** ** The order of submission *)

Lemma sublist_increasing (l k : list nat) :
  l `sublist_of` k →
  (∀ i j x y, i < j → k !! i = Some x → k !! j = Some y → x < y) →
  ∀ i j x y, i < j → l !! i = Some x → l !! j = Some y → x < y.
Proof.
  induction 1 as [|a l1 l2 Hsub IH|a l1 l2 Hsub IH]; intros Hk i j x y Hij Hi Hj.
  - done.
  - assert (Htail : ∀ i j x y, i < j → l2 !! i = Some x → l2 !! j = Some y → x < y).
    { intros i' j' x' y' ? ? ?. apply (Hk (S i') (S j')); [lia | done | done]. }
    destruct i as [|i]; destruct j as [|j]; try lia; simpl in *.
    + injection Hi as <-.
      assert (Hy : y ∈ l2).
      { eapply elem_of_sublist; [|done]. apply list_elem_of_lookup. by exists j. }
      apply list_elem_of_lookup in Hy as [j' Hj'].
      apply (Hk 0 (S j')); [lia | done | done].
    + apply (IH Htail i j); [lia | done | done].
  - apply (IH (λ i' j' x' y' Hlt Hx Hy, Hk (S i') (S j') x' y' ltac:(lia) Hx Hy) i j);
      done.
Qed.

Lemma pending_rows_increasing cfg ws pb i j b b' :
  pending_batches_of cfg ws = Ok pb →
  i < j → pb !! i = Some b → pb !! j = Some b' → b.1 < b'.1.
Proof.
  unfold pending_batches_of, batches_of.
  destruct (build_batches _ _ _) as [bs|e] eqn:Hbs; [|done]. simpl.
  intros [= <-] Hij Hi Hj.
  set (k := (λ k, k + 2) <$> seq 0 (max_row (loaded cfg ws) - 1)).
  assert (Hsub : (pending_of (loaded cfg ws) (status_col_of cfg) bs).*1 `sublist_of` k).
  { trans (bs.*1); [apply fmap_sublist, pending_of_sublist|].
    by eapply build_batches_sublist. }
  assert (Hk : ∀ i j x y, i < j → k !! i = Some x → k !! j = Some y → x < y).
  { intros i' j' x y Hlt Hx Hy. subst k.
    rewrite list_lookup_fmap in Hx, Hy.
    destruct (seq _ _ !! i') as [a|] eqn:Ha; [|done].
    destruct (seq _ _ !! j') as [a'|] eqn:Ha'; [|done].
    apply lookup_seq in Ha as [-> _]. apply lookup_seq in Ha' as [-> _].
    simpl in *. injection Hx as <-. injection Hy as <-. lia. }
  apply (sublist_increasing _ k Hsub Hk i j); [done | |].
  - by rewrite list_lookup_fmap, Hi.
  - by rewrite list_lookup_fmap, Hj.
Qed.

(** X3. The calls handed to the executor are those of the first
    [next_to_submit] pending batches, in that order: cases are submitted
    in strictly ascending row order, so no row is submitted twice in a
    run, and every submitted row is a data row that did not read
    [completed] when the store was loaded. *)
Theorem submission_in_row_order
    (cfg : config) (win32 : bool) (cpu_count : Z) (clock : nat → string) (ws : worksheet)
    (script : list (list (nat * completion))) (pb : list batch) :
  pending_batches_of cfg ws = Ok pb →
  let st := state (main cfg win32 cpu_count clock ws script) in
  launched st = mk_call <$> take (next_to_submit st) pb
  ∧ length (launched st) = next_to_submit st
  ∧ (∀ i j ci cj, i < j → launched st !! i = Some ci → launched st !! j = Some cj →
       call_row ci < call_row cj)
  ∧ (∀ cl, cl ∈ launched st →
       2 ≤ call_row cl ≤ max_row ws
       ∧ is_completed (cell_value ws (call_row cl) (status_col_of cfg)) = false).
Proof.
  intros Hpb st.
  pose proof (main_inv cfg win32 cpu_count clock ws script pb Hpb) as Hinv. fold st in Hinv.
  pose proof (inv_launched _ _ _ Hinv) as Hl.
  pose proof (inv_cursor _ _ _ Hinv) as Hc.
  split; [done|]. split; [|split].
  - rewrite Hl, length_fmap, length_take. lia.
  - intros i j ci cj Hij Hi Hj. rewrite Hl in Hi, Hj.
    rewrite list_lookup_fmap in Hi, Hj.
    destruct (take _ pb !! i) as [b|] eqn:Hbi; [|done].
    destruct (take _ pb !! j) as [b'|] eqn:Hbj; [|done].
    injection Hi as <-. injection Hj as <-. simpl.
    apply lookup_take_Some in Hbi as [Hbi _]. apply lookup_take_Some in Hbj as [Hbj _].
    by apply (pending_rows_increasing cfg ws pb i j).
  - intros cl Hcl. destruct (launched_rows _ _ _ _ Hinv Hcl) as (b & Hb & ->).
    apply (elem_of_pending_batches _ _ _ _ Hpb) in Hb as (Hr & _ & _ & Hcomp).
    done.
Qed.

Lemma submission_in_row_order_witness :
  pending_batches_of cfg_one sheet_resume = Ok pb_resume
  ∧ call_row <$> launched (state (main cfg_one true 4 demo_clock sheet_resume [])) = [3; 4].
Proof.
  assert (Hpb : pending_batches_of cfg_one sheet_resume = Ok pb_resume) by reflexivity.
  split; [exact Hpb|].
  destruct (submission_in_row_order cfg_one true 4 demo_clock sheet_resume [] pb_resume Hpb)
    as (Hl & _).
  rewrite Hl. reflexivity.
Defined.

(** ** The run cannot go on for ever *)

Section WorkLeft.

Variable sc : nat.
Variable exe : string.
Variable clock : nat → string.
Variable pb : list batch.
Variable n : nat.

Lemma work_left_submit st :
  next_to_submit st < length pb →
  work_left pb (submit sc clock pb st) ≤ work_left pb st.
Proof.
  intros Hlt. unfold work_left.
  destruct (size_submit sc clock pb st) as [Hs _].
  assert (Hn : next_to_submit (submit sc clock pb st) = S (next_to_submit st)).
  { unfold submit. destruct (lookup_lt_is_Some_2 pb (next_to_submit st) Hlt) as [[r i] ->].
    done. }
  lia.
Qed.

Lemma work_left_resubmit st :
  work_left pb (resubmit sc clock pb st) ≤ work_left pb st.
Proof.
  unfold resubmit. destruct (_ <? _)%nat eqn:Hlt; [|done].
  apply Nat.ltb_lt in Hlt. by apply work_left_submit.
Qed.

Lemma work_left_initial_submissions fuel st :
  work_left pb (initial_submissions sc clock pb n fuel st) ≤ work_left pb st.
Proof.
  revert st. induction fuel as [|fuel IH]; intros st; simpl; [done|].
  destruct (_ <? _)%nat eqn:Hlt; [|done]. apply Nat.ltb_lt in Hlt.
  etrans; [apply IH|]. apply work_left_submit. lia.
Qed.

(** Handling the completion of a tracked future reduces the work left,
    or a refused cell write ends the run there. *)
Lemma work_left_handle_tracked st fut c compl :
  futures st !! fut = Some c →
  work_left pb (handle_done sc exe clock pb st (fut, compl)) ≤ work_left pb st
  ∧ (crashed (handle_done sc exe clock pb st (fut, compl)) = None →
     work_left pb (handle_done sc exe clock pb st (fut, compl)) < work_left pb st).
Proof.
  intros Hf.
  destruct (crashed st) as [e|] eqn:Hc.
  { rewrite handle_done_crashed by (by rewrite Hc). rewrite Hc. by split. }
  destruct compl as [w|].
  - rewrite (handle_done_returned _ _ _ _ _ _ _ w Hc Hf). cbn zeta.
    destruct (size_on_returned sc st fut c (fut_result exe c w) Hf) as [Hle Hsz].
    destruct (on_returned_cursor sc st fut (fut_result exe c w)) as (Hn & _ & _).
    pose proof (work_left_resubmit (on_returned sc st fut (fut_result exe c w))) as Hr.
    destruct (crashed (on_returned _ _ _ _)) eqn:Hc1.
    + split; [unfold work_left; rewrite Hn; lia | by rewrite Hc1].
    + specialize (Hsz eq_refl). unfold work_left in *. rewrite Hn in Hr.
      split; [lia | intros _; lia].
  - rewrite (handle_done_raised _ _ _ _ _ _ _ Hc Hf).
    unfold work_left. simpl. rewrite map_size_delete, Hf. simpl.
    assert (size (futures st) ≠ 0) by (by eapply map_size_ne_0_lookup_2).
    split; [lia | intros _; lia].
Qed.

Lemma work_left_handle_done st d :
  work_left pb (handle_done sc exe clock pb st d) ≤ work_left pb st.
Proof.
  destruct d as [fut compl]. destruct (futures st !! fut) as [c|] eqn:Hf.
  - by destruct (work_left_handle_tracked st fut c compl Hf).
  - unfold handle_done. simpl. rewrite Hf. by destruct (crashed st).
Qed.

(** Once an exception has left the loop, nothing is handled any more. *)
Lemma main_loop_crashed st script :
  crashed st ≠ None → main_loop sc exe clock pb st script = st.
Proof.
  intros Hc. unfold main_loop.
  induction script as [|dn script IH]; simpl; [done|].
  assert (Hit : loop_iter sc exe clock pb st dn = st); [|by rewrite Hit].
  unfold loop_iter. destruct (_ =? _)%nat; [done|].
  induction dn as [|d dn IHd]; simpl; [done|].
  by rewrite handle_done_crashed.
Qed.

Lemma work_left_main_loop st script :
  work_left pb (main_loop sc exe clock pb st script) ≤ work_left pb st.
Proof.
  revert st. unfold main_loop.
  induction script as [|dn script IH]; intros st; simpl; [done|].
  etrans; [apply IH|]. unfold loop_iter. destruct (_ =? _)%nat; [done|].
  clear IH. revert st. induction dn as [|d dn IH]; intros st; simpl; [done|].
  etrans; [apply IH | apply work_left_handle_done].
Qed.

End WorkLeft.

(** X4. The work left in a run, futures in flight plus pending batches
    still to submit, never exceeds the number of pending batches. Each
    time the completion of a tracked future is handled, returned or
    raised, either the work left drops by at least one, or a refused cell
    write has ended the run and nothing is handled after it: after that
    many completions at the latest the loop has ended. *)
Theorem handled_completion_reduces_work
    (cfg : config) (win32 : bool) (cpu_count : Z) (clock : nat → string) (ws : worksheet)
    (script : list (list (nat * completion))) (pb : list batch)
    (fut : nat) (c : call) (compl : completion) :
  pending_batches_of cfg ws = Ok pb →
  futures (state (main cfg win32 cpu_count clock ws script)) !! fut = Some c →
  let st := state (main cfg win32 cpu_count clock ws script) in
  let st' := handle_done (status_col_of cfg) (exe_name cfg) clock pb st (fut, compl) in
  work_left pb st ≤ length pb
  ∧ (crashed st' = None → work_left pb st' < work_left pb st)
  ∧ (crashed st' ≠ None →
     ∀ script', main_loop (status_col_of cfg) (exe_name cfg) clock pb st' script' = st')
  ∧ (work_left pb st = 0 → size (futures st) = 0).
Proof.
  intros Hpb Hf st st'. split; [|split; [|split]].
  - subst st.
    destruct (pool_refuses win32 (Z.to_nat (find_available_cores cpu_count))) eqn:Hpool.
    { rewrite (main_refused _ _ _ _ _ _ _ Hpb Hpool). unfold work_left. simpl.
      rewrite map_size_empty. lia. }
    rewrite (main_state _ _ _ _ _ _ _ Hpb Hpool). simpl.
    etrans; [apply work_left_main_loop|].
    etrans; [apply work_left_initial_submissions|].
    unfold work_left. simpl. rewrite map_size_empty. lia.
  - by apply (work_left_handle_tracked _ _ _ _ _ _ c).
  - intros Hc script'. by apply main_loop_crashed.
  - unfold work_left. lia.
Qed.

Lemma handled_completion_reduces_work_witness :
  pending_batches_of cfg_one sheet_resume = Ok pb_resume
  ∧ futures (state (main cfg_one true 3 demo_clock sheet_resume [])) !! 0
    = Some (mk_call (3, ["b"]))
  ∧ work_left pb_resume
      (handle_done 2 "prog.exe" demo_clock pb_resume
         (state (main cfg_one true 3 demo_clock sheet_resume [])) (0, Raised))
    < work_left pb_resume (state (main cfg_one true 3 demo_clock sheet_resume [])).
Proof.
  assert (Hpb : pending_batches_of cfg_one sheet_resume = Ok pb_resume) by reflexivity.
  assert (Hf : futures (state (main cfg_one true 3 demo_clock sheet_resume [])) !! 0
               = Some (mk_call (3, ["b"]))) by reflexivity.
  split; [exact Hpb|]. split; [exact Hf|].
  destruct (handled_completion_reduces_work cfg_one true 3 demo_clock sheet_resume []
              pb_resume 0 _ Raised Hpb Hf) as (_ & Hlt & _).
  apply Hlt. reflexivity.
Defined.

(** ** What loading changes *)

Lemma write_headers_other ws sc i hs r c :
  r ≠ 1 ∨ c < sc + i ∨ sc + i + length hs ≤ c →
  cell_value (write_headers ws sc i hs) r c = cell_value ws r c.
Proof.
  revert ws i. induction hs as [|h hs IH]; intros ws i H; simpl in *; [done|].
  rewrite IH by lia. apply cell_value_set_ne. cell_ne.
Qed.

Lemma write_headers_lookup ws sc i hs k h :
  hs !! k = Some h →
  cell_value (write_headers ws sc i hs) 1 (sc + i + k) = VStr h.
Proof.
  revert ws i k. induction hs as [|h0 hs IH]; intros ws i k Hk; [done|].
  destruct k as [|k]; cbn [write_headers].
  - injection Hk as ->. rewrite write_headers_other by lia.
    replace (sc + i + 0) with (sc + i) by lia. apply cell_value_set_eq.
  - replace (sc + i + S k) with (sc + S i + k) by lia. by apply IH.
Qed.

Lemma loaded_cell_all cfg ws r c :
  let sc := status_col_of cfg in
  cell_value (loaded cfg ws) r c =
  if decide (r = 1 ∧ sc ≤ c < sc + 4)
  then VStr (default "" (STATUS_COL_HEADERS !! (c - sc)))
  else if decide (c = sc ∧ 2 ≤ r ≤ max_row ws)
       then reset_status (cell_value ws r sc)
       else cell_value ws r c.
Proof.
  intros sc. unfold loaded, ensure_status_columns, reset_running_on_resume.
  cbn [sc_status]. fold (status_col_of cfg). fold sc.
  rewrite reset_fold_cell, write_headers_data_rows.
  destruct (decide (r = 1 ∧ sc ≤ c < sc + 4)) as [[-> Hc]|Hh].
  - rewrite decide_False by (rewrite elem_of_data_rows; lia).
    destruct (lookup_lt_is_Some_2 STATUS_COL_HEADERS (c - sc)) as [h Hh];
      [simpl; lia|].
    rewrite Hh. change (default "" (Some h)) with h.
    replace c with (sc + 0 + (c - sc)) at 1 by lia.
    by apply write_headers_lookup.
  - destruct (decide (c = sc ∧ 2 ≤ r ≤ max_row ws)) as [[-> Hr]|Hs].
    + rewrite decide_True by (by rewrite elem_of_data_rows).
      by rewrite write_headers_other by lia.
    + rewrite decide_False by (rewrite elem_of_data_rows; intros [? ?]; apply Hs; done).
      apply write_headers_other. simpl. lia.
Qed.

(** X5. Loading the store writes the four headers [Status], [Start Time],
    [End Time], [Output] into row 1 right after the input columns and
    resets status cells of data rows; every other cell of the sheet, the
    input cells in particular, keeps its content, and the number of rows
    is unchanged. *)
Theorem load_changes_only_status_cells (cfg : config) (ws : worksheet) :
  let sc := status_col_of cfg in
  (∀ k h, STATUS_COL_HEADERS !! k = Some h →
          cell_value (loaded cfg ws) 1 (sc + k) = VStr h)
  ∧ (∀ r c, ¬ (r = 1 ∧ sc ≤ c < sc + 4) → ¬ (c = sc ∧ 2 ≤ r ≤ max_row ws) →
            cell_value (loaded cfg ws) r c = cell_value ws r c)
  ∧ (∀ r, batch_inputs_of (loaded cfg ws) (input_col_count cfg) r
          = batch_inputs_of ws (input_col_count cfg) r)
  ∧ max_row (loaded cfg ws) = Nat.max 1 (max_row ws).
Proof.
  intros sc. split; [|split; [|split]].
  - intros k h Hk. pose proof (lookup_lt_Some _ _ _ Hk) as Hlt. simpl in Hlt.
    rewrite loaded_cell_all. fold sc.
    rewrite decide_True by lia. replace (sc + k - sc) with k by lia. by rewrite Hk.
  - intros r c Hh Hs. rewrite loaded_cell_all. fold sc.
    by rewrite !decide_False.
  - intros r. unfold batch_inputs_of. apply list_fmap_ext. intros i j Hj.
    apply lookup_seq in Hj as [-> Hlt]. rewrite loaded_cell_all.
    unfold status_col_of. by rewrite !decide_False by lia.
  - apply loaded_max_row.
Qed.

(** X6. Loading is idempotent: loading a sheet that was already loaded
    changes no cell and no row count, so restarting twice in a row
    without running anything leaves the store as the first restart left
    it. *)
Theorem load_is_idempotent (cfg : config) (ws : worksheet) :
  (∀ r c, cell_value (loaded cfg (loaded cfg ws)) r c = cell_value (loaded cfg ws) r c)
  ∧ max_row (loaded cfg (loaded cfg ws)) = max_row (loaded cfg ws).
Proof.
  split.
  - intros r c. rewrite (loaded_cell_all cfg (loaded cfg ws)). cbv zeta.
    rewrite loaded_max_row.
    destruct (decide (r = 1 ∧ status_col_of cfg ≤ c < status_col_of cfg + 4)) as [Hh|Hh].
    + rewrite (loaded_cell_all cfg ws). cbv zeta. by rewrite decide_True.
    + destruct (decide (c = status_col_of cfg ∧ 2 ≤ r ≤ Nat.max 1 (max_row ws)))
        as [[-> Hr]|Hs]; [|done].
      rewrite (loaded_cell_all cfg ws). cbv zeta.
      rewrite decide_False by lia. rewrite decide_True by lia.
      apply reset_status_idem.
  - rewrite !loaded_max_row. lia.
Qed.

(** ** Reading the configuration *)

Lemma split_on_nonempty c s : split_on c s ≠ [].
Proof.
  destruct s as [|x s]; simpl; [done|].
  destruct (Ascii.eqb x c); [done|]. by destruct (split_on c s).
Qed.

Lemma split_on_length c s : length (split_on c s) = S (count_char c s).
Proof.
  induction s as [|x s IH]; simpl; [done|].
  destruct (Ascii.eqb x c); simpl; [by rewrite IH|].
  pose proof (split_on_nonempty c s). destruct (split_on c s); [done|]. simpl in *. lia.
Qed.

Lemma split_on_no_sep c s : count_char c s = 0 → split_on c s = [s].
Proof.
  induction s as [|x s IH]; simpl; [done|].
  destruct (Ascii.eqb x c); [done|]. simpl. intros H. by rewrite IH.
Qed.

Lemma split_on_app c a b :
  count_char c a = 0 → split_on c (a +:+ String c b) = a :: split_on c b.
Proof.
  induction a as [|x a IH]; simpl.
  - intros _. by rewrite Ascii.eqb_refl.
  - destruct (Ascii.eqb x c); [done|]. simpl. intros H. by rewrite IH.
Qed.

Lemma contains_count c s : contains_char c s = negb (count_char c s =? 0).
Proof.
  induction s as [|x s IH]; simpl; [done|].
  destruct (Ascii.eqb x c); simpl; [done | exact IH].
Qed.

Lemma count_char_app c a b : count_char c (a +:+ b) = count_char c a + count_char c b.
Proof. induction a as [|x a IH]; simpl; [done|]. rewrite IH. lia. Qed.

Lemma count_one_decompose c s :
  count_char c s = 1 →
  ∃ a b, s = a +:+ String c b ∧ count_char c a = 0 ∧ count_char c b = 0.
Proof.
  induction s as [|x s IH]; simpl; [done|].
  destruct (Ascii.eqb x c) eqn:E; simpl.
  - apply Ascii.eqb_eq in E as ->. intros H. exists "", s.
    split; [done|]. split; [done | lia].
  - intros H. destruct (IH H) as (a & b & -> & Ha & Hb).
    exists (String x a), b. simpl. rewrite E. done.
Qed.

(** X7. The range line of the configuration. A line `a:b` with exactly
    one colon configures the range (a, b) with the white space around
    each bound removed, also when a bound is empty; every line with
    exactly one colon is of that form. A line with no colon or with more
    than one configures no range. *)
Theorem range_line_needs_one_colon (line : string) :
  (∀ a b, count_char ":" a = 0 → count_char ":" b = 0 →
          parse_range (a +:+ String ":" b) = Some (PyStr.strip a, PyStr.strip b))
  ∧ (count_char ":" line = 1 →
     ∃ a b, line = a +:+ String ":" b
            ∧ parse_range line = Some (PyStr.strip a, PyStr.strip b))
  ∧ (count_char ":" line ≠ 1 → parse_range line = None).
Proof.
  assert (Hform : ∀ a b, count_char ":" a = 0 → count_char ":" b = 0 →
            parse_range (a +:+ String ":" b) = Some (PyStr.strip a, PyStr.strip b)).
  { intros a b Ha Hb. unfold parse_range.
    rewrite contains_count, count_char_app. simpl. rewrite Ha, Hb. simpl.
    by rewrite split_on_app, split_on_no_sep. }
  split; [exact Hform|]. split.
  - intros H1. destruct (count_one_decompose _ _ H1) as (a & b & -> & Ha & Hb).
    exists a, b. split; [done|]. by apply Hform.
  - intros Hne. unfold parse_range. rewrite contains_count.
    destruct (count_char ":" line) as [|[|k]] eqn:Hc; simpl; [done | done |].
    pose proof (split_on_length ":" line) as Hlen. rewrite Hc in Hlen.
    destruct (split_on ":" line) as [|? [|? [|? ?]]]; simpl in Hlen; try lia; done.
Qed.

Lemma non_blank_app (l1 l2 : list string) :
  List.filter PyStr.truthy (PyStr.strip <$> (l1 ++ l2)%list)
  = (List.filter PyStr.truthy (PyStr.strip <$> l1)
     ++ List.filter PyStr.truthy (PyStr.strip <$> l2))%list.
Proof. by rewrite fmap_app, List.filter_app. Qed.

(** X8. Blank lines of the configuration file are skipped wherever they
    stand: removing a line that is empty after stripping white space does
    not change what is loaded, and lines after the third non-blank one
    are never looked at. *)
Theorem load_config_skips_blank_lines
    (stdout : string → print_outcome) (raw1 raw2 : list string) (blank : string) :
  PyStr.strip blank = "" →
  load_config stdout (raw1 ++ blank :: raw2)%list = load_config stdout (raw1 ++ raw2)%list
  ∧ (∀ l0 l1 l2 more,
       PyStr.strip l0 ≠ "" → PyStr.strip l1 ≠ "" → PyStr.strip l2 ≠ "" →
       load_config stdout (l0 :: l1 :: l2 :: more) = load_config stdout [l0; l1; l2]).
Proof.
  intros Hb. split.
  - unfold load_config. rewrite !non_blank_app.
    change (blank :: raw2) with ([blank] ++ raw2)%list. rewrite non_blank_app.
    simpl. by rewrite Hb.
  - intros l0 l1 l2 more H0 H1 H2. unfold load_config. simpl.
    destruct (PyStr.strip l0) eqn:E0; [done|].
    destruct (PyStr.strip l1) eqn:E1; [done|].
    destruct (PyStr.strip l2) eqn:E2; [done|]. done.
Qed.

Lemma load_config_skips_blank_lines_witness :
  load_config console ["12"; "   "; "prog.exe"; ""; "20 : 30"]
  = Some (12%Z, "prog.exe", Some ("20", "30")).
Proof.
  destruct (load_config_skips_blank_lines console ["12"] ["prog.exe"; ""; "20 : 30"] "   "
              eq_refl) as [H1 _].
  simpl in H1. rewrite H1.
  destruct (load_config_skips_blank_lines console ["12"; "prog.exe"] ["20 : 30"] ""
              eq_refl) as [H2 _].
  simpl in H2. rewrite H2. reflexivity.
Defined.

(** When the block on the third line ends without an exception, the
    range is the one parsed from the line. *)
Lemma read_range_parse stdout line rng :
  read_range stdout line = Some rng → rng = parse_range line.
Proof.
  unfold read_range, parse_range. destruct (contains_char ":" line); [|congruence].
  destruct (split_on ":" line) as [|a [|b [|c ?]]];
    repeat match goal with |- context [stdout ?m] => destruct (stdout m) end;
    congruence.
Qed.

(** When that block ends with an exception. *)
Lemma read_range_fails stdout line :
  read_range stdout line = None ↔
  contains_char ":" line = true
  ∧ ((∃ start end_, split_on ":" line = [start; end_]
        ∧ (stdout (info_range_message start end_) = OtherErrorRaised
           ∨ (stdout (info_range_message start end_) = ValueErrorRaised
              ∧ stdout (warning_range_message line) ≠ Printed)))
     ∨ (length (split_on ":" line) ≠ 2
        ∧ stdout (warning_range_message line) ≠ Printed)).
Proof.
  unfold read_range. destruct (contains_char ":" line).
  2: { split; [done | by intros [? _]]. }
  destruct (split_on ":" line) as [|a [|b [|c l]]] eqn:Hs; simpl.
  - destruct (stdout (warning_range_message line)) eqn:Hw; split; try done.
    + intros [_ [(? & ? & ? & _)|[_ ?]]]; done.
    + intros _. split; [done|]. right. by split.
    + intros _. split; [done|]. right. by split.
  - destruct (stdout (warning_range_message line)) eqn:Hw; split; try done.
    + intros [_ [(? & ? & ? & _)|[_ ?]]]; done.
    + intros _. split; [done|]. right. by split.
    + intros _. split; [done|]. right. by split.
  - destruct (stdout (info_range_message a b)) eqn:Hi.
    + split; [done|]. intros [_ [(a' & b' & [= <- <-] & H)|[? _]]]; [|done].
      rewrite Hi in H. by destruct H as [?|[? _]].
    + destruct (stdout (warning_range_message line)) eqn:Hw; split; try done.
      * intros [_ [(a' & b' & [= <- <-] & H)|[? _]]]; [|done].
        rewrite Hi in H. by destruct H as [?|[_ ?]].
      * intros _. split; [done|]. left. exists a, b. split; [done|]. right. by split.
      * intros _. split; [done|]. left. exists a, b. split; [done|]. right. by split.
    + split; [|done]. intros _. split; [done|]. left. exists a, b. split; [done|]. by left.
  - destruct (stdout (warning_range_message line)) eqn:Hw; split; try done.
    + intros [_ [(? & ? & ? & _)|[_ ?]]]; done.
    + intros _. split; [done|]. right. by split.
    + intros _. split; [done|]. right. by split.
Qed.

(** X9. Loading the configuration fails, ending the program, exactly when
    the file has fewer than two non-blank lines, or its first non-blank
    line is not an integer literal, or the block on its third non-blank
    line ends with an exception. That block ends with an exception
    exactly when the line holds a colon and a message about it cannot be
    printed: the line splits into two parts and the [INFO] print fails
    other than by an encoding error, or fails by an encoding error and
    the warning cannot be printed either; or the line does not split
    into two parts and the warning cannot be printed. Otherwise loading
    yields the integer, the second non-blank line as the executable and
    the range parsed from the third one if there is one. On a standard
    output that prints every text a malformed range line is never
    fatal. *)
Theorem load_config_fails_iff (stdout : string → print_outcome) (raw_lines : list string) :
  let lines := List.filter PyStr.truthy (PyStr.strip <$> raw_lines) in
  (load_config stdout raw_lines = None ↔
   length lines < 2
   ∨ (hd_error lines ≫= py_int_literal) = None
   ∨ (∃ l2, lines !! 2 = Some l2 ∧ read_range stdout l2 = None))
  ∧ (∀ l2, read_range stdout l2 = None ↔
       contains_char ":" l2 = true
       ∧ ((∃ start end_, split_on ":" l2 = [start; end_]
             ∧ (stdout (info_range_message start end_) = OtherErrorRaised
                ∨ (stdout (info_range_message start end_) = ValueErrorRaised
                   ∧ stdout (warning_range_message l2) ≠ Printed)))
          ∨ (length (split_on ":" l2) ≠ 2
             ∧ stdout (warning_range_message l2) ≠ Printed)))
  ∧ (∀ num exe rng, load_config stdout raw_lines = Some (num, exe, rng) →
       (hd_error lines ≫= py_int_literal) = Some num
       ∧ lines !! 1 = Some exe
       ∧ rng = (lines !! 2 ≫= parse_range))
  ∧ ((∀ text, stdout text = Printed) →
     (load_config stdout raw_lines = None ↔
      length lines < 2 ∨ (hd_error lines ≫= py_int_literal) = None)).
Proof.
  intros lines.
  assert (Hprinted : (∀ text, stdout text = Printed) → ∀ l2, read_range stdout l2 ≠ None).
  { intros Hp l2 [_ H]%read_range_fails.
    destruct H as [(a & b & _ & [H|[H _]])|[_ H]]; rewrite Hp in H; done. }
  split; [|split; [apply read_range_fails|]]; [|split]; unfold load_config; fold lines.
  - destruct lines as [|l0 [|l1 rest]]; simpl.
    + split; [intros _; left; lia | done].
    + split; [intros _; left; lia | done].
    + destruct (py_int_literal l0) as [num|] eqn:Hn; simpl.
      2: { split; [intros _; right; by left | done]. }
      destruct rest as [|l2 rest]; simpl.
      * split; [done|]. intros [H|[H|(l2 & H & _)]]; [lia | done | done].
      * destruct (read_range stdout l2) as [rng|] eqn:Hrr.
        -- split; [done|]. intros [H|[H|(l2' & [= <-] & H)]]; [lia | done | congruence].
        -- split; [|done]. intros _. right. right. by exists l2.
  - intros num exe rng.
    destruct lines as [|l0 [|l1 rest]]; simpl; [done | done |].
    destruct (py_int_literal l0) as [num'|] eqn:Hn; simpl; [|done].
    destruct rest as [|l2 rest]; simpl.
    + by intros [= <- <- <-].
    + destruct (read_range stdout l2) as [rng'|] eqn:Hrr; [|done].
      intros [= <- <- <-]. split; [done|]. split; [done|].
      by apply (read_range_parse stdout).
  - intros Hp. specialize (Hprinted Hp).
    destruct lines as [|l0 [|l1 rest]]; simpl.
    + split; [intros _; left; lia | done].
    + split; [intros _; left; lia | done].
    + destruct (py_int_literal l0) as [num|] eqn:Hn; simpl.
      2: { split; [intros _; by right | done]. }
      destruct rest as [|l2 rest]; simpl.
      * split; [done|]. intros [H|H]; [lia | done].
      * destruct (read_range stdout l2) as [rng|] eqn:Hrr.
        -- split; [done|]. intros [H|H]; [lia | done].
        -- by destruct (Hprinted l2).
Qed.

(** A range line with a character that the standard output cannot
    encode ends the program: the [INFO] print raises, the handler's
    warning raises again. With a standard output that prints every text
    the same file is loaded with the range it names. *)
Lemma unprintable_range_line_is_fatal :
  let ascii_only (text : string) :=
    if PyStr.all_chars (fun c => (PyStr.code c <? 128)%N) text then Printed else ValueErrorRaised in
  let superscript_three := String (ascii_of_N 179) EmptyString in
  load_config ascii_only ["12"; "prog.exe"; "1:" +:+ superscript_three] = None
  ∧ load_config console ["12"; "prog.exe"; "1:" +:+ superscript_three]
    = Some (12%Z, "prog.exe", Some ("1", superscript_three)).
Proof. vm_compute. by split. Qed.

(** ** Waiting for the workbook *)

Section ContentionProps.

Variable locked : nat → bool.

Lemma poll_until_free_returns fuel a k :
  probes a ≤ k →
  (∀ j, probes a ≤ j < k → locked j = true) →
  locked k = false →
  k - probes a < fuel →
  poll_until_free locked fuel a
  = Some {| probes := S k; popups := popups a; kills_scheduled := kills_scheduled a;
            slept := slept a + (k - probes a); saves := saves a |}.
Proof.
  revert a. induction fuel as [|fuel IH]; intros a Hle Hheld Hfree Hfuel; [lia|].
  simpl. destruct (locked (probes a)) eqn:Hp.
  - assert (probes a ≠ k) by (intros Heq; rewrite Heq in Hp; congruence).
    rewrite IH; simpl; [| lia | intros j Hj; apply Hheld; lia | done | lia].
    f_equal. f_equal; lia.
  - assert (Hk : k = probes a).
    { destruct (decide (k = probes a)) as [|Hne]; [done|].
      rewrite Hheld in Hp by lia. done. }
    subst k. f_equal. f_equal; lia.
Qed.

Lemma poll_until_free_sound fuel a a' :
  poll_until_free locked fuel a = Some a' →
  probes a < probes a'
  ∧ locked (probes a' - 1) = false
  ∧ (∀ j, probes a ≤ j < probes a' - 1 → locked j = true)
  ∧ slept a' = slept a + (probes a' - 1 - probes a)
  ∧ popups a' = popups a ∧ kills_scheduled a' = kills_scheduled a
  ∧ saves a' = saves a.
Proof.
  revert a. induction fuel as [|fuel IH]; intros a; [done|].
  simpl. destruct (locked (probes a)) eqn:Hp.
  - intros H. apply IH in H as (H1 & H2 & H3 & H4 & H5 & H6 & H7). simpl in *.
    repeat split; try done; try lia.
    intros j Hj. destruct (decide (j = probes a)) as [->|Hne]; [done|].
    apply H3. lia.
  - intros [= <-]. simpl. rewrite Nat.sub_0_r.
    repeat split; try done; try lia. all: intros j Hj; lia.
Qed.

(** X10. When the workbook is held at the first look, [wait_excel] shows
    one message box, schedules one kill of Excel and then polls once a
    second: if the file is first found free at probe [k], the call
    returns right after that probe, having slept one second for each
    probe in between, provided it is given that many polls. *)
Theorem wait_excel_returns_when_free (fuel : nat) (a : arbiter) (k : nat) :
  locked (probes a) = true →
  probes a < k →
  (∀ j, probes a < j < k → locked j = true) →
  locked k = false →
  k - probes a ≤ fuel →
  wait_excel locked fuel a
  = Some {| probes := S k; popups := S (popups a);
            kills_scheduled := S (kills_scheduled a);
            slept := slept a + (k - probes a - 1); saves := saves a |}.
Proof.
  intros Hheld Hlt Hbetween Hfree Hfuel. unfold wait_excel. simpl.
  rewrite Hheld. simpl.
  rewrite (poll_until_free_returns fuel _ k); simpl;
    [| lia | intros j Hj; apply Hbetween; lia | done | lia].
  f_equal. f_equal; lia.
Qed.

Lemma wait_excel_sound (fuel : nat) (a a' : arbiter) :
  wait_excel locked fuel a = Some a' →
  probes a < probes a'
  ∧ locked (probes a' - 1) = false
  ∧ (∀ j, probes a ≤ j < probes a' - 1 → locked j = true)
  ∧ saves a' = saves a
  ∧ (if locked (probes a)
     then popups a' = S (popups a) ∧ kills_scheduled a' = S (kills_scheduled a)
          ∧ slept a' = slept a + (probes a' - probes a - 2)
     else a' = {| probes := S (probes a); popups := popups a;
                  kills_scheduled := kills_scheduled a; slept := slept a;
                  saves := saves a |}).
Proof.
  unfold wait_excel. simpl. destruct (locked (probes a)) eqn:Hp; simpl.
  - intros H. apply poll_until_free_sound in H as (H1 & H2 & H3 & H4 & H5 & H6 & H7).
    simpl in *. repeat split; try done; try lia.
    intros j Hj. destruct (decide (j = probes a)) as [->|Hne]; [done|].
    apply H3. lia.
  - intros [= <-]. simpl. rewrite Nat.sub_0_r.
    repeat split; try done; try lia. all: intros j Hj; lia.
Qed.

(** X11. [wait_excel] returns only right after a probe that found the
    workbook free. If the first probe finds it free, nothing else
    happens: no message box, no scheduled kill, no sleep. Otherwise
    exactly one message box is shown and one kill scheduled, whatever the
    number of polls, and every probe before the last one found the file
    held. It never saves. *)
Theorem wait_excel_returns_only_when_free (fuel : nat) (a a' : arbiter) :
  wait_excel locked fuel a = Some a' →
  probes a < probes a'
  ∧ locked (probes a' - 1) = false
  ∧ (∀ j, probes a ≤ j < probes a' - 1 → locked j = true)
  ∧ saves a' = saves a
  ∧ (if locked (probes a)
     then popups a' = S (popups a) ∧ kills_scheduled a' = S (kills_scheduled a)
          ∧ slept a' = slept a + (probes a' - probes a - 2)
     else a' = {| probes := S (probes a); popups := popups a;
                  kills_scheduled := kills_scheduled a; slept := slept a;
                  saves := saves a |}).
Proof. apply wait_excel_sound. Qed.

(** X12. [safe_save] writes the workbook only right after a probe that
    found the file free, and it saves exactly once. As long as the file
    stays held it neither returns nor saves, however long it polls. *)
Theorem safe_save_only_when_free (fuel : nat) (a : arbiter) :
  (∀ a', safe_save locked fuel a = Some a' →
         saves a' = S (saves a) ∧ locked (probes a' - 1) = false
         ∧ probes a < probes a')
  ∧ ((∀ j, probes a ≤ j → locked j = true) →
     wait_excel locked fuel a = None ∧ safe_save locked fuel a = None).
Proof.
  split.
  - intros a'. unfold safe_save.
    destruct (wait_excel locked fuel a) as [a1|] eqn:Hw; [|done]. simpl.
    intros [= <-]. simpl.
    apply wait_excel_sound in Hw as (H1 & H2 & _ & H4 & _).
    by rewrite H4.
  - intros Hheld.
    assert (Hw : wait_excel locked fuel a = None).
    { destruct (wait_excel locked fuel a) as [a1|] eqn:Hw; [|done].
      apply wait_excel_sound in Hw as (H1 & H2 & _).
      rewrite Hheld in H2 by lia. done. }
    split; [done|]. unfold safe_save. by rewrite Hw.
Qed.

End ContentionProps.

Lemma wait_excel_returns_when_free_witness :
  wait_excel held_three_probes 3 arbiter0
  = Some {| probes := 4; popups := 1; kills_scheduled := 1; slept := 2; saves := 0 |}.
Proof.
  apply (wait_excel_returns_when_free held_three_probes 3 arbiter0 3).
  - reflexivity.
  - simpl. lia.
  - intros j Hj. simpl in Hj. assert (j = 1 ∨ j = 2) as [-> | ->] by lia; reflexivity.
  - reflexivity.
  - simpl. lia.
Defined.

Lemma wait_excel_returns_only_when_free_witness :
  wait_excel held_three_probes 5 arbiter0
  = Some {| probes := 4; popups := 1; kills_scheduled := 1; slept := 2; saves := 0 |}
  ∧ held_three_probes 3 = false.
Proof.
  assert (Hw : wait_excel held_three_probes 5 arbiter0
               = Some {| probes := 4; popups := 1; kills_scheduled := 1;
                         slept := 2; saves := 0 |}) by reflexivity.
  split; [exact Hw|].
  destruct (wait_excel_returns_only_when_free held_three_probes 5 arbiter0 _ Hw)
    as (_ & Hfree & _).
  exact Hfree.
Defined.

(** ** The filter without a range, and with bounds of another kind *)

Lemma build_batches_no_range cfg ws idx :
  case_id_range cfg = None → ∃ bs, build_batches cfg ws idx = Ok bs.
Proof.
  intros Hr. induction idx as [|i idx [bs IH]]; simpl; [by eexists|].
  rewrite Hr, IH. simpl. by eexists.
Qed.

(** X13. Without a configured range the filter never fails: the run is
    not aborted by it and the pending batches are exactly the data rows whose
    status did not read [completed], each with the inputs of its row. *)
Theorem no_range_schedules_every_open_case
    (cfg : config) (win32 : bool) (cpu_count : Z) (clock : nat → string) (ws : worksheet)
    (script : list (list (nat * completion))) :
  case_id_range cfg = None →
  raised (main cfg win32 cpu_count clock ws script) = None
  ∧ ∃ pb, pending_batches_of cfg ws = Ok pb
          ∧ ∀ r inputs, (r, inputs) ∈ pb ↔
              2 ≤ r ≤ max_row ws
              ∧ inputs = batch_inputs_of ws (input_col_count cfg) r
              ∧ is_completed (cell_value ws r (status_col_of cfg)) = false.
Proof.
  intros Hr.
  assert (Hpb : ∃ pb, pending_batches_of cfg ws = Ok pb).
  { unfold pending_batches_of, batches_of.
    destruct (build_batches_no_range cfg (loaded cfg ws)
                (seq 0 (max_row (loaded cfg ws) - 1)) Hr) as [bs ->].
    simpl. by eexists. }
  destruct Hpb as [pb Hpb]. split.
  - unfold main. rewrite Hpb. by destruct (pool_refuses _ _).
  - exists pb. split; [done|]. intros r inputs.
    rewrite (elem_of_pending_batches _ _ _ _ Hpb). simpl. rewrite Hr. simpl.
    split; [intros (? & ? & _ & ?); done | intros (? & ? & ?); done].
Qed.

Lemma no_range_schedules_every_open_case_witness :
  case_id_range cfg_one = None
  ∧ raised (main cfg_one true 4 demo_clock sheet_resume []) = None.
Proof.
  split; [reflexivity|].
  destruct (no_range_schedules_every_open_case cfg_one true 4 demo_clock sheet_resume []
              eq_refl) as [Hraised _].
  exact Hraised.
Defined.

Lemma range_try_raises rg s e :
  range_try rg s = Raise e → e = TypeError ∨ e = ValueError.
Proof.
  unfold range_try, int_if_digit, chained_le, py_le.
  destruct (PyStr.isdigit s), (PyStr.isdigit rg.1), (PyStr.isdigit rg.2);
    repeat match goal with
           | |- context [PyStr.py_int ?x] => destruct (PyStr.py_int x)
           end; simpl;
    repeat match goal with
           | |- context [if ?b then _ else _] => destruct b
           end; simpl; intros [= <-]; auto.
Qed.

Lemma include_batch_raises rng inputs row e :
  include_batch rng inputs row = Raise e → e = TypeError.
Proof.
  unfold include_batch. destruct rng as [rg|]; [|done].
  destruct (range_try rg _) as [inc|e'] eqn:Ht; [done|].
  destruct (range_try_raises _ _ _ Ht) as [-> | ->]; [by intros [= <-] | done].
Qed.

Lemma build_batches_raises cfg ws idx i :
  i ∈ idx →
  include_batch (case_id_range cfg)
    (batch_inputs_of ws (input_col_count cfg) (i + 2)) (i + 2) = Raise TypeError →
  build_batches cfg ws idx = Raise TypeError.
Proof.
  intros Hi Hraise. induction idx as [|i0 idx IH]; [by apply elem_of_nil in Hi|].
  simpl. apply elem_of_cons in Hi as [<- | Hi].
  - by rewrite Hraise.
  - destruct (include_batch _ _ (i0 + 2)) as [inc|e] eqn:Hinc; simpl.
    + by rewrite (IH Hi).
    + by rewrite (include_batch_raises _ _ _ _ Hinc).
Qed.

Lemma placeholder_not_digits row : PyStr.isdigit ("UNKNOWN_" +:+ PyStr.str_nat row) = false.
Proof. reflexivity. Qed.

(** X14. With a range whose two bounds convert to integers, a data row
    whose case id is not a digit string makes the filter compare an
    integer with a string: [main] ends with [TypeError] before anything
    is submitted, and the sheet stays as loaded. The placeholder id
    "UNKNOWN_<row>" of a row without case id is such an id. *)
Theorem numeric_range_with_text_id_aborts
    (cfg : config) (win32 : bool) (cpu_count : Z) (clock : nat → string) (ws : worksheet)
    (script : list (list (nat * completion))) (s e : string) (zs ze : Z) (r : nat) :
  case_id_range cfg = Some (s, e) →
  int_if_digit s = Ok (PInt zs) →
  int_if_digit e = Ok (PInt ze) →
  2 ≤ r ≤ max_row ws →
  PyStr.isdigit (case_id_of (batch_inputs_of ws (input_col_count cfg) r) r) = false →
  let run := main cfg win32 cpu_count clock ws script in
  raised run = Some TypeError
  ∧ launched (state run) = []
  ∧ sheet (state run) = loaded cfg ws
  ∧ (∀ row, PyStr.isdigit ("UNKNOWN_" +:+ PyStr.str_nat row) = false).
Proof.
  intros Hrg Hs He Hr Hid run.
  assert (Hpb : pending_batches_of cfg ws = Raise TypeError).
  { unfold pending_batches_of, batches_of.
    rewrite (build_batches_raises cfg (loaded cfg ws) _ (r - 2)); [done | |].
    - apply elem_of_seq. rewrite loaded_max_row. lia.
    - replace (r - 2 + 2) with r by lia.
      rewrite batch_inputs_of_loaded by lia. rewrite Hrg.
      unfold include_batch, range_try. simpl.
      rewrite (int_if_digit_str _ Hid), Hs, He. done. }
  subst run. rewrite (main_raised _ _ _ _ _ _ _ Hpb). simpl.
  split; [done|]. split; [done|]. split; [done|]. apply placeholder_not_digits.
Qed.

Lemma numeric_range_with_text_id_aborts_witness :
  case_id_range cfg_range = Some ("1", "5")
  ∧ raised (main cfg_range true 4 demo_clock
              (grid [[VStr "h"]; (replicate 11 VNone ++ [VInt 3])%list; [VStr "x"]]) [])
    = Some TypeError.
Proof.
  split; [reflexivity|].
  assert (Hr : 2 ≤ 3 ≤ max_row (grid [[VStr "h"];
                                      (replicate 11 VNone ++ [VInt 3])%list;
                                      [VStr "x"]])) by (vm_compute; lia).
  exact (proj1 (numeric_range_with_text_id_aborts cfg_range true 4 demo_clock _ []
                  "1" "5" 1 5 3 eq_refl eq_refl eq_refl Hr eq_refl)).
Defined.

(** ** Integer cells *)

Lemma digits_value_uint_acc d acc :
  PyStr.digits_value (Z.pos acc) (NilEmpty.string_of_uint d)
  = Z.pos (Pos.of_uint_acc d acc).
Proof.
  revert acc. induction d; intros acc; simpl; [done | ..];
    rewrite <- IHd; f_equal; vm_compute (Z.of_N (PyStr.code _) - 48)%Z; lia.
Qed.

Lemma digits_value_uint d :
  PyStr.digits_value 0 (NilEmpty.string_of_uint d) = Z.of_N (Pos.of_uint d).
Proof.
  induction d; simpl; [done | exact IHd | ..];
    vm_compute (10 * 0 + (Z.of_N (PyStr.code _) - 48))%Z;
    apply digits_value_uint_acc.
Qed.

Lemma uint_string_digits d :
  PyStr.all_chars PyStr.is_ascii_digit (NilEmpty.string_of_uint d) = true.
Proof. induction d; simpl; [done | ..]; exact IHd. Qed.

Lemma all_chars_digit_weaken s :
  PyStr.all_chars PyStr.is_ascii_digit s = true →
  PyStr.all_chars PyStr.isdigit_char s = true.
Proof.
  induction s as [|c s IH]; simpl; [done|].
  intros [Hc Hs]%andb_true_iff. rewrite (IH Hs). unfold PyStr.isdigit_char.
  by rewrite Hc.
Qed.

(** X15. An integer case id stored in a cell is compared by its value:
    for a non-negative integer, printing it with [str] and reading it
    back in the filter gives the same integer, as long as it has at most
    4300 digits. A negative integer prints with a minus sign, is no digit
    string and is therefore compared as text. *)
Theorem integer_cell_compares_by_value (z : Z) :
  ((0 ≤ z)%Z → String.length (PyStr.str_Z z) ≤ PyStr.int_max_str_digits →
   int_if_digit (input_of_cell (VInt z)) = Ok (PInt z))
  ∧ ((z < 0)%Z →
     int_if_digit (input_of_cell (VInt z)) = Ok (PStr (PyStr.str_Z z))).
Proof.
  split.
  - intros Hz Hlen. simpl in *. unfold PyStr.str_Z in *.
    destruct z as [|p|p]; [done | | lia]. simpl in *.
    set (d := Pos.to_uint p) in *.
    assert (Hval : PyStr.digits_value 0 (NilZero.string_of_uint d) = Z.pos p).
    { unfold NilZero.string_of_uint.
      pose proof (DecimalPos.Unsigned.of_to p) as Hp. fold d in Hp.
      destruct d; [done | ..]; by rewrite digits_value_uint, Hp. }
    assert (Hdig : PyStr.all_chars PyStr.is_ascii_digit (NilZero.string_of_uint d) = true).
    { unfold NilZero.string_of_uint. destruct d; [done | ..]; apply uint_string_digits. }
    assert (Hne : PyStr.truthy (NilZero.string_of_uint d) = true).
    { unfold NilZero.string_of_uint. by destruct d. }
    unfold int_if_digit, PyStr.isdigit, PyStr.py_int.
    rewrite Hne, (all_chars_digit_weaken _ Hdig), Hdig. simpl.
    apply Nat.leb_le in Hlen. rewrite Hlen. by rewrite Hval.
  - intros Hz. destruct z as [|p|p]; [lia | lia |]. reflexivity.
Qed.

Lemma integer_cell_compares_by_value_witness :
  int_if_digit (input_of_cell (VInt 25)) = Ok (PInt 25)
  ∧ int_if_digit (input_of_cell (VInt (-25))) = Ok (PStr "-25").
Proof.
  destruct (integer_cell_compares_by_value 25) as [Hpos _].
  destruct (integer_cell_compares_by_value (-25)) as [_ Hneg].
  split; [apply Hpos | apply Hneg]; [lia | vm_compute; lia | lia].
Defined.

(** ** The artifact line and the output cells *)

Lemma split_tab_split_on s : PyStr.split_tab s = split_on PyStr.tab s.
Proof.
  induction s as [|c s IH]; simpl; [done|]. rewrite IH. done.
Qed.

Lemma rstrip_by_suffix p s :
  ∃ suf, s = PyStr.rstrip_by p s +:+ suf ∧ PyStr.all_chars p suf = true.
Proof.
  induction s as [|c s (suf & Hs & Hsuf)]; simpl; [by exists ""|].
  destruct (PyStr.rstrip_by p s) as [|c' r] eqn:Hr.
  - simpl in Hs. subst s. destruct (p c) eqn:Hc.
    + exists (String c suf). simpl. by rewrite Hc, Hsuf.
    + exists suf. done.
  - exists suf. simpl. split; [by rewrite Hs at 1 | done].
Qed.

Lemma rstrip_by_last p s t x :
  PyStr.rstrip_by p s = t +:+ String x "" → p x = false.
Proof.
  revert t. induction s as [|c s IH]; intros t; simpl.
  - by destruct t.
  - destruct (PyStr.rstrip_by p s) as [|c' r] eqn:Hr.
    + destruct (p c) eqn:Hc; [by destruct t|].
      destruct t as [|c0 t]; simpl; [by intros [= <-]|].
      intros [= _ H]. by destruct t.
    + destruct t as [|c0 t]; simpl; [done|].
      intros [= _ H]. by apply (IH t).
Qed.

Lemma count_char_all p c s :
  p c = false → PyStr.all_chars p s = true → count_char c s = 0.
Proof.
  intros Hc. induction s as [|x s IH]; simpl; [done|].
  intros [Hx Hs]%andb_true_iff. rewrite (IH Hs).
  destruct (Ascii.eqb x c) eqn:E; [|done].
  apply Ascii.eqb_eq in E as ->. congruence.
Qed.

(** X16. [read_output_file] looks at the one file "Output<case id>.txt".
    When the file is missing or cannot be read the line is empty and the
    artifact counts as absent. Otherwise the line is the first line of
    the file without the carriage returns and line feeds at its end, and
    nothing else is removed: the line does not end in either character,
    and it splits into one field more than the first line has tabs. *)
Theorem read_output_file_strips_line_end (files : string → file_obs) (case_id : string) :
  let line := (read_output_file files case_id).1 in
  let present := (read_output_file files case_id).2 in
  match files ("Output" +:+ case_id +:+ ".txt") with
  | FirstLine raw =>
      present = true
      ∧ (∃ suf, raw = line +:+ suf ∧ PyStr.all_chars PyStr.is_newline suf = true)
      ∧ (∀ t x, line = t +:+ String x "" → PyStr.is_newline x = false)
      ∧ length (PyStr.split_tab line) = S (count_char PyStr.tab raw)
  | _ => line = "" ∧ present = false
  end.
Proof.
  intros line present. subst line present.
  unfold read_output_file, output_filename.
  destruct (files _) as [| |raw]; [done | done |]. simpl.
  destruct (rstrip_by_suffix PyStr.is_newline raw) as (suf & Hraw & Hsuf).
  split; [done|]. split; [by exists suf|]. split.
  - intros t x. apply rstrip_by_last.
  - rewrite split_tab_split_on, split_on_length. f_equal.
    assert (Hsuf0 : count_char PyStr.tab suf = 0)
      by (by apply (count_char_all PyStr.is_newline)).
    transitivity (count_char PyStr.tab (PyStr.rstrip_by PyStr.is_newline raw +:+ suf)).
    + rewrite count_char_app, Hsuf0. unfold PyStr.rstrip_newlines. lia.
    + by rewrite <- Hraw.
Qed.

(** A field within the cell limit and without refused characters is
    accepted and stored as it is. *)
Lemma plain_field f :
  (String.length f <=? MAX_CELL_CHARS) && negb (has_illegal_char f) = true →
  accepted f = true ∧ stored f = f.
Proof.
  intros [Hlen Hill]%andb_true_iff. apply Nat.leb_le in Hlen.
  pose proof (stored_short f Hlen) as Hs. split; [|done].
  unfold accepted. by rewrite Hs.
Qed.

Lemma plain_fields fs :
  forallb (λ f, (String.length f <=? MAX_CELL_CHARS) && negb (has_illegal_char f)) fs = true →
  forallb accepted fs = true ∧ stored <$> fs = fs.
Proof.
  induction fs as [|f fs IH]; [done|].
  cbn [forallb]. intros [Hf Hfs]%andb_true_iff.
  destruct (plain_field f Hf) as [Ha Hs]. destruct (IH Hfs) as [Has Hss].
  rewrite Ha, Has, fmap_cons, Hs, Hss. done.
Qed.

(** X17. The output cells of a row hold an artifact line that the
    workbook accepts: after a completion, handled while the run goes on,
    with a non-empty line none of whose fields is refused, reading back
    the cells from the [Output] column on, one per field, and joining
    them with tabs gives the line with each field cut to the 32767
    characters a cell holds. When moreover no field is longer than that
    and none holds a control character other than tab, line feed and
    carriage return, the line comes back without loss. The number of
    cells is the number of tabs of the line plus one. *)
Theorem output_line_round_trip
    (sc : nat) (exe : string) (clock : nat → string) (pb : list batch)
    (st : sched) (fut : nat) (c : call) (w : worker_obs) :
  crashed st = None →
  futures st !! fut = Some c →
  let st' := handle_done sc exe clock pb st (fut, Returned w) in
  let line := (read_output_file (w_files w) (call_case_id c)).1 in
  let read_back :=
    PyStr.join_tab
      (py_str <$> ((λ i, cell_value (sheet st') (call_row c) (sc + 3 + i))
                   <$> seq 0 (S (count_char PyStr.tab line)))) in
  line ≠ "" →
  (forallb accepted (PyStr.split_tab line) = true →
   read_back = PyStr.join_tab (stored <$> PyStr.split_tab line))
  ∧ (forallb (λ f, (String.length f <=? MAX_CELL_CHARS) && negb (has_illegal_char f))
       (PyStr.split_tab line) = true →
     read_back = line).
Proof.
  intros Hc Hf st' line read_back Hline.
  destruct (handle_done_output_cells sc exe clock pb st fut c w Hc Hf) as [Hfields _].
  destruct (Hfields Hline) as [Hcells _].
  fold st' line in Hcells.
  assert (Hlen : S (count_char PyStr.tab line) = length (PyStr.split_tab line)).
  { by rewrite split_tab_split_on, split_on_length. }
  assert (Hacc : forallb accepted (PyStr.split_tab line) = true →
                 read_back = PyStr.join_tab (stored <$> PyStr.split_tab line)).
  { intros Hall. subst read_back. rewrite Hlen. f_equal.
    apply list_eq. intros i. rewrite !list_lookup_fmap.
    destruct (PyStr.split_tab line !! i) as [f|] eqn:Hi.
    - rewrite lookup_seq_lt by (by eapply lookup_lt_Some). simpl.
      rewrite (Hcells i f Hi); [done|]. by apply forallb_take.
    - rewrite lookup_seq_ge; [done|]. by apply lookup_ge_None. }
  split; [exact Hacc|].
  intros Hplain. destruct (plain_fields _ Hplain) as [Hall Hst].
  rewrite (Hacc Hall), Hst. apply join_split_tab.
Qed.

Lemma output_line_round_trip_witness :
  crashed st_one_slot = None
  ∧ futures st_one_slot !! 0 = Some (mk_call (3, ["b"]))
  ∧ PyStr.join_tab
      (py_str <$> ((λ i, cell_value
                           (sheet (handle_done 2 "prog.exe" demo_clock pb_resume
                                     st_one_slot (0, Returned (worker_ok line_abc))))
                           3 (2 + 3 + i))
                   <$> seq 0 3))
    = line_abc.
Proof.
  assert (Hc : crashed st_one_slot = None) by reflexivity.
  assert (Hf : futures st_one_slot !! 0 = Some (mk_call (3, ["b"]))) by reflexivity.
  split; [exact Hc|]. split; [exact Hf|].
  destruct (output_line_round_trip 2 "prog.exe" demo_clock pb_resume st_one_slot 0 _
              (worker_ok line_abc) Hc Hf) as [_ Hplain]; [discriminate|].
  apply Hplain. vm_compute. reflexivity.
Defined.

(** ** The size of the pool *)

(** X18. With N = max(1, cpu_count - 2) the pool never holds more than N
    futures: in every state a run goes through, from the first submission
    to the last completion handled, whatever the completions are. The
    states listed end in the final state of the run. *)
Theorem pool_never_exceeds_cores
    (cfg : config) (win32 : bool) (cpu_count : Z) (clock : nat → string) (ws : worksheet)
    (script : list (list (nat * completion))) :
  let n_cores := Z.to_nat (find_available_cores cpu_count) in
  let run := main cfg win32 cpu_count clock ws script in
  Z.of_nat n_cores = Z.max 1 (cpu_count - 2)
  ∧ (∀ st, st ∈ trace run → size (futures st) ≤ n_cores)
  ∧ size (futures (state run)) ≤ n_cores
  ∧ List.last (trace run) (init_sched (loaded cfg ws)) = state run.
Proof.
  intros n_cores run.
  destruct (in_flight_bound cfg win32 cpu_count clock ws script) as (_ & Htrace & Hstate).
  split; [subst n_cores; unfold find_available_cores; lia|].
  split; [|split; [exact Hstate | apply trace_ends_in_state]].
  intros st Hst. by apply (proj1 (Forall_forall _ _) Htrace).
Qed.

(** X19. On a host where the pool is created (not Windows, or N at most
    61), a run starts by submitting min(N, number of pending cases)
    cases, and as long as no completion raises and no cell write is
    refused the pool is full after every turn of the loop until the
    pending cases run out: the number of futures in flight is
    min(N, in flight + still to submit). On Windows with N above 61 the
    pool is refused and nothing is submitted. *)
Theorem pool_stays_full_without_exceptions
    (cfg : config) (win32 : bool) (cpu_count : Z) (clock : nat → string) (ws : worksheet)
    (script : list (list (nat * completion))) (pb : list batch) :
  pending_batches_of cfg ws = Ok pb →
  let n_cores := Z.to_nat (find_available_cores cpu_count) in
  let st0 := state (main cfg win32 cpu_count clock ws []) in
  let st := state (main cfg win32 cpu_count clock ws script) in
  (win32 = false ∨ n_cores ≤ 61 →
   next_to_submit st0 = Nat.min n_cores (length pb)
   ∧ size (futures st0) = Nat.min n_cores (length pb)
   ∧ (returns_only script = true → crashed st = None →
      size (futures st)
      = Nat.min n_cores (size (futures st) + (length pb - next_to_submit st))))
  ∧ (win32 = true → 61 < n_cores →
     pool_error (main cfg win32 cpu_count clock ws script) = Some ValueError
     ∧ launched st = [] ∧ size (futures st) = 0).
Proof.
  intros Hpb n_cores st0 st. split.
  - intros Hhost.
    assert (Hpool : pool_refuses win32 n_cores = false) by (by apply pool_accepted).
    destruct (initial_submission_count cfg win32 cpu_count clock ws pb Hpb Hpool)
      as (H1 & H2 & _).
    split; [exact H1|]. split; [exact H2|].
    intros Hr _. by apply work_conserving.
  - intros -> Hlt.
    assert (Hpool : pool_refuses true n_cores = true).
    { unfold pool_refuses. simpl. by apply Nat.ltb_lt. }
    subst st. rewrite (main_refused _ _ _ _ _ _ _ Hpb Hpool). simpl.
    by rewrite map_size_empty.
Qed.

Lemma pool_stays_full_without_exceptions_witness :
  pending_batches_of cfg_one sheet_two = Ok [(2, ["a"]); (3, ["b"])]
  ∧ returns_only [[(0, Returned worker_silent)]] = true
  ∧ size (futures (state (main cfg_one true 3 demo_clock sheet_two
                            [[(0, Returned worker_silent)]]))) = 1
  ∧ launched (state (main cfg_one true 64 demo_clock sheet_two
                       [[(0, Returned worker_silent)]])) = [].
Proof.
  assert (Hpb : pending_batches_of cfg_one sheet_two = Ok [(2, ["a"]); (3, ["b"])])
    by reflexivity.
  assert (Hr : returns_only [[(0, Returned worker_silent)]] = true) by reflexivity.
  split; [exact Hpb|]. split; [exact Hr|]. split.
  - destruct (pool_stays_full_without_exceptions cfg_one true 3 demo_clock sheet_two
                [[(0, Returned worker_silent)]] _ Hpb) as [Hok _].
    destruct Hok as (_ & _ & Hfull); [right; vm_compute; lia|].
    rewrite Hfull; reflexivity.
  - destruct (pool_stays_full_without_exceptions cfg_one true 64 demo_clock sheet_two
                [[(0, Returned worker_silent)]] _ Hpb) as [_ Hrefused].
    destruct Hrefused as (_ & Hl & _); [reflexivity | vm_compute; lia | exact Hl].
Defined.
